(** * Assignment tracker agent: a shallow embedding of [iby_agent.py]

    The development follows the Python source class by class:
    - [PyStr]: the [str] methods the program calls ([strip], [lower],
      [replace], [startswith], [in], [re.sub(r'\s+', ' ', _)]);
    - [Scraper]: the title deduplicator and the fallback pairing loop of
      [CompleteAssignmentScraper.scrape_assignments];
    - [DateTime]: datetimes, naive or aware of a time zone, [strptime] for
      the one format the program uses, and
      [AssignmentStorage.parse_due_date];
    - [Storage]: the [assignments] table and the statements that
      [AssignmentStorage] runs on it;
    - [Notifier]: [CompleteAssignmentScraper.check_and_notify_deadlines].

    Strings are sequences of 8-bit characters; the embedding is exact on
    ASCII text (whitespace and case are the ASCII ones). *)

From Stdlib Require Import ZArith Lia Bool Ascii String.
From stdpp Require Import base option list sorting gmap sets strings.

Local Open Scope Z_scope.

(** ** Python [str] operations *)
Module PyStr.

(** [c.isspace()] on ASCII: TAB..CR, FS..US and the space. The regular
    expression class [\s] matches the same characters. *)
Definition isspace (c : ascii) : bool :=
  let n := nat_of_ascii c in
  ((9 <=? n)%nat && (n <=? 13)%nat) || ((28 <=? n)%nat && (n <=? 32)%nat).

Definition lower_char (c : ascii) : ascii :=
  let n := nat_of_ascii c in
  if ((65 <=? n)%nat && (n <=? 90)%nat) then ascii_of_nat (n + 32) else c.

(** [s.lower()] *)
Fixpoint lower (s : string) : string :=
  match s with
  | EmptyString => EmptyString
  | String c s' => String (lower_char c) (lower s')
  end.

(** [s.lstrip()] *)
Fixpoint lstrip (s : string) : string :=
  match s with
  | EmptyString => EmptyString
  | String c s' => if isspace c then lstrip s' else s
  end.

(** [s.rstrip()] *)
Fixpoint rstrip (s : string) : string :=
  match s with
  | EmptyString => EmptyString
  | String c s' =>
      match rstrip s' with
      | EmptyString => if isspace c then EmptyString else String c EmptyString
      | r => String c r
      end
  end.

(** [s.strip()] *)
Definition strip (s : string) : string := rstrip (lstrip s).

(** [s.startswith(p)] *)
Definition startswith (s p : string) : bool := String.prefix p s.

(** [sub in s] *)
Fixpoint contains (sub s : string) : bool :=
  String.prefix sub s ||
  match s with
  | EmptyString => false
  | String _ s' => contains sub s'
  end.

(** [s.replace(old, new)] for a non-empty [old]: occurrences are found left
    to right and do not overlap. [skip] counts the characters of a matched
    occurrence that are still to be dropped. *)
Fixpoint replace_from (old new : string) (skip : nat) (s : string) : string :=
  match s with
  | EmptyString => EmptyString
  | String c s' =>
      match skip with
      | S k => replace_from old new k s'
      | O =>
          if String.prefix old s
          then new +:+ replace_from old new (String.length old - 1) s'
          else String c (replace_from old new 0 s')
      end
  end.

(** With an empty [old], Python puts [new] before every character and at
    the end. *)
Fixpoint replace_empty (new s : string) : string :=
  match s with
  | EmptyString => new
  | String c s' => new +:+ String c (replace_empty new s')
  end.

Definition replace (s old new : string) : string :=
  match old with
  | EmptyString => replace_empty new s
  | _ => replace_from old new 0 s
  end.

(** [re.sub(r'\s+', ' ', s)]: [in_run] tells that the previous character was
    whitespace, already replaced. *)
Fixpoint collapse_from (in_run : bool) (s : string) : string :=
  match s with
  | EmptyString => EmptyString
  | String c s' =>
      if isspace c
      then (if in_run then collapse_from true s'
            else String " "%char (collapse_from true s'))
      else String c (collapse_from false s')
  end.

Definition collapse_ws (s : string) : string := collapse_from false s.

(** Truth value of a string: [bool(s)] *)
Definition truthy (s : string) : bool :=
  match s with EmptyString => false | _ => true end.

(** [all_space s]: [s] is made of whitespace only, so that [strip] leaves
    nothing of it. *)
Fixpoint all_space (s : string) : bool :=
  match s with
  | EmptyString => true
  | String c s' => isspace c && all_space s'
  end.

End PyStr.

(** ** The scraper's deduplicator and fallback loop *)
Module Scraper.

(** A scraped assignment is the dict [{'title': _, 'due_date': _}]. *)
Abbreviation assignment := (gmap string string).

Definition mk_assignment (title due_date : string) : assignment :=
  <["due_date" := due_date]> (<["title" := title]> ∅).

(** [normalize_title]: [re.sub(r'\s+', ' ', title.strip().lower())] *)
Definition normalize_title (title : string) : string :=
  PyStr.collapse_ws (PyStr.lower (PyStr.strip title)).

(** The normal form as the specification words it: whitespace runs
    collapsed to a single space, then trimmed, then lowercased. It is
    compared with [normalize_title] below. *)
Definition normalized_as_worded (title : string) : string :=
  PyStr.lower (PyStr.strip (PyStr.collapse_ws title)).

(** The test in the body of the loop of [is_duplicate_title]. *)
Definition duplicates (normalized existing_normalized : string) : bool :=
  String.eqb normalized existing_normalized
  || PyStr.contains normalized existing_normalized
  || PyStr.contains existing_normalized normalized.

(** [is_duplicate_title(title, found_set)] *)
Definition is_duplicate_title (title : string) (found_set : gset string) : bool :=
  let normalized := normalize_title title in
  existsb (fun existing => duplicates normalized (normalize_title existing))
          (elements found_set).

(** State of the fallback loop: the title buffer, the set of titles found so
    far and the list of assignments emitted so far. *)
Record fallback_state := FallbackState {
  current_assignment : option string;
  assignments_found : gset string;
  assignments : list assignment
}.

(** Truth value of [current_assignment]: [None] and the empty string are
    false. *)
Definition opt_truthy (o : option string) : bool :=
  match o with Some s => PyStr.truthy s | None => false end.

Definition mentions_date_label (text : string) : bool :=
  existsb (fun word => PyStr.contains word text) ["Due:"; "Opened:"; "Closed:"].

(** One iteration of the loop over [all_elements], on the element's text. *)
Definition fallback_step (st : fallback_state) (elem_text : string) : fallback_state :=
  let text := PyStr.strip elem_text in
  if negb (PyStr.truthy text) then st
  else if PyStr.contains "Assignment" text && (Z.of_nat (String.length text) <? 100)
  then
    if negb (mentions_date_label text)
    then FallbackState (Some text) (assignments_found st) (assignments st)
    else st
  else if PyStr.startswith text "Due:" && opt_truthy (current_assignment st)
  then
    let cur := default EmptyString (current_assignment st) in
    if negb (is_duplicate_title cur (assignments_found st))
    then FallbackState None
           ({[cur]} ∪ assignments_found st)
           (assignments st ++ [mk_assignment cur text])
    else FallbackState None (assignments_found st) (assignments st)
  else st.

(** The loop of "Method 2", started with an empty buffer. *)
Definition fallback_loop (found : gset string) (acc : list assignment)
    (texts : list string) : fallback_state :=
  foldl fallback_step (FallbackState None found acc) texts.

(** "Method 2" with its guard: it runs only when "Method 1" found nothing. *)
Definition fallback_method (found : gset string) (acc : list assignment)
    (texts : list string) : gset string * list assignment :=
  if decide (size found = 0%nat)
  then let st := fallback_loop found acc texts in
       (assignments_found st, assignments st)
  else (found, acc).

End Scraper.

(** ** Datetimes, [strptime] and [parse_due_date] *)
Module DateTime.

(** A [datetime.datetime]: the fields of its wall clock and the offset of
    its [tzinfo] from UTC, in microseconds, which Python keeps strictly
    between minus and plus one day; the offset is [None] for a naive
    datetime. [strptime] with the format of the program and
    [datetime.now()] give naive datetimes; [dateparser.parse] gives an aware
    one for a text that names a time zone. *)
Record datetime := mk_aware_datetime {
  year : Z; month : Z; day : Z;
  hour : Z; minute : Z; second : Z; microsecond : Z;
  utcoffset : option Z
}.

(** A naive datetime. *)
Definition mk_datetime (y m d hh mm ss us : Z) : datetime :=
  mk_aware_datetime y m d hh mm ss us None.

(** Whether the datetime is aware of its time zone. *)
Definition aware (d : datetime) : bool :=
  match utcoffset d with Some _ => true | None => false end.

Definition is_leap (y : Z) : bool :=
  (y mod 4 =? 0) && (negb (y mod 100 =? 0) || (y mod 400 =? 0)).

Definition days_in_month (y m : Z) : Z :=
  if (m =? 2) && is_leap y then 29
  else nth (Z.to_nat m) [0; 31; 28; 31; 30; 31; 30; 31; 31; 30; 31; 30; 31] 0.

Definition days_before_year (y : Z) : Z :=
  let y1 := y - 1 in y1 * 365 + y1 / 4 - y1 / 100 + y1 / 400.

Definition days_before_month (y m : Z) : Z :=
  nth (Z.to_nat m) [0; 0; 31; 59; 90; 120; 151; 181; 212; 243; 273; 304; 334] 0
  + (if (2 <? m) && is_leap y then 1 else 0).

(** [date.toordinal()]: 1 January of year 1 is day 1. *)
Definition toordinal (d : datetime) : Z :=
  days_before_year (year d) + days_before_month (year d) (month d) + day d.

Definition us_per_day : Z := 86400 * 1000000.

(** The wall clock of a datetime, in microseconds: the instant of a naive
    datetime. Two naive datetimes are compared, and subtracted, through it. *)
Definition to_us (d : datetime) : Z :=
  toordinal d * us_per_day
  + ((hour d * 60 + minute d) * 60 + second d) * 1000000 + microsecond d.

(** The first and the last instant that a [datetime] holds: midnight of
    1 January of year 1 and the last microsecond of 31 December 9999. *)
Definition min_us : Z := us_per_day.

Definition max_us : Z := 3652059 * us_per_day + (us_per_day - 1).

(** [now + timedelta(days=days)] for a naive [now]: [OverflowError] (here
    [None]) when [timedelta] refuses the days, whose magnitude is above
    999999999, or when the sum leaves the years 1 to 9999. *)
Definition add_days (now days : Z) : option Z :=
  let sum := now + days * us_per_day in
  if (Z.abs days <=? 999999999) && (min_us <=? sum) && (sum <=? max_us)
  then Some sum
  else None.

(** [(a - b).days] for instants in microseconds: a [timedelta] is normalised
    with [0 <= seconds < 86400] and [0 <= microseconds < 1000000], so its
    days are the floor of the quotient. *)
Definition delta_days (a_us b_us : Z) : Z := (a_us - b_us) / us_per_day.

(** The constructor's check: [ValueError] (here [None]) for a year outside
    1..9999 or a day that the month does not have. *)
Definition make_date (y m d hh mm : Z) : option datetime :=
  if (1 <=? y) && (y <=? 9999) && (1 <=? m) && (m <=? 12)
     && (1 <=? d) && (d <=? days_in_month y m)
  then Some (mk_datetime y m d hh mm 0 0)
  else None.

(** *** The regular expression of [strptime]

    [_strptime] turns the format into a regular expression, matched at the
    start of the string, case-insensitively, by a backtracking matcher. Each
    piece below takes the matcher of what follows it as a continuation and
    tries its alternatives in the order of the expression. *)
Section Regex.
Context {R : Type}.

Definition cont : Type := string -> option R.

Definition orelse (m1 m2 : cont) : cont :=
  fun s => match m1 s with Some r => Some r | None => m2 s end.

Definition char_if (p : ascii -> bool) (k : ascii -> cont) : cont :=
  fun s =>
    match s with
    | String c s' => if p c then k c s' else None
    | EmptyString => None
    end.

(** A literal word, letters compared without case. *)
Fixpoint word (w : string) (k : cont) : cont :=
  match w with
  | EmptyString => k
  | String a w' =>
      char_if (fun c => Ascii.eqb (PyStr.lower_char c) (PyStr.lower_char a))
              (fun _ => word w' k)
  end.

(** [(?P<x>n1|n2|...)] for a list of names with their values. *)
Fixpoint names (l : list (string * Z)) (k : Z -> cont) : cont :=
  match l with
  | [] => fun _ => None
  | (w, v) :: l' => orelse (word w (k v)) (names l' k)
  end.

(** [\s*] and [\s+], greedy. *)
Fixpoint spaces0 (k : cont) (s : string) : option R :=
  match s with
  | String c s' =>
      if PyStr.isspace c
      then match spaces0 k s' with Some r => Some r | None => k s end
      else k s
  | EmptyString => k s
  end.

Definition spaces1 (k : cont) : cont :=
  char_if PyStr.isspace (fun _ => spaces0 k).

Definition digit_val (c : ascii) : Z := Z.of_nat (nat_of_ascii c) - 48.

Definition in_range (lo hi : ascii) (c : ascii) : bool :=
  (nat_of_ascii lo <=? nat_of_ascii c)%nat && (nat_of_ascii c <=? nat_of_ascii hi)%nat.

Definition is_digit : ascii -> bool := in_range "0" "9".

(** [%d]: [3[0-1]|[1-2]\d|0[1-9]|[1-9]| [1-9]] *)
Definition re_d (k : Z -> cont) : cont :=
  orelse (char_if (in_range "3" "3") (fun a =>
          char_if (in_range "0" "1") (fun b => k (10 * digit_val a + digit_val b))))
 (orelse (char_if (in_range "1" "2") (fun a =>
          char_if is_digit (fun b => k (10 * digit_val a + digit_val b))))
 (orelse (char_if (in_range "0" "0") (fun _ =>
          char_if (in_range "1" "9") (fun b => k (digit_val b))))
 (orelse (char_if (in_range "1" "9") (fun b => k (digit_val b)))
         (char_if (in_range " " " ") (fun _ =>
          char_if (in_range "1" "9") (fun b => k (digit_val b))))))).

(** [%Y]: four digits *)
Definition re_Y (k : Z -> cont) : cont :=
  char_if is_digit (fun a => char_if is_digit (fun b =>
  char_if is_digit (fun c => char_if is_digit (fun d =>
    k (((digit_val a * 10 + digit_val b) * 10 + digit_val c) * 10 + digit_val d))))).

(** [%I]: [1[0-2]|0[1-9]|[1-9]] *)
Definition re_I (k : Z -> cont) : cont :=
  orelse (char_if (in_range "1" "1") (fun a =>
          char_if (in_range "0" "2") (fun b => k (10 * digit_val a + digit_val b))))
 (orelse (char_if (in_range "0" "0") (fun _ =>
          char_if (in_range "1" "9") (fun b => k (digit_val b))))
         (char_if (in_range "1" "9") (fun b => k (digit_val b)))).

(** [%M]: [[0-5]\d|\d] *)
Definition re_M (k : Z -> cont) : cont :=
  orelse (char_if (in_range "0" "5") (fun a =>
          char_if is_digit (fun b => k (10 * digit_val a + digit_val b))))
         (char_if is_digit (fun b => k (digit_val b))).
End Regex.

(** Names of the C locale, in the order of the compiled expression (longest
    first, otherwise in calendar order), with their numbers. *)
Definition weekday_names : list (string * Z) :=
  [("wednesday", 2); ("thursday", 3); ("saturday", 5); ("tuesday", 1);
   ("monday", 0); ("friday", 4); ("sunday", 6)].

Definition month_names : list (string * Z) :=
  [("september", 9); ("february", 2); ("november", 11); ("december", 12);
   ("january", 1); ("october", 10); ("august", 8); ("march", 3); ("april", 4);
   ("june", 6); ("july", 7); ("may", 5)].

Definition am_pm_names : list (string * Z) := [("am", 0); ("pm", 1)].

(** What the groups of a match hold. *)
Record fields := mk_fields {
  f_weekday : Z; f_day : Z; f_month : Z; f_year : Z;
  f_hour : Z; f_minute : Z; f_pm : Z
}.

(** The match of ["%A, %d %B %Y, %I:%M %p"]: the groups and the text left
    after the match. *)
Definition match_format : string -> option (fields * string) :=
  names weekday_names (fun wd =>
  word "," (spaces1 (
  re_d (fun d => spaces1 (
  names month_names (fun m => spaces1 (
  re_Y (fun y =>
  word "," (spaces1 (
  re_I (fun h =>
  word ":" (
  re_M (fun mi => spaces1 (
  names am_pm_names (fun pm =>
  fun rest => Some (mk_fields wd d m y h mi pm, rest)))))))))))))))).

(** [datetime.strptime(s, "%A, %d %B %Y, %I:%M %p")]; [None] stands for the
    [ValueError] of a string that does not match, of text left over, or of
    an impossible date. The weekday is matched and then ignored. *)
Definition strptime (s : string) : option datetime :=
  match match_format s with
  | Some (f, EmptyString) =>
      let h := if f_pm f =? 0
               then (if f_hour f =? 12 then 0 else f_hour f)
               else (if f_hour f =? 12 then 12 else f_hour f + 12) in
      make_date (f_year f) (f_month f) (f_day f) h (f_minute f)
  | _ => None
  end.

(** [AssignmentStorage.parse_due_date]. [dateparser] is the optional module:
    [None] when the import failed, otherwise its [parse] function. *)
Definition parse_due_date (dateparser : option (string -> option datetime))
    (due_date_raw : string) : option datetime :=
  if negb (PyStr.truthy due_date_raw) || String.eqb due_date_raw "No due date found"
  then None
  else
    let cleaned := PyStr.strip (PyStr.replace due_date_raw "Due:" EmptyString) in
    match (match dateparser with Some parse => parse cleaned | None => None end) with
    | Some parsed_date => Some parsed_date
    | None =>
        match strptime cleaned with
        | Some parsed_date => Some parsed_date
        | None =>
            match strptime cleaned with
            | Some parsed_date => Some parsed_date
            | None => None
            end
        end
    end.

End DateTime.

(** ** The [assignments] table and [AssignmentStorage] *)
Module Storage.
Import DateTime.

(** A row of the table created by [init_database]. Timestamps written by
    [CURRENT_TIMESTAMP] are instants in microseconds. *)
Record row := mk_row {
  id : Z;
  course_url : string;
  assignment_name : string;
  due_date_raw : string;
  due_date_parsed : option datetime;
  extracted_at : Z;
  notified : bool
}.

(** The table: its rows in insertion order and the last value given out by
    [AUTOINCREMENT]. *)
Record db := mk_db {
  rows : list row;
  last_id : Z
}.

(** [init_database] on a fresh file *)
Definition init_database : db := mk_db [] 0.

Definition key : Type := string * string.

Definition row_key (r : row) : key := (course_url r, assignment_name r).

Definition keys (d : db) : list key := map row_key (rows d).

(** [WHERE course_url = ? AND assignment_name = ?] *)
Definition matches (url name : string) (r : row) : bool :=
  String.eqb (course_url r) url && String.eqb (assignment_name r) name.

(** [SELECT id FROM assignments WHERE ...] followed by [fetchone()] *)
Definition select_id (d : db) (url name : string) : option Z :=
  id <$> head (filter (fun r => matches url name r) (rows d)).

(** [UPDATE assignments SET due_date_raw = ?, due_date_parsed = ?,
    extracted_at = CURRENT_TIMESTAMP WHERE ...] *)
Definition set_due (raw : string) (parsed : option datetime) (now : Z) (r : row) : row :=
  mk_row (id r) (course_url r) (assignment_name r) raw parsed now (notified r).

Definition update_due (d : db) (raw : string) (parsed : option datetime)
    (now : Z) (url name : string) : db :=
  mk_db (map (fun r => if matches url name r then set_due raw parsed now r else r) (rows d))
        (last_id d).

(** [INSERT INTO assignments (course_url, assignment_name, due_date_raw,
    due_date_parsed) VALUES (?, ?, ?, ?)]: the other columns take their
    defaults; [None] is the [IntegrityError] of the [UNIQUE] constraint. *)
Definition insert (d : db) (url name raw : string) (parsed : option datetime)
    (now : Z) : option db :=
  if existsb (matches url name) (rows d) then None
  else Some (mk_db (rows d ++ [mk_row (last_id d + 1) url name raw parsed now false])
                   (last_id d + 1)).

(** [UPDATE assignments SET notified = TRUE WHERE ...] *)
Definition set_notified (r : row) : row :=
  mk_row (id r) (course_url r) (assignment_name r) (due_date_raw r)
         (due_date_parsed r) (extracted_at r) true.

(** [mark_as_notified] *)
Definition mark_as_notified (d : db) (url name : string) : db :=
  mk_db (map (fun r => if matches url name r then set_notified r else r) (rows d))
        (last_id d).

(** The [stats] dict of [store_assignments]. *)
Record stats := mk_stats { new : Z; updated : Z; total : Z }.

(** [assignment.get('title', '').replace('Title: ', '')] *)
Definition title_of (a : gmap string string) : string :=
  PyStr.replace (default EmptyString (a !! "title")) "Title: " EmptyString.

(** The title as the specification words it: the literal prefix ["Title: "]
    taken off, once, when the title starts with it. It is compared with
    [title_of] below. *)
Definition title_without_prefix (t : string) : string :=
  if PyStr.startswith t "Title: "
  then String.substring 7 (String.length t - 7) t
  else t.

(** [assignment.get('due_date', 'No due date found')] *)
Definition due_date_of (a : gmap string string) : string :=
  default "No due date found" (a !! "due_date").

(** The body of the loop of [store_assignments] for one assignment; [now] is
    [CURRENT_TIMESTAMP] when its statement runs. *)
Definition store_one (dateparser : option (string -> option datetime))
    (url : string) (now : Z) (st : db * stats) (a : gmap string string)
    : option (db * stats) :=
  let '(d, s) := st in
  let title := title_of a in
  let raw := due_date_of a in
  let parsed := parse_due_date dateparser raw in
  match select_id d url title with
  | Some _ =>
      Some (update_due d raw parsed now url title,
            mk_stats (new s) (updated s + 1) (total s + 1))
  | None =>
      match insert d url title raw parsed now with
      | Some d' => Some (d', mk_stats (new s + 1) (updated s) (total s + 1))
      | None => None
      end
  end.

(** The loop; [clock i] is the time at which assignment number [i] is
    written. *)
Fixpoint store_loop (dateparser : option (string -> option datetime))
    (url : string) (clock : nat -> Z) (i : nat) (l : list (gmap string string))
    (st : db * stats) : option (db * stats) :=
  match l with
  | [] => Some st
  | a :: l' =>
      match store_one dateparser url (clock i) st a with
      | Some st' => store_loop dateparser url clock (S i) l' st'
      | None => None
      end
  end.

(** [store_assignments]; [None] when an exception leaves the function. *)
Definition store_assignments (dateparser : option (string -> option datetime))
    (clock : nat -> Z) (d : db) (url : string) (l : list (gmap string string))
    : option (db * stats) :=
  store_loop dateparser url clock 0 l (d, mk_stats 0 0 0).

(** The columns that no statement of [store_assignments] writes once a row
    exists. *)
Definition identity_and_flag (r : row) : Z * key * bool :=
  (id r, row_key r, notified r).

(** A dict of the list returned by [get_upcoming_deadlines]. *)
Record deadline := mk_deadline {
  dl_assignment_name : string;
  dl_due_date_parsed : option datetime;
  dl_due_date_raw : string;
  dl_course_url : string;
  dl_notified : bool
}.

Definition deadline_of (r : row) : deadline :=
  mk_deadline (assignment_name r) (due_date_parsed r) (due_date_raw r)
              (course_url r) (notified r).

(** *** The column [due_date_parsed] as SQLite sees it

    The [sqlite3] adapter stores a datetime as the text [isoformat(" ")]:
    the wall clock, [YYYY-MM-DD HH:MM:SS] with [.ffffff] when the
    microseconds are not zero, followed for an aware datetime by its offset,
    [+HH:MM] or [-HH:MM]. SQLite compares and sorts the column as text.
    The characters ['+'] and ['-'] sort before ['.'] and before the digits,
    and a text sorts after each of its prefixes, so two texts are ordered by
    their wall clocks and, at the same wall clock, by their suffixes: none
    first, then the offsets from [+00:00] upwards, then the negative ones by
    growing magnitude. *)
Definition offset_rank (t : datetime) : Z :=
  match utcoffset t with
  | None => -1
  | Some o => if 0 <=? o then o else us_per_day - o
  end.

Definition text_le (a b : datetime) : Prop :=
  to_us a < to_us b \/ (to_us a = to_us b /\ offset_rank a <= offset_rank b).

#[global] Instance text_le_dec a b : Decision (text_le a b).
Proof. unfold text_le. apply _. Defined.

(** [ORDER BY due_date_parsed ASC]: [NULL] before every text. *)
Definition column_le (o1 o2 : option datetime) : Prop :=
  match o1, o2 with
  | None, _ => True
  | Some _, None => False
  | Some a, Some b => text_le a b
  end.

#[global] Instance column_le_dec o1 o2 : Decision (column_le o1 o2).
Proof.
  destruct o1 as [a|], o2 as [b|]; simpl;
    [apply _ | right; exact (fun H => H) | left; exact I | left; exact I].
Defined.

(** [WHERE due_date_parsed IS NOT NULL AND due_date_parsed BETWEEN
    datetime('now') AND ?]: the bounds are the texts of [sql_now], which has
    whole seconds, and of the naive [future_date]. A text is at or after
    the lower bound when its wall clock is; it is at or before the upper
    bound when its wall clock is earlier, or the same with no offset after
    it. *)
Definition in_window (sql_now future_date : Z) (r : row) : bool :=
  match due_date_parsed r with
  | Some t =>
      (sql_now <=? to_us t)
      && (if aware t then to_us t <? future_date else to_us t <=? future_date)
  | None => false
  end.

Definition due_le (r1 r2 : row) : Prop :=
  column_le (due_date_parsed r1) (due_date_parsed r2).

#[global] Instance due_le_dec r1 r2 : Decision (due_le r1 r2) :=
  column_le_dec _ _.

(** The query of [get_upcoming_deadlines] and the dicts built from its
    rows; [datetime.fromisoformat] reads a stored text back as the datetime
    that was written, aware when the text ends in an offset. *)
Definition select_upcoming (d : db) (sql_now future_date : Z) : list deadline :=
  map deadline_of
      (merge_sort due_le
         (filter (fun r => in_window sql_now future_date r) (rows d))).

(** [get_upcoming_deadlines(days_ahead)] with its exception: [py_now] is
    [datetime.now()] and [sql_now] is SQLite's [datetime('now')], both read
    by this call; [None] is the [OverflowError] of
    [datetime.now() + timedelta(days=days_ahead)]. *)
Definition get_upcoming_deadlines_or_raise (d : db) (py_now sql_now : Z)
    (days_ahead : Z) : option (list deadline) :=
  match add_days py_now days_ahead with
  | Some future_date => Some (select_upcoming d sql_now future_date)
  | None => None
  end.

(** The list that [get_upcoming_deadlines(days_ahead)] hands to its caller:
    none when the call raises. *)
Definition get_upcoming_deadlines (d : db) (py_now sql_now : Z) (days_ahead : Z)
    : list deadline :=
  default [] (get_upcoming_deadlines_or_raise d py_now sql_now days_ahead).

End Storage.

(** ** The deadline scan *)
Module Notifier.
Import DateTime Storage.

(** [advance_days] of the default configuration of [load_config]. *)
Definition default_advance_days : list Z := [7; 3; 1].

(** A call of [notify_assignment_deadline(assignment, days_until)]. *)
Record dispatch := mk_dispatch {
  sent_for : deadline;
  sent_days_until : Z
}.

(** Truth value of [assignment['due_date_parsed']]: a datetime is true,
    [None] is false. *)
Definition has_due (a : deadline) : bool :=
  match dl_due_date_parsed a with Some _ => true | None => false end.

(** [days_until in notification_days or days_until <= 1] *)
Definition due_for_reminder (advance_days : list Z) (days_until : Z) : bool :=
  existsb (Z.eqb days_until) advance_days || (days_until <=? 1).

(** [(assignment['due_date_parsed'] - datetime.now()).days]: the
    subtraction of the naive [datetime.now()] from an aware datetime, or
    from [None], raises [TypeError] (here [None]). *)
Definition days_until (a : deadline) (now : Z) : option Z :=
  match dl_due_date_parsed a with
  | Some t => if aware t then None else Some (delta_days (to_us t) now)
  | None => None
  end.

(** How a call ends. *)
Inductive ending := Returned | Raised.

(** The loop of [check_and_notify_deadlines] over the list read before it
    starts; [clock i] is [datetime.now()] in iteration [i]. The table is
    written, the list is not. Each [mark_as_notified] commits, so an
    exception leaves the marks, and the reminders, made before it. *)
Fixpoint notify_loop (advance_days : list Z) (clock : nat -> Z) (i : nat)
    (upcoming : list deadline) (d : db) : db * list dispatch * ending :=
  match upcoming with
  | [] => (d, [], Returned)
  | a :: rest =>
      if has_due a && negb (dl_notified a)
      then
        match days_until a (clock i) with
        | None => (d, [], Raised)
        | Some n =>
            if due_for_reminder advance_days n
            then
              let '(d', sent, e) :=
                notify_loop advance_days clock (S i) rest
                  (mark_as_notified d (dl_course_url a) (dl_assignment_name a)) in
              (d', mk_dispatch a n :: sent, e)
            else notify_loop advance_days clock (S i) rest d
        end
      else notify_loop advance_days clock (S i) rest d
  end.

(** [check_and_notify_deadlines] with its exceptions: the table it leaves,
    the reminders it sends and how it ends. *)
Definition check_and_notify_deadlines_or_raise (advance_days : list Z)
    (py_now sql_now : Z) (clock : nat -> Z) (d : db)
    : db * list dispatch * ending :=
  match get_upcoming_deadlines_or_raise d py_now sql_now 30 with
  | Some upcoming => notify_loop advance_days clock 0 upcoming d
  | None => (d, [], Raised)
  end.

(** What [check_and_notify_deadlines] leaves behind, whether it returns or
    raises: the table and the reminders sent. *)
Definition check_and_notify_deadlines (advance_days : list Z)
    (py_now sql_now : Z) (clock : nat -> Z) (d : db) : db * list dispatch :=
  fst (check_and_notify_deadlines_or_raise advance_days py_now sql_now clock d).

(** The dicts at which the loop raises: not yet notified, with an aware due
    date. *)
Definition raises_at (a : deadline) : bool :=
  negb (dl_notified a)
  && match dl_due_date_parsed a with Some t => aware t | None => false end.

(** The key of a dict of the list, and what the marks of a list of
    dispatches do to one row: both serve to state what the loop leaves in
    the table. *)
Definition dl_key (a : deadline) : key := (dl_course_url a, dl_assignment_name a).

Definition marked_by (sent : list dispatch) (r : row) : bool :=
  existsb (fun ev => matches (dl_course_url (sent_for ev))
                             (dl_assignment_name (sent_for ev)) r) sent.

Definition mark_all (sent : list dispatch) (r : row) : row :=
  if marked_by sent r then set_notified r else r.

End Notifier.

(** ** Runs of the agent *)
Module Agent.
Import DateTime Storage Notifier.

(** The states of the table that the program can reach: it starts empty and
    is written by [store_assignments], [mark_as_notified] and the scan. *)
Inductive reachable : db -> Prop :=
  | reach_init : reachable init_database
  | reach_store dp clock url l d d' s :
      reachable d ->
      store_assignments dp clock d url l = Some (d', s) ->
      reachable d'
  | reach_mark d url name :
      reachable d -> reachable (mark_as_notified d url name)
  | reach_scan advance_days py_now sql_now clock d :
      reachable d ->
      reachable (fst (check_and_notify_deadlines advance_days py_now sql_now clock d)).

End Agent.

(** ** Concrete data used to exercise the statements *)
Module Samples.
Import DateTime Storage Notifier.

Definition course : string := "https://lms.example.edu/course/42".

Definition essay_due_text : string := "Due: Tuesday, 19 August 2025, 12:00 AM".

Definition essay_due : datetime := mk_datetime 2025 8 19 0 0 0 0.

(** The row of "Essay 1", written at instant 0. *)
Definition essay_row : row :=
  mk_row 1 course "Essay 1" essay_due_text (Some essay_due) 0 false.

Definition essay_db : db := mk_db [essay_row] 1.

(** The scraped dict that re-extracts "Essay 1". *)
Definition essay : gmap string string :=
  Scraper.mk_assignment "Title: Essay 1" essay_due_text.

(** A title with the label inside it. *)
Definition draft : gmap string string :=
  Scraper.mk_assignment "Essay Title: Draft" "No due date found".

(** Two texts of a page, as the fallback loop reads them. *)
Definition essay_title : string := "Assignment: Essay 1".

Definition essay_due_line : string := "Due: Friday, 1 September 2025, 11:59 PM".

(** Instants of the clock: minute [mi] of hour [hh] of a day of August 2025. *)
Definition august (dd hh mi : Z) : Z := to_us (mk_datetime 2025 8 dd hh mi 0 0).

End Samples.

(** ** Listing the table: [get_all_assignments] and [show_summary] *)
Module Listing.
Import DateTime Storage.

(** A dict of the list returned by [get_all_assignments]. *)
Record stored := mk_stored {
  st_assignment_name : string;
  st_due_date_parsed : option datetime;
  st_due_date_raw : string;
  st_course_url : string;
  st_extracted_at : Z;
  st_notified : bool
}.

Definition stored_of (r : row) : stored :=
  mk_stored (assignment_name r) (due_date_parsed r) (due_date_raw r)
            (course_url r) (extracted_at r) (notified r).

(** The order of two due dates of the listing: no date first, then by the
    wall clock. *)
Definition null_first_le (o1 o2 : option datetime) : Prop :=
  match o1, o2 with
  | None, _ => True
  | Some _, None => False
  | Some a, Some b => to_us a <= to_us b
  end.

(** [ORDER BY due_date_parsed ASC] over all the rows. *)
Definition row_le (r1 r2 : row) : Prop :=
  column_le (due_date_parsed r1) (due_date_parsed r2).

#[global] Instance row_le_dec r1 r2 : Decision (row_le r1 r2) :=
  column_le_dec _ _.

(** [get_all_assignments] *)
Definition get_all_assignments (d : db) : list stored :=
  map stored_of (merge_sort row_le (rows d)).

(** Truth value of [a['due_date_parsed']] *)
Definition has_date (a : stored) : bool :=
  match st_due_date_parsed a with Some _ => true | None => false end.

(** What [show_summary] prints: the two counts and, for the first five
    dicts that have a due date, the name and the raw due date. *)
Record summary := mk_summary {
  total_tracked : nat;
  with_due_dates : nat;
  shown : list stored
}.

Definition show_summary (d : db) : summary :=
  let all_assignments := get_all_assignments d in
  let upcoming := filter (fun a => has_date a) all_assignments in
  mk_summary (length all_assignments) (length upcoming) (take 5 upcoming).

End Listing.

(** ** The writes of the program as steps *)
Module History.
Import DateTime Storage Notifier.

(** One write of the table by the program. *)
Inductive step : db -> db -> Prop :=
  | step_store dp clock url l d d' s :
      store_assignments dp clock d url l = Some (d', s) -> step d d'
  | step_mark d url name :
      step d (mark_as_notified d url name)
  | step_scan advance_days py_now sql_now clock d :
      step d (fst (check_and_notify_deadlines advance_days py_now sql_now clock d)).

(** The table [d'] holds the rows of [d], at their places, with their id,
    key and flag, the rows of other courses as they were; the rows after
    them are unnotified rows of [url] with ids given out after those of
    [d]. It states what a call of [store_assignments] for [url] leaves. *)
Definition grows_for (url : string) (d d' : db) : Prop :=
  (forall i r, rows d !! i = Some r ->
     exists r', rows d' !! i = Some r' /\
       identity_and_flag r' = identity_and_flag r /\
       (course_url r <> url -> r' = r)) /\
  (forall i r', rows d' !! i = Some r' -> (length (rows d) <= i)%nat ->
     course_url r' = url /\ notified r' = false /\
     last_id d < id r' <= last_id d') /\
  last_id d <= last_id d' /\
  (length (rows d) <= length (rows d'))%nat.

(** Every row of key [k] holds the due date [raw], parsed as [parsed], and
    was written at [now]. *)
Definition key_holds (d : db) (k : key) (raw : string) (parsed : option datetime)
    (now : Z) : Prop :=
  k ∈ keys d /\
  forall r, r ∈ rows d -> row_key r = k ->
    due_date_raw r = raw /\ due_date_parsed r = parsed /\ extracted_at r = now.

(** The key [k] is stored and all its rows are notified. *)
Definition key_notified (d : db) (k : key) : Prop :=
  k ∈ keys d /\ forall r, r ∈ rows d -> row_key r = k -> notified r = true.

(** The ids are 1, 2, ... in the order of the rows. *)
Definition ids_in_sequence (d : db) : Prop :=
  last_id d = Z.of_nat (length (rows d)) /\
  forall i r, rows d !! i = Some r -> id r = Z.of_nat i + 1.

End History.

(** ** [AssignmentClassifier] *)
Module Classifier.

Definition assignment_indicators : list string :=
  ["assignment"; "homework"; "project"; "essay"; "lab";
   "programming"; "coding"; "research"; "report"; "analysis"].

Definition non_assignment_indicators : list string :=
  ["syllabus"; "lecture"; "quiz"; "exam"; "announcement";
   "discussion"; "forum"; "schedule"; "calendar"; "policy";
   "introduction"; "overview"; "welcome"; "resources"].

(** [sum(1 for indicator in indicators if indicator in text_lower)] *)
Fixpoint count_matches (indicators : list string) (text_lower : string) : Z :=
  match indicators with
  | [] => 0
  | indicator :: rest =>
      (if PyStr.contains indicator text_lower then 1 else 0)
      + count_matches rest text_lower
  end.

(** The dict returned by [classify_text]. The confidence is the quotient
    [confidence_num / confidence_den], which Python rounds to a float. *)
Record classification := mk_classification {
  is_assignment : bool;
  confidence_num : Z;
  confidence_den : Z;
  method : string
}.

(** [classify_text] *)
Definition classify_text (text : string) : classification :=
  let text_lower := PyStr.lower text in
  let assignment_score := count_matches assignment_indicators text_lower in
  let non_assignment_score := count_matches non_assignment_indicators text_lower in
  mk_classification
    (non_assignment_score <? assignment_score)
    (Z.max assignment_score non_assignment_score)
    (assignment_score + non_assignment_score + 1)
    "heuristic".

End Classifier.

(** ** "Method 1" of [scrape_assignments]: the walk up the ancestors *)
Module Walk.
Import Scraper.

(** What the loop reads of an element found by the XPath query: its text
    ([None] when the read raises), and the texts read on the way up, the
    element's own first; [None] is a read that raises, and the list ends
    where there is no parent. *)
Record element := mk_element {
  el_text : option string;
  el_levels : list (option string)
}.

(** [s.split('\n')] *)
Fixpoint split_lines (s : string) : list string :=
  match s with
  | EmptyString => [EmptyString]
  | String c s' =>
      if Ascii.eqb c "010"%char then EmptyString :: split_lines s'
      else match split_lines s' with
           | line :: rest => String c line :: rest
           | [] => [String c EmptyString]
           end
  end.

Definition skip_words : list string := ["skip"; "click"; "open"; "view"; "navigate"].

Definition navigation_prefixes : list string :=
  ["Click"; "View"; "Open"; "Navigate"; "Skip"].

(** [title] and [due_date] of the walk. *)
Definition walk_state : Type := option string * string.

(** The body of the loop over the lines of one ancestor's text. *)
Definition line_step (st : walk_state) (raw_line : string) : walk_state :=
  let line := PyStr.strip raw_line in
  if PyStr.contains "Assignment" line && negb (mentions_date_label line)
  then
    if (5 <? Z.of_nat (String.length line))
       && negb (existsb (PyStr.startswith line) navigation_prefixes)
    then (Some line, snd st)
    else st
  else if PyStr.startswith line "Due:" then (fst st, line)
  else st.

(** The loop [for level in range(5)], on the texts that are left to read. *)
Fixpoint walk_levels (levels : list (option string)) (st : walk_state) : walk_state :=
  match levels with
  | [] => st
  | None :: _ => st
  | Some text :: rest =>
      let parent_text := PyStr.strip text in
      if PyStr.truthy parent_text && PyStr.contains "Due:" parent_text
      then
        let st' := foldl line_step st (split_lines parent_text) in
        if opt_truthy (fst st') then st' else walk_levels rest st'
      else walk_levels rest st
  end.

Definition walk (e : element) : walk_state :=
  walk_levels (take 5 (el_levels e)) (None, "No due date found").

(** The first test of the loop body: the element is passed over. *)
Definition passed_over (element_text : string) : bool :=
  negb (PyStr.truthy element_text)
  || (Z.of_nat (String.length element_text) <? 5)
  || existsb (fun skip_word => PyStr.contains skip_word (PyStr.lower element_text))
             skip_words.

(** The body of the loop over [assignment_elements]; the state is
    [assignments_found] and [assignments]. *)
Definition method1_step (st : gset string * list assignment) (e : element)
    : gset string * list assignment :=
  match el_text e with
  | None => st
  | Some raw =>
      let element_text := PyStr.strip raw in
      if passed_over element_text then st
      else
        let '(title, due_date) := walk e in
        if opt_truthy title
           && negb (is_duplicate_title (default EmptyString title) (fst st))
        then ({[default EmptyString title]} ∪ fst st,
              snd st ++ [mk_assignment (default EmptyString title) due_date])
        else st
  end.

Definition method1 (elements : list element) : gset string * list assignment :=
  foldl method1_step (∅, []) elements.

(** The two methods in a row: what [scrape_assignments] returns for the
    elements of the XPath query and the texts of all the elements. *)
Definition scrape (elements : list element) (texts : list string) : list assignment :=
  let '(found, acc) := method1 elements in
  snd (fallback_method found acc texts).

(** The titles of a list of scraped assignments. *)
Definition titles (l : list assignment) : list string :=
  omap (fun a : assignment => a !! "title") l.

(** No title of the list is a duplicate of an earlier one. *)
Definition distinct_titles (ts : list string) : Prop :=
  forall i j ti tj, (i < j)%nat -> ts !! i = Some ti -> ts !! j = Some tj ->
    duplicates (normalize_title tj) (normalize_title ti) = false.

(** The set of found titles and the list of assignments agree, and the
    titles are distinct. *)
Definition tidy (found : gset string) (acc : list assignment) : Prop :=
  found = list_to_set (titles acc) /\
  length (titles acc) = length acc /\
  distinct_titles (titles acc).

(** What "Method 2" asks of a title and of a due date. *)
Definition fallback_title (t : string) : Prop :=
  PyStr.contains "Assignment" t = true /\
  (String.length t < 100)%nat /\
  mentions_date_label t = false.

(** What "Method 1" asks of a title and of a due date. *)
Definition walk_title (t : string) : Prop :=
  PyStr.contains "Assignment" t = true /\
  mentions_date_label t = false /\
  (5 < String.length t)%nat /\
  existsb (PyStr.startswith t) navigation_prefixes = false.

Definition walk_due (due : string) : Prop :=
  due = "No due date found" \/ PyStr.startswith due "Due:" = true.

(** An assignment of "Method 2": a title and a due date, each the stripped
    text of an element. *)
Definition from_fallback (texts : list string) (a : assignment) : Prop :=
  exists t due,
    a = mk_assignment t due /\ fallback_title t /\
    PyStr.startswith due "Due:" = true /\
    (exists e, e ∈ texts /\ t = PyStr.strip e) /\
    (exists e, e ∈ texts /\ due = PyStr.strip e).

(** What the walk holds at any time: a title that passed the tests, or
    none, and a due date that is the default or a "Due:" line. *)
Definition walk_ok (st : walk_state) : Prop :=
  (forall t, fst st = Some t -> walk_title t) /\ walk_due (snd st).

(** An assignment of "Method 1". *)
Definition from_walk (a : assignment) : Prop :=
  exists t due, a = mk_assignment t due /\ walk_title t /\ walk_due due.

End Walk.

(** ** [process_assignments] *)
Module Pipeline.
Import DateTime Storage Notifier Classifier Scraper.

(** The loop that classifies: [None] is the [KeyError] of a dict without
    ['title']. *)
Fixpoint classify_all (l : list assignment) : option (list assignment) :=
  match l with
  | [] => Some []
  | a :: rest =>
      match a !! "title" with
      | None => None
      | Some title =>
          match classify_all rest with
          | None => None
          | Some kept =>
              Some (if is_assignment (classify_text title) then a :: kept else kept)
          end
      end
  end.

(** What a run leaves: the table, the list returned, [None] when an
    exception leaves the function instead, the statistics of the store when
    it ran, and the reminders sent. *)
Record outcome := mk_outcome {
  table : db;
  returned : option (list assignment);
  storage_stats : option stats;
  reminders : list dispatch
}.

(** [process_assignments]. The store commits before the scan starts, and
    the scan commits each mark, so an exception of the scan leaves what was
    written before it. *)
Definition process_assignments (dateparser : option (string -> option datetime))
    (store_clock : nat -> Z) (advance_days : list Z) (py_now sql_now : Z)
    (scan_clock : nat -> Z) (d : db) (url : string) (l : list assignment)
    : outcome :=
  match classify_all l with
  | None => mk_outcome d None None []
  | Some [] => mk_outcome d (Some []) None []
  | Some classified =>
      match store_assignments dateparser store_clock d url classified with
      | None => mk_outcome d None None []
      | Some (d1, s) =>
          let '(d2, sent, e) :=
            check_and_notify_deadlines_or_raise
              advance_days py_now sql_now scan_clock d1 in
          mk_outcome d2
            (match e with Returned => Some classified | Raised => None end)
            (Some s) sent
      end
  end.

(** Whether the title of a dict classifies as an assignment. *)
Definition kept (a : assignment) : bool :=
  match a !! "title" with
  | Some title => is_assignment (classify_text title)
  | None => false
  end.

End Pipeline.

(** ** [is_valid_url] *)
Module Url.
Import DateTime.

(** A literal word of a regular expression, compared with case. *)
Fixpoint lit {R : Type} (w : string) (k : string -> option R) : string -> option R :=
  match w with
  | EmptyString => k
  | String a w' => char_if (Ascii.eqb a) (fun _ => lit w' k)
  end.

(** [re.match(r'https?://', url)]: the optional [s] is tried first. *)
Definition match_scheme : string -> option string :=
  lit "http" (orelse (lit "s" (lit "://" Some)) (lit "://" Some)).

(** [is_valid_url] *)
Definition is_valid_url (url : string) : bool :=
  match match_scheme url with Some _ => true | None => false end.

End Url.

(** ** [try_fill] *)
Module Login.

(** A form field as [try_fill] meets it: a name to tell it from the others,
    and whether its [clear()] and its [send_keys()] raise. *)
Record field := mk_field {
  field_name : string;
  clear_raises : bool;
  send_keys_raises : bool
}.

(** The calls that [try_fill] makes on the fields. *)
Inductive call : Type :=
  | Clear (f : field)
  | SendKeys (f : field).

(** The loop over the elements of one selector: whether it returned [True],
    and the calls it made. *)
Fixpoint fill_first (elems : list field) : bool * list call :=
  match elems with
  | [] => (false, [])
  | e :: rest =>
      if clear_raises e
      then let '(done, calls) := fill_first rest in (done, Clear e :: calls)
      else if send_keys_raises e
      then let '(done, calls) := fill_first rest in
           (done, Clear e :: SendKeys e :: calls)
      else (true, [Clear e; SendKeys e])
  end.

(** [try_fill(driver, selectors, value)]: [driver sel] is what
    [find_elements] gives for the selector, [None] when it raises. *)
Fixpoint try_fill (driver : string -> option (list field)) (selectors : list string)
    : bool * list call :=
  match selectors with
  | [] => (false, [])
  | sel :: rest =>
      match driver sel with
      | None => try_fill driver rest
      | Some elems =>
          let '(done, calls) := fill_first elems in
          if done then (true, calls)
          else let '(done', calls') := try_fill driver rest in
               (done', calls ++ calls')
      end
  end.

(** The field takes the value. *)
Definition accepts (f : field) : bool :=
  negb (clear_raises f) && negb (send_keys_raises f).

(** The fields of the selectors, in the order in which the loops meet
    them. *)
Definition candidates (driver : string -> option (list field))
    (selectors : list string) : list field :=
  concat (map (fun sel => default [] (driver sel)) selectors).

(** The fields whose [send_keys] was called and returned. *)
Definition typed_into (calls : list call) : list field :=
  omap (fun c => match c with
                 | SendKeys f => if send_keys_raises f then None else Some f
                 | Clear _ => None
                 end) calls.

End Login.

(** ** More concrete data *)
Module MoreSamples.
Import DateTime Storage Notifier Samples.

Definition lab_due : datetime := mk_datetime 2025 8 20 0 0 0 0.

(** The row of "Lab Assignment 2", due a day after "Essay 1". *)
Definition lab_row : row :=
  mk_row 2 course "Lab Assignment 2" "Due: Wednesday, 20 August 2025, 12:00 AM"
         (Some lab_due) 0 false.

Definition two_db : db := mk_db [essay_row; lab_row] 2.

(** The scan of 15 August at noon, with the default thresholds. *)
Definition first_scan : db * list dispatch :=
  check_and_notify_deadlines default_advance_days
    (august 15 12 0) (august 15 12 0) (fun _ => august 15 12 0) two_db.

(** The scan of the next day at noon, on what the first one left. *)
Definition second_scan : db * list dispatch :=
  check_and_notify_deadlines default_advance_days
    (august 16 12 0) (august 16 12 0) (fun _ => august 16 12 0) (fst first_scan).

(** What [dateparser.parse] gives for a text that names a time zone: an
    aware datetime, here midnight of 19 August 2025 five hours west of UTC.
    The other texts are left to [strptime]. *)
Definition report_due : datetime :=
  mk_aware_datetime 2025 8 19 0 0 0 0 (Some (-5 * 3600 * 1000000)).

Definition zone_parser (s : string) : option datetime :=
  if String.eqb s "Tuesday, 19 August 2025, 12:00 AM EST"
  then Some report_due
  else None.

(** Two scraped dicts, and the table that storing them on an empty table at
    instant 0 gives, with [zone_parser] for [dateparser]. *)
Definition report : gmap string string :=
  Scraper.mk_assignment "Report 1" "Due: Tuesday, 19 August 2025, 12:00 AM EST".

Definition lab : gmap string string :=
  Scraper.mk_assignment "Lab Assignment 2" "Due: Wednesday, 20 August 2025, 12:00 AM".

Definition report_row : row :=
  mk_row 1 course "Report 1" "Due: Tuesday, 19 August 2025, 12:00 AM EST"
         (Some report_due) 0 false.

Definition zoned_db : db := mk_db [report_row; lab_row] 2.

Definition newline : string := String "010"%char EmptyString.

(** An assignment card of a page: the title, the opening date and the due
    date on three lines. The title is the text of the element that the
    query finds, the card is the text of its parent. *)
Definition card_text : string :=
  "Assignment 1: Essay" +:+ newline
  +:+ "Opened: Monday, 11 August 2025, 12:00 AM" +:+ newline
  +:+ "Due: Tuesday, 19 August 2025, 12:00 AM".

Definition card : Walk.element :=
  Walk.mk_element (Some "Assignment 1: Essay")
                  [Some "Assignment 1: Essay"; Some card_text].

(** An element with no due date around it. *)
Definition bare : Walk.element :=
  Walk.mk_element (Some "Assignment 5: Reading")
                  [Some "Assignment 5: Reading"; Some "Week 3"].

(** The card as "Method 1" scrapes it. *)
Definition card_assignment : gmap string string :=
  Scraper.mk_assignment "Assignment 1: Essay" "Due: Tuesday, 19 August 2025, 12:00 AM".

End MoreSamples.

(** * The embedding on concrete inputs *)
Section Evaluation.
Import DateTime.

Example replace_takes_every_occurrence :
  PyStr.replace "Title: A Title: B" "Title: " EmptyString = "A B".
Proof. reflexivity. Qed.

Example replace_does_not_overlap : PyStr.replace "aaa" "aa" EmptyString = "a".
Proof. reflexivity. Qed.

Example strip_trims_both_ends :
  PyStr.strip (String "009" "  Due: x  ") = "Due: x".
Proof. reflexivity. Qed.

Example normalize_title_example :
  Scraper.normalize_title "  Programming   ASSIGNMENT 3 " = "programming assignment 3".
Proof. reflexivity. Qed.

Example strptime_evening :
  strptime "Saturday, 30 August 2025, 11:59 PM" = Some (mk_datetime 2025 8 30 23 59 0 0).
Proof. vm_compute. reflexivity. Qed.

(** The match is case-insensitive and takes any whitespace for a space. *)
Example strptime_ignores_case :
  strptime "tuesday,  9 AUGUST   2025, 1:05 pm" = Some (mk_datetime 2025 8 9 13 5 0 0).
Proof. vm_compute. reflexivity. Qed.

(** The weekday is not checked against the date: 19 August 2025 is a
    Tuesday. *)
Example strptime_wrong_weekday :
  strptime "Monday, 19 August 2025, 12:00 AM" = Some (mk_datetime 2025 8 19 0 0 0 0).
Proof. vm_compute. reflexivity. Qed.

Example strptime_impossible_date :
  strptime "Sunday, 30 February 2025, 11:59 PM" = None.
Proof. vm_compute. reflexivity. Qed.

Example strptime_text_left_over :
  strptime "Tuesday, 19 August 2025, 12:00 AM IST" = None.
Proof. vm_compute. reflexivity. Qed.

Example strptime_hour_out_of_range :
  strptime "Tuesday, 19 August 2025, 13:00 PM" = None.
Proof. vm_compute. reflexivity. Qed.

(** 19 August 2025 is day 739482 of the calendar, a Tuesday (Monday is 0). *)
Example toordinal_essay_due :
  toordinal (mk_datetime 2025 8 19 0 0 0 0) = 739482
  /\ (739482 + 6) mod 7 = 1.
Proof. split; reflexivity. Qed.

(** The days of a negative difference round down, as a [timedelta] does. *)
Example delta_days_rounds_down :
  delta_days (Samples.august 19 0 0) (Samples.august 19 0 1) = -1
  /\ delta_days (Samples.august 19 0 0) (Samples.august 18 0 1) = 0.
Proof. split; vm_compute; reflexivity. Qed.

(** [datetime.min] and [datetime.max] *)
Example datetime_range :
  to_us (mk_datetime 1 1 1 0 0 0 0) = min_us
  /\ to_us (mk_datetime 9999 12 31 23 59 59 999999) = max_us.
Proof. split; vm_compute; reflexivity. Qed.

(** Thirty days from 16 August 2025 is a date; three million days are not,
    in either direction. *)
Example add_days_examples :
  add_days (Samples.august 16 12 0) 30
    = Some (to_us (mk_datetime 2025 9 15 12 0 0 0))
  /\ add_days (Samples.august 16 12 0) 3000000 = None
  /\ add_days (Samples.august 16 12 0) (-3000000) = None.
Proof. split; [|split]; vm_compute; reflexivity. Qed.

(** The stored texts [2025-08-19 00:00:00], [2025-08-19 00:00:00+05:30],
    [2025-08-19 00:00:00-05:00] and [2025-08-19 00:00:00.000001] are in
    ascending order. *)
Example text_le_examples :
  Storage.text_le (mk_datetime 2025 8 19 0 0 0 0)
                  (mk_aware_datetime 2025 8 19 0 0 0 0 (Some 19800000000))
  /\ Storage.text_le (mk_aware_datetime 2025 8 19 0 0 0 0 (Some 19800000000))
                     (mk_aware_datetime 2025 8 19 0 0 0 0 (Some (-18000000000)))
  /\ Storage.text_le (mk_aware_datetime 2025 8 19 0 0 0 0 (Some (-18000000000)))
                     (mk_datetime 2025 8 19 0 0 0 1)
  /\ ~ Storage.text_le (mk_aware_datetime 2025 8 19 0 0 0 0 (Some 19800000000))
                       (mk_datetime 2025 8 19 0 0 0 0).
Proof.
  unfold Storage.text_le. split; [|split; [|split]]; vm_compute.
  - right. split; [reflexivity | discriminate].
  - right. split; [reflexivity | discriminate].
  - left. reflexivity.
  - intros [H|[_ H]]; [discriminate H | apply H; reflexivity].
Qed.

Example split_lines_keeps_last_empty_line :
  Walk.split_lines ("a" +:+ MoreSamples.newline +:+ "b" +:+ MoreSamples.newline)
  = ["a"; "b"; EmptyString].
Proof. reflexivity. Qed.

(** The walk from the title of the card: nothing at the element itself,
    the title and the "Due:" line one level up. *)
Example walk_card :
  Walk.walk MoreSamples.card
  = (Some "Assignment 1: Essay", "Due: Tuesday, 19 August 2025, 12:00 AM").
Proof. vm_compute. reflexivity. Qed.

Example scrape_card :
  Walk.scrape [MoreSamples.card; MoreSamples.card; MoreSamples.bare] []
  = [MoreSamples.card_assignment].
Proof. vm_compute. reflexivity. Qed.

Example classify_programming_assignment :
  Classifier.classify_text "Programming Assignment 3"
  = Classifier.mk_classification true 2 3 "heuristic".
Proof. reflexivity. Qed.

(** "lab" is found in "syllabus": one point against two. *)
Example classify_syllabus_and_policy :
  Classifier.classify_text "Course Syllabus and Policy"
  = Classifier.mk_classification false 2 4 "heuristic".
Proof. reflexivity. Qed.

Example is_valid_url_examples :
  map Url.is_valid_url ["http://x"; "https://"; "HTTP://x"; "ftp://x"; "httpss://x"]
  = [true; true; false; false; false].
Proof. reflexivity. Qed.

End Evaluation.

(** * Properties of the string operations *)
Section PyStrFacts.
Import PyStr.

Lemma prefix_app (s t : string) : String.prefix s (s +:+ t) = true.
Proof.
  induction s as [|a s IH]; simpl; [destruct t; reflexivity|].
  destruct (ascii_dec a a); [exact IH | contradiction].
Qed.

Lemma replace_from_skip old new (u t : string) :
  replace_from old new (String.length u) (u +:+ t) = replace_from old new 0 t.
Proof.
  induction u as [|c u IH]; simpl; [destruct t; reflexivity | exact IH].
Qed.

Lemma replace_from_absent old new (s : string) :
  contains old s = false -> replace_from old new 0 s = s.
Proof.
  induction s as [|c s IH]; [reflexivity|].
  cbn [contains replace_from]. intros H.
  apply orb_false_iff in H as [-> H]. rewrite IH by exact H. reflexivity.
Qed.

(** Where the only occurrence of [old] is at the start, [replace] takes off
    that prefix; where there is none, it does nothing. *)
Lemma replace_only_prefix (old t : string) :
  old <> EmptyString -> contains old t = false ->
  replace (old +:+ t) old EmptyString = t /\ replace t old EmptyString = t.
Proof.
  intros Hne Habs. destruct old as [|a old]; [contradiction|].
  unfold replace. split; [|apply replace_from_absent; exact Habs].
  change (String a old +:+ t) with (String a (old +:+ t)).
  cbn [replace_from].
  change (String a (old +:+ t)) with (String a old +:+ t).
  rewrite prefix_app.
  replace (String.length (String a old) - 1)%nat with (String.length old)
    by (simpl; lia).
  rewrite replace_from_skip. simpl. apply replace_from_absent. exact Habs.
Qed.

Lemma substring_all (s : string) : String.substring 0 (String.length s) s = s.
Proof. induction s as [|c s IH]; simpl; [reflexivity | rewrite IH; reflexivity]. Qed.

Lemma prefix_contains (p s : string) :
  String.prefix p s = true -> contains p s = true.
Proof. intros H. destruct s; cbn [contains]; rewrite H; reflexivity. Qed.

(** Lowercasing keeps whitespace apart from the rest. *)
Lemma isspace_lower_char (c : ascii) : isspace (lower_char c) = isspace c.
Proof. destruct c as [[] [] [] [] [] [] [] []]; reflexivity. Qed.

Lemma lower_collapse_from (b : bool) (s : string) :
  lower (collapse_from b s) = collapse_from b (lower s).
Proof.
  revert b. induction s as [|c s IH]; intros b; [reflexivity|].
  cbn [lower collapse_from]. rewrite isspace_lower_char.
  destruct (isspace c); [destruct b|]; cbn [lower]; rewrite IH; reflexivity.
Qed.

Lemma lower_lstrip (s : string) : lower (lstrip s) = lstrip (lower s).
Proof.
  induction s as [|c s IH]; [reflexivity|].
  cbn [lower lstrip]. rewrite isspace_lower_char.
  destruct (isspace c); [exact IH | reflexivity].
Qed.

Lemma lower_rstrip (s : string) : lower (rstrip s) = rstrip (lower s).
Proof.
  induction s as [|c s IH]; [reflexivity|].
  cbn [lower rstrip]. rewrite <- IH, isspace_lower_char.
  destruct (rstrip s); [destruct (isspace c)|]; reflexivity.
Qed.

Lemma rstrip_empty (s : string) : rstrip s = EmptyString <-> all_space s = true.
Proof.
  induction s as [|c s IH]; [split; reflexivity|].
  cbn [rstrip all_space]. rewrite andb_true_iff, <- IH.
  destruct (rstrip s); [destruct (isspace c)|]; split; intros H;
    try discriminate; try (destruct H; discriminate); auto.
Qed.

Lemma rstrip_cons_nonspace (c : ascii) (s : string) :
  isspace c = false -> rstrip (String c s) = String c (rstrip s).
Proof. intros H. cbn [rstrip]. rewrite H. destruct (rstrip s); reflexivity. Qed.

Lemma rstrip_cons_space (c : ascii) (s : string) :
  isspace c = true ->
  rstrip (String c s) = if all_space s then EmptyString else String c (rstrip s).
Proof.
  intros H. cbn [rstrip]. rewrite H.
  destruct (all_space s) eqn:E.
  - apply rstrip_empty in E. rewrite E. reflexivity.
  - destruct (rstrip s) eqn:R; [|reflexivity].
    apply rstrip_empty in R. congruence.
Qed.

Lemma all_space_collapse_from (b : bool) (s : string) :
  all_space (collapse_from b s) = all_space s.
Proof.
  revert b. induction s as [|c s IH]; intros b; [reflexivity|].
  cbn [collapse_from all_space].
  destruct (isspace c) eqn:E; [destruct b|]; cbn [all_space andb];
    rewrite ?E, ?IH; reflexivity.
Qed.

Lemma lstrip_collapse_from (b : bool) (s : string) :
  lstrip (collapse_from b s) = collapse_from false (lstrip s).
Proof.
  revert b. induction s as [|c s IH]; intros b; [reflexivity|].
  cbn [collapse_from lstrip].
  destruct (isspace c) eqn:E.
  - destruct b; [apply IH|]. cbn [lstrip]. apply IH.
  - cbn [lstrip collapse_from]. rewrite E. reflexivity.
Qed.

Lemma rstrip_collapse_from (b : bool) (s : string) :
  rstrip (collapse_from b s) = collapse_from b (rstrip s).
Proof.
  revert b. induction s as [|c s IH]; intros b; [reflexivity|].
  destruct (isspace c) eqn:E.
  - rewrite (rstrip_cons_space c s E). cbn [collapse_from]. rewrite E.
    destruct (all_space s) eqn:A.
    + apply rstrip_empty. destruct b; cbn [all_space]; simpl;
        rewrite all_space_collapse_from; exact A.
    + cbn [collapse_from]. rewrite E. destruct b; [apply IH|].
      rewrite rstrip_cons_space by reflexivity.
      rewrite all_space_collapse_from, A, IH. reflexivity.
  - rewrite (rstrip_cons_nonspace c s E). cbn [collapse_from]. rewrite E.
    rewrite (rstrip_cons_nonspace c _ E), IH. reflexivity.
Qed.

(** Collapsing, trimming and lowercasing give the same text in the order
    of the specification and in the order of [normalize_title]. *)
Lemma normalized_as_worded_eq (title : string) :
  Scraper.normalized_as_worded title = Scraper.normalize_title title.
Proof.
  unfold Scraper.normalized_as_worded, Scraper.normalize_title, collapse_ws, strip.
  rewrite lstrip_collapse_from, rstrip_collapse_from, lower_collapse_from.
  rewrite lower_rstrip, lower_lstrip. reflexivity.
Qed.

End PyStrFacts.

(** * Properties of the storage layer *)
Section StorageFacts.
Import DateTime Storage.

Implicit Types (d : db) (r : row) (url name : string).

Lemma matches_key url name r :
  matches url name r = true <-> row_key r = (url, name).
Proof.
  unfold matches, row_key. rewrite andb_true_iff, !String.eqb_eq.
  split; [intros [-> ->]; reflexivity | intros [= -> ->]; auto].
Qed.

Lemma matches_false_key url name r :
  matches url name r = false <-> row_key r <> (url, name).
Proof.
  rewrite <- matches_key. destruct (matches url name r); split; congruence.
Qed.

Lemma existsb_matches_keys url name (l : list row) :
  existsb (matches url name) l = true <-> (url, name) ∈ map row_key l.
Proof.
  induction l as [|r l IH]; simpl.
  - split; [discriminate | intros H; inversion H].
  - rewrite orb_true_iff, IH, matches_key, elem_of_cons. intuition congruence.
Qed.

Lemma select_id_Some_keys d url name :
  is_Some (select_id d url name) <-> (url, name) ∈ keys d.
Proof.
  unfold select_id, keys. rewrite <- existsb_matches_keys.
  induction (rows d) as [|r l IH]; simpl.
  - split; [intros [x Hx]; discriminate | discriminate].
  - rewrite filter_cons. destruct (matches url name r) eqn:E; simpl.
    + split; eauto.
    + exact IH.
Qed.

Lemma select_id_None_keys d url name :
  select_id d url name = None <-> (url, name) ∉ keys d.
Proof.
  rewrite <- select_id_Some_keys, <- eq_None_not_Some. reflexivity.
Qed.

Lemma keys_update_due d raw parsed now url name :
  keys (update_due d raw parsed now url name) = keys d.
Proof.
  unfold keys, update_due; simpl. rewrite map_map. apply map_ext.
  intros r. destruct (matches url name r); reflexivity.
Qed.

Lemma keys_mark_as_notified d url name :
  keys (mark_as_notified d url name) = keys d.
Proof.
  unfold keys, mark_as_notified; simpl. rewrite map_map. apply map_ext.
  intros r. destruct (matches url name r); reflexivity.
Qed.

Lemma insert_fresh d url name raw parsed now :
  (url, name) ∉ keys d ->
  insert d url name raw parsed now =
  Some (mk_db (rows d ++ [mk_row (last_id d + 1) url name raw parsed now false])
              (last_id d + 1)).
Proof.
  intros H. unfold insert.
  destruct (existsb (matches url name) (rows d)) eqn:E; [|reflexivity].
  apply existsb_matches_keys in E. contradiction.
Qed.

(** What one iteration of the loop does, by whether the key is stored. *)
Lemma store_one_present dp url now d s a :
  (url, title_of a) ∈ keys d ->
  store_one dp url now (d, s) a =
  Some (update_due d (due_date_of a) (parse_due_date dp (due_date_of a)) now
                   url (title_of a),
        mk_stats (new s) (updated s + 1) (total s + 1)).
Proof.
  intros H. apply select_id_Some_keys in H as [x Hx].
  unfold store_one. rewrite Hx. reflexivity.
Qed.

Lemma store_one_absent dp url now d s a :
  (url, title_of a) ∉ keys d ->
  store_one dp url now (d, s) a =
  Some (mk_db (rows d ++ [mk_row (last_id d + 1) url (title_of a) (due_date_of a)
                                 (parse_due_date dp (due_date_of a)) now false])
              (last_id d + 1),
        mk_stats (new s + 1) (updated s) (total s + 1)).
Proof.
  intros H. unfold store_one.
  rewrite (proj2 (select_id_None_keys _ _ _) H), (insert_fresh _ _ _ _ _ _ H).
  reflexivity.
Qed.

(** The [UNIQUE] constraint never fires: the loop body always returns. *)
Lemma store_one_total dp url now st a :
  is_Some (store_one dp url now st a).
Proof.
  destruct st as [d s].
  destruct (decide ((url, title_of a) ∈ keys d)) as [H|H].
  - rewrite store_one_present by exact H. eauto.
  - rewrite store_one_absent by exact H. eauto.
Qed.

Lemma store_loop_total dp url clock l : forall i st,
  is_Some (store_loop dp url clock i l st).
Proof.
  induction l as [|a l IH]; intros i st; simpl; [eauto|].
  destruct (store_one_total dp url (clock i) st a) as [st' ->]. apply IH.
Qed.

(** An invariant of the loop body is an invariant of the loop. *)
Lemma store_loop_invariant (P : db * stats -> Prop) dp url clock :
  (forall now st a st', P st -> store_one dp url now st a = Some st' -> P st') ->
  forall l i st st', P st -> store_loop dp url clock i l st = Some st' -> P st'.
Proof.
  intros Hstep. induction l as [|a l IH]; intros i st st' HP; simpl.
  - intros [= <-]. exact HP.
  - destruct (store_one dp url (clock i) st a) as [st1|] eqn:E; [|discriminate].
    intros H. eapply IH; [|exact H]. eapply Hstep; eauto.
Qed.

Lemma store_one_keys dp url now d s a d' s' :
  store_one dp url now (d, s) a = Some (d', s') ->
  keys d' = (if decide ((url, title_of a) ∈ keys d) then keys d
             else keys d ++ [(url, title_of a)]).
Proof.
  destruct (decide ((url, title_of a) ∈ keys d)) as [H|H].
  - rewrite store_one_present by exact H. intros [= <- <-].
    apply keys_update_due.
  - rewrite store_one_absent by exact H. intros [= <- <-].
    unfold keys; simpl. rewrite map_app. reflexivity.
Qed.

Lemma store_one_NoDup dp url now d s a d' s' :
  NoDup (keys d) -> store_one dp url now (d, s) a = Some (d', s') ->
  NoDup (keys d').
Proof.
  intros Hnd H. rewrite (store_one_keys _ _ _ _ _ _ _ _ H).
  destruct (decide ((url, title_of a) ∈ keys d)) as [Hin|Hin]; [exact Hnd|].
  apply NoDup_app. split; [exact Hnd|]. split.
  - intros k Hk Hk'. apply list_elem_of_singleton in Hk'. subst k. contradiction.
  - apply NoDup_singleton.
Qed.

Lemma store_loop_NoDup dp url clock l i d s d' s' :
  NoDup (keys d) -> store_loop dp url clock i l (d, s) = Some (d', s') ->
  NoDup (keys d').
Proof.
  intros Hnd H.
  apply (store_loop_invariant (fun st => NoDup (keys (fst st))) dp url clock)
    with (l := l) (i := i) (st := (d, s)) (st' := (d', s')); auto.
  intros now [d0 s0] a [d1 s1]; simpl. apply store_one_NoDup.
Qed.

Lemma lookup_map {A B} (f : A -> B) (l : list A) (i : nat) :
  map f l !! i = f <$> (l !! i).
Proof.
  revert i. induction l as [|x l IH]; intros [|i]; simpl; auto.
Qed.

Lemma store_one_present_frame dp url now d s a d' s' :
  (url, title_of a) ∈ keys d ->
  store_one dp url now (d, s) a = Some (d', s') ->
  new s' = new s /\
  map identity_and_flag (rows d') = map identity_and_flag (rows d).
Proof.
  intros Hin. rewrite store_one_present by exact Hin. intros [= <- <-].
  split; [reflexivity|]. unfold update_due; simpl. rewrite map_map.
  apply map_ext. intros r. destruct (matches url (title_of a) r); reflexivity.
Qed.

(** When every assignment of the list is stored already, the loop adds no
    row and leaves identities and flags as they are. *)
Lemma store_loop_all_present dp url clock l : forall i d s d' s',
  (forall a, a ∈ l -> (url, title_of a) ∈ keys d) ->
  store_loop dp url clock i l (d, s) = Some (d', s') ->
  new s' = new s /\
  map identity_and_flag (rows d') = map identity_and_flag (rows d).
Proof.
  induction l as [|a l IH]; intros i d s d' s' Hall; cbn [store_loop].
  - intros [= <- <-]. auto.
  - assert (Ha : (url, title_of a) ∈ keys d) by (apply Hall; left).
    destruct (store_one dp url (clock i) (d, s) a) as [[d1 s1]|] eqn:E;
      [|discriminate].
    intros H.
    destruct (store_one_present_frame _ _ _ _ _ _ _ _ Ha E) as [Hn Hm].
    assert (Hk : keys d1 = keys d).
    { rewrite (store_one_keys _ _ _ _ _ _ _ _ E). rewrite decide_True; auto. }
    destruct (IH (S i) d1 s1 d' s') as [Hn' Hm']; auto.
    + intros b Hb. rewrite Hk. apply Hall. right. exact Hb.
    + split; congruence.
Qed.

Lemma store_one_keys_mono dp url now d s a d' s' k :
  store_one dp url now (d, s) a = Some (d', s') -> k ∈ keys d -> k ∈ keys d'.
Proof.
  intros H Hk. rewrite (store_one_keys _ _ _ _ _ _ _ _ H).
  destruct (decide _); [exact Hk|]. apply elem_of_app. left. exact Hk.
Qed.

Lemma store_one_key_stored dp url now d s a d' s' :
  store_one dp url now (d, s) a = Some (d', s') -> (url, title_of a) ∈ keys d'.
Proof.
  intros H. rewrite (store_one_keys _ _ _ _ _ _ _ _ H).
  destruct (decide _) as [Hin|Hin]; [exact Hin|].
  apply elem_of_app. right. apply list_elem_of_singleton. reflexivity.
Qed.

Lemma store_loop_keys_mono dp url clock l : forall i d s d' s' k,
  store_loop dp url clock i l (d, s) = Some (d', s') -> k ∈ keys d -> k ∈ keys d'.
Proof.
  induction l as [|a l IH]; intros i d s d' s' k; cbn [store_loop].
  - intros [= <- <-]. auto.
  - destruct (store_one dp url (clock i) (d, s) a) as [[d1 s1]|] eqn:E;
      [|discriminate].
    intros H Hk. eapply IH; [exact H|]. eapply store_one_keys_mono; eauto.
Qed.

(** After the loop every assignment of the list has its row. *)
Lemma store_loop_keys_stored dp url clock l : forall i d s d' s' a,
  store_loop dp url clock i l (d, s) = Some (d', s') ->
  a ∈ l -> (url, title_of a) ∈ keys d'.
Proof.
  induction l as [|b l IH]; intros i d s d' s' a; cbn [store_loop].
  - intros _ Ha. inversion Ha.
  - destruct (store_one dp url (clock i) (d, s) b) as [[d1 s1]|] eqn:E;
      [|discriminate].
    intros H Ha. apply elem_of_cons in Ha as [->|Ha].
    + eapply store_loop_keys_mono; [exact H|]. eapply store_one_key_stored; eauto.
    + eapply IH; eauto.
Qed.

(** The counters of the loop. *)
Lemma store_loop_stats dp url clock l : forall i d s d' s',
  store_loop dp url clock i l (d, s) = Some (d', s') ->
  new s' + updated s' - total s' = new s + updated s - total s /\
  total s' = total s + Z.of_nat (length l) /\
  new s <= new s' /\ updated s <= updated s' /\
  Z.of_nat (length (rows d')) - new s' = Z.of_nat (length (rows d)) - new s.
Proof.
  induction l as [|a l IH]; intros i d s d' s'; simpl length.
  - intros [= <- <-]. lia.
  - cbn [store_loop].
    destruct (store_one dp url (clock i) (d, s) a) as [[d1 s1]|] eqn:E;
      [|discriminate].
    intros H. specialize (IH _ _ _ _ _ H).
    assert (new s1 + updated s1 - total s1 = new s + updated s - total s /\
            total s1 = total s + 1 /\ new s <= new s1 /\ updated s <= updated s1 /\
            Z.of_nat (length (rows d1)) - new s1 = Z.of_nat (length (rows d)) - new s)
      as Hstep.
    { destruct (decide ((url, title_of a) ∈ keys d)) as [Hin|Hin].
      - rewrite store_one_present in E by exact Hin. injection E as <- <-.
        unfold update_due; simpl. rewrite length_map. lia.
      - rewrite store_one_absent in E by exact Hin. injection E as <- <-.
        simpl. rewrite length_app. simpl. lia. }
    lia.
Qed.

End StorageFacts.

(** * Properties of the deadline scan *)
Section NotifierFacts.
Import DateTime Storage Notifier.

Implicit Types (d : db) (r : row) (a : deadline) (sent : list dispatch).

Lemma matches_set_notified url name r :
  matches url name (set_notified r) = matches url name r.
Proof. reflexivity. Qed.

Lemma marked_by_set_notified sent r :
  marked_by sent (set_notified r) = marked_by sent r.
Proof. reflexivity. Qed.

Lemma set_notified_twice r : set_notified (set_notified r) = set_notified r.
Proof. reflexivity. Qed.

(** The table after the loop: the rows of the dispatched keys are marked,
    nothing else changes. *)
Lemma notify_loop_rows adv clock upcoming : forall i d,
  rows (notify_loop adv clock i upcoming d).1.1
  = map (mark_all (notify_loop adv clock i upcoming d).1.2) (rows d)
  /\ last_id (notify_loop adv clock i upcoming d).1.1 = last_id d.
Proof.
  induction upcoming as [|a rest IH]; intros i d; cbn [notify_loop].
  - simpl. split; [|reflexivity]. symmetry. apply map_id.
  - destruct (has_due a && negb (dl_notified a)); [|apply IH].
    destruct (days_until a (clock i)) as [n|];
      [|simpl; split; [symmetry; apply map_id | reflexivity]].
    destruct (due_for_reminder adv n); [|apply IH].
    specialize (IH (S i) (mark_as_notified d (dl_course_url a) (dl_assignment_name a))).
    destruct (notify_loop adv clock (S i) rest _) as [[d' sent] e]. simpl in *.
    destruct IH as [IH1 IH2]. split; [|exact IH2].
    rewrite IH1, map_map. apply map_ext. intros r.
    unfold mark_all at 2. unfold marked_by. cbn [existsb sent_for].
    fold (marked_by sent r).
    destruct (matches (dl_course_url a) (dl_assignment_name a) r); simpl.
    + unfold mark_all. rewrite marked_by_set_notified.
      destruct (marked_by sent r); reflexivity.
    + reflexivity.
Qed.

Lemma notify_loop_keys adv clock upcoming i d :
  keys (notify_loop adv clock i upcoming d).1.1 = keys d.
Proof.
  unfold keys. rewrite (proj1 (notify_loop_rows adv clock upcoming i d)), map_map.
  apply map_ext. intros r. unfold mark_all.
  destruct (marked_by _ r); reflexivity.
Qed.

(** A dict makes the loop raise exactly when it passes the guard and its
    subtraction fails. *)
Lemma raises_at_spec a now :
  has_due a && negb (dl_notified a) = true /\ days_until a now = None
  <-> raises_at a = true.
Proof.
  unfold has_due, days_until, raises_at.
  destruct (dl_due_date_parsed a) as [t|], (dl_notified a); simpl;
    try destruct (aware t); simpl; split; intros H; try discriminate;
    try (destruct H; discriminate); auto.
Qed.

Lemma days_until_Some a now n :
  days_until a now = Some n ->
  exists t, dl_due_date_parsed a = Some t /\ aware t = false
            /\ n = delta_days (to_us t) now.
Proof.
  unfold days_until. destruct (dl_due_date_parsed a) as [t|]; [|discriminate].
  destruct (aware t) eqn:E; [discriminate|]. intros [= <-]. eauto.
Qed.

(** Every element of the list that passes the two tests is dispatched, with
    the number of days read in its own iteration, when no element before it
    makes the loop raise. *)
Lemma notify_loop_dispatches adv clock upcoming : forall i d j a n,
  upcoming !! j = Some a ->
  (forall k b, (k < j)%nat -> upcoming !! k = Some b -> raises_at b = false) ->
  dl_notified a = false ->
  days_until a (clock (i + j)%nat) = Some n ->
  due_for_reminder adv n = true ->
  mk_dispatch a n ∈ (notify_loop adv clock i upcoming d).1.2.
Proof.
  induction upcoming as [|b rest IH]; intros i d j a n Hj Hbefore Hnot Hn Hrem;
    [discriminate|].
  cbn [notify_loop]. destruct j as [|j]; simpl in Hj.
  - injection Hj as ->. rewrite Nat.add_0_r in *.
    assert (Hdue : has_due a = true).
    { apply days_until_Some in Hn as (t & Ht & _). unfold has_due. rewrite Ht.
      reflexivity. }
    rewrite Hdue, Hnot, Hn, Hrem. simpl.
    destruct (notify_loop adv clock (S i) rest _) as [[d' sent] e]. simpl. left.
  - rewrite Nat.add_succ_r in *.
    assert (Hrest : forall k c, (k < j)%nat -> rest !! k = Some c -> raises_at c = false).
    { intros k c Hk Hc. apply (Hbefore (S k) c); [lia | exact Hc]. }
    specialize (IH (S i)). cbn [Nat.add] in IH.
    destruct (has_due b && negb (dl_notified b)) eqn:Eg; [|eapply IH; eauto].
    destruct (days_until b (clock i)) as [m|] eqn:Em.
    + destruct (due_for_reminder adv m); [|eapply IH; eauto].
      specialize (IH (mark_as_notified d (dl_course_url b) (dl_assignment_name b))
                     j a n Hj Hrest Hnot Hn Hrem).
      destruct (notify_loop adv clock (S i) rest _) as [[d' sent] e]. simpl in *.
      right. exact IH.
    + assert (raises_at b = true) as Hb by (apply (raises_at_spec b (clock i)); auto).
      rewrite (Hbefore 0%nat b) in Hb; [discriminate | lia | reflexivity].
Qed.

(** Every dispatch comes from an element of the list that passed the two
    tests in its own iteration. *)
Lemma notify_loop_sent adv clock upcoming : forall i d ev,
  ev ∈ (notify_loop adv clock i upcoming d).1.2 ->
  exists j, upcoming !! j = Some (sent_for ev) /\
    dl_notified (sent_for ev) = false /\
    days_until (sent_for ev) (clock (i + j)%nat) = Some (sent_days_until ev) /\
    due_for_reminder adv (sent_days_until ev) = true.
Proof.
  induction upcoming as [|b rest IH]; intros i d ev; cbn [notify_loop].
  - simpl. intros H. inversion H.
  - assert (Hrest : forall d0, ev ∈ (notify_loop adv clock (S i) rest d0).1.2 ->
      exists j, (b :: rest) !! j = Some (sent_for ev) /\
        dl_notified (sent_for ev) = false /\
        days_until (sent_for ev) (clock (i + j)%nat) = Some (sent_days_until ev) /\
        due_for_reminder adv (sent_days_until ev) = true).
    { intros d0 H. destruct (IH _ _ _ H) as (j & H1 & H2 & H3 & H4).
      exists (S j). rewrite Nat.add_succ_r. auto. }
    destruct (has_due b && negb (dl_notified b)) eqn:E1; [|apply Hrest].
    destruct (days_until b (clock i)) as [n|] eqn:En;
      [|simpl; intros H; inversion H].
    destruct (due_for_reminder adv n) eqn:E2; [|apply Hrest].
    specialize (Hrest (mark_as_notified d (dl_course_url b) (dl_assignment_name b))).
    destruct (notify_loop adv clock (S i) rest _) as [[d' sent] e]. simpl in *.
    intros H. apply elem_of_cons in H as [->|H]; [|auto].
    exists 0%nat. simpl. rewrite Nat.add_0_r.
    apply andb_true_iff in E1 as [_ E1]. apply negb_true_iff in E1. auto.
Qed.

(** The loop raises exactly when the list holds a dict that is not yet
    notified and has an aware due date. *)
Lemma notify_loop_ending adv clock upcoming : forall i d,
  (notify_loop adv clock i upcoming d).2 = Raised
  <-> exists a, a ∈ upcoming /\ raises_at a = true.
Proof.
  induction upcoming as [|b rest IH]; intros i d; cbn [notify_loop].
  - simpl. split; [discriminate|]. intros (a & Ha & _). inversion Ha.
  - assert (Hskip : raises_at b = false -> forall d0,
              (notify_loop adv clock (S i) rest d0).2 = Raised
              <-> exists a, a ∈ b :: rest /\ raises_at a = true).
    { intros Hb d0. rewrite IH. split.
      - intros (a & Ha & Hr). exists a. split; [right; exact Ha | exact Hr].
      - intros (a & Ha & Hr). apply elem_of_cons in Ha as [->|Ha];
          [congruence | eauto]. }
    destruct (has_due b && negb (dl_notified b)) eqn:Eg.
    + destruct (days_until b (clock i)) as [n|] eqn:En.
      * assert (Hb : raises_at b = false).
        { destruct (raises_at b) eqn:Eb; [|reflexivity].
          apply (raises_at_spec b (clock i)) in Eb as [_ Eb]. congruence. }
        destruct (due_for_reminder adv n); [|apply Hskip; exact Hb].
        specialize (Hskip Hb
          (mark_as_notified d (dl_course_url b) (dl_assignment_name b))).
        destruct (notify_loop adv clock (S i) rest _) as [[d' sent] e].
        simpl in *. exact Hskip.
      * simpl. split; [|reflexivity]. intros _. exists b. split; [left|].
        apply (raises_at_spec b (clock i)). auto.
    + apply Hskip. destruct (raises_at b) eqn:Eb; [|reflexivity].
      apply (raises_at_spec b (clock i)) in Eb as [Eb _]. congruence.
Qed.

Lemma map_is_fmap {A B} (f : A -> B) (l : list A) : map f l = f <$> l.
Proof. reflexivity. Qed.

(** The list of the query: the rows in the window, as dicts. *)
Lemma select_upcoming_elem d sql_now future a :
  a ∈ select_upcoming d sql_now future <->
  exists r, r ∈ rows d /\ in_window sql_now future r = true /\ a = deadline_of r.
Proof.
  unfold select_upcoming. rewrite map_is_fmap, list_elem_of_fmap.
  split.
  - intros (r & -> & Hr). rewrite merge_sort_Permutation in Hr.
    apply list_elem_of_filter in Hr as [Hw Hr].
    exists r. split; [exact Hr|]. split; [apply Is_true_true; exact Hw | reflexivity].
  - intros (r & Hr & Hw & ->). exists r. split; [reflexivity|].
    rewrite merge_sort_Permutation. apply list_elem_of_filter.
    split; [apply Is_true_true; exact Hw | exact Hr].
Qed.

Lemma add_days_Some now days f :
  add_days now days = Some f <->
  f = now + days * us_per_day /\ Z.abs days <= 999999999 /\ min_us <= f <= max_us.
Proof.
  unfold add_days. cbv zeta.
  destruct (Z.abs days <=? 999999999) eqn:E1;
  destruct (min_us <=? now + days * us_per_day) eqn:E2;
  destruct (now + days * us_per_day <=? max_us) eqn:E3; simpl;
    split; intros H; try discriminate;
    try (injection H as <-; repeat split; lia);
    try (destruct H as (-> & ? & ? & ?); first [reflexivity | lia]).
Qed.

(** The call either raises, and hands over nothing, or returns the list of
    the query up to the future date. *)
Lemma upcoming_cases d py_now sql_now days :
  (add_days py_now days = None
   /\ get_upcoming_deadlines_or_raise d py_now sql_now days = None
   /\ get_upcoming_deadlines d py_now sql_now days = [])
  \/ (add_days py_now days = Some (py_now + days * us_per_day)
      /\ get_upcoming_deadlines_or_raise d py_now sql_now days
         = Some (select_upcoming d sql_now (py_now + days * us_per_day))
      /\ get_upcoming_deadlines d py_now sql_now days
         = select_upcoming d sql_now (py_now + days * us_per_day)).
Proof.
  unfold get_upcoming_deadlines, get_upcoming_deadlines_or_raise.
  destruct (add_days py_now days) as [f|] eqn:E; [right | left; auto].
  apply add_days_Some in E as (-> & _). auto.
Qed.

(** The list read by the scan: rows in the window, as dicts. *)
Lemma upcoming_elem d py_now sql_now days a :
  a ∈ get_upcoming_deadlines d py_now sql_now days ->
  exists r, r ∈ rows d /\
    in_window sql_now (py_now + days * us_per_day) r = true /\
    a = deadline_of r.
Proof.
  destruct (upcoming_cases d py_now sql_now days) as [(_ & _ & ->)|(_ & _ & ->)].
  - intros H. inversion H.
  - apply select_upcoming_elem.
Qed.

Lemma upcoming_keys_NoDup d py_now sql_now days :
  NoDup (keys d) -> NoDup (map dl_key (get_upcoming_deadlines d py_now sql_now days)).
Proof.
  intros Hnd.
  destruct (upcoming_cases d py_now sql_now days) as [(_ & _ & ->)|(_ & _ & ->)];
    [constructor|].
  unfold select_upcoming. rewrite map_map.
  change (fun x => dl_key (deadline_of x)) with row_key.
  rewrite map_is_fmap, merge_sort_Permutation.
  eapply sublist_NoDup; [exact Hnd|].
  change (keys d) with (row_key <$> rows d). apply fmap_sublist, sublist_filter.
Qed.

Lemma in_window_has_due sql_now future r :
  in_window sql_now future r = true -> has_due (deadline_of r) = true.
Proof.
  unfold in_window, has_due; simpl. destruct (due_date_parsed r); auto.
Qed.

(** The bounds of the window, on the wall clock. *)
Lemma in_window_bounds sql_now future r :
  in_window sql_now future r = true ->
  exists t, due_date_parsed r = Some t /\ sql_now <= to_us t <= future.
Proof.
  unfold in_window. destruct (due_date_parsed r) as [t|]; [|discriminate].
  intros H. exists t. split; [reflexivity|].
  apply andb_true_iff in H as [H1 H2]. destruct (aware t); lia.
Qed.

(** The scan, through the list it reads. *)
Lemma scan_cases adv py_now sql_now clock d :
  (add_days py_now 30 = None
   /\ get_upcoming_deadlines d py_now sql_now 30 = []
   /\ check_and_notify_deadlines_or_raise adv py_now sql_now clock d
      = (d, [], Raised))
  \/ (add_days py_now 30 = Some (py_now + 30 * us_per_day)
      /\ check_and_notify_deadlines_or_raise adv py_now sql_now clock d
         = notify_loop adv clock 0 (get_upcoming_deadlines d py_now sql_now 30) d).
Proof.
  unfold check_and_notify_deadlines_or_raise.
  destruct (upcoming_cases d py_now sql_now 30) as [(H1 & -> & H3)|(H1 & -> & ->)];
    [left | right]; auto.
Qed.

(** What the scan leaves is what the loop leaves, on the list handed over. *)
Lemma scan_is_loop adv py_now sql_now clock d :
  check_and_notify_deadlines adv py_now sql_now clock d
  = (notify_loop adv clock 0 (get_upcoming_deadlines d py_now sql_now 30) d).1.
Proof.
  unfold check_and_notify_deadlines.
  destruct (scan_cases adv py_now sql_now clock d) as [(_ & -> & ->)|(_ & ->)];
    reflexivity.
Qed.

Lemma add_days_30 now :
  add_days now 30 = None <-> ~ (min_us <= now + 30 * us_per_day <= max_us).
Proof.
  destruct (add_days now 30) as [f|] eqn:E.
  - apply add_days_Some in E as (-> & _ & H). split; [discriminate | tauto].
  - split; [|reflexivity]. intros _ H.
    assert (add_days now 30 = Some (now + 30 * us_per_day)) as E'
      by (apply add_days_Some; split; [reflexivity | split; [lia | exact H]]).
    congruence.
Qed.

(** The scan raises exactly when the end of its window is no date that
    [datetime] holds, or the window holds a row that is not notified and
    whose due date is aware. *)
Lemma scan_raises_iff adv py_now sql_now clock d :
  (check_and_notify_deadlines_or_raise adv py_now sql_now clock d).2 = Raised <->
  ~ (min_us <= py_now + 30 * us_per_day <= max_us)
  \/ exists r t, r ∈ rows d /\ notified r = false /\ due_date_parsed r = Some t /\
                 aware t = true /\ sql_now <= to_us t < py_now + 30 * us_per_day.
Proof.
  unfold check_and_notify_deadlines_or_raise.
  destruct (upcoming_cases d py_now sql_now 30) as [(E & -> & _)|(E & -> & _)].
  - simpl. split; [|reflexivity]. intros _. left. apply add_days_30. exact E.
  - rewrite notify_loop_ending. split.
    + intros (a & Ha & Hr). right.
      apply select_upcoming_elem in Ha as (r & Hin & Hw & ->).
      unfold raises_at in Hr. simpl in Hr. unfold in_window in Hw.
      destruct (due_date_parsed r) as [t|] eqn:Hd;
        [|rewrite andb_false_r in Hr; discriminate].
      apply andb_true_iff in Hr as [Hn Ht]. apply negb_true_iff in Hn.
      rewrite Ht in Hw. apply andb_true_iff in Hw as [H1 H2].
      apply Z.leb_le in H1. apply Z.ltb_lt in H2.
      exists r, t. repeat (split; [assumption|]). assumption.
    + intros [Hover|(r & t & Hin & Hn & Hd & Ht & H1 & H2)].
      * exfalso. apply add_days_30 in Hover. congruence.
      * exists (deadline_of r). split.
        -- apply select_upcoming_elem. exists r. split; [exact Hin|].
           split; [|reflexivity]. unfold in_window. rewrite Hd, Ht.
           apply andb_true_iff. split; [apply Z.leb_le | apply Z.ltb_lt]; assumption.
        -- unfold raises_at. simpl. rewrite Hn, Hd, Ht. reflexivity.
Qed.

(** Two positions of the list with the same key are the same position. *)
Lemma upcoming_lookup_unique d py_now sql_now days i j a b :
  NoDup (keys d) ->
  get_upcoming_deadlines d py_now sql_now days !! i = Some a ->
  get_upcoming_deadlines d py_now sql_now days !! j = Some b ->
  dl_key a = dl_key b -> i = j.
Proof.
  intros Hnd Hi Hj Hk.
  apply (NoDup_lookup _ i j (dl_key a) (upcoming_keys_NoDup d py_now sql_now days Hnd)).
  - rewrite lookup_map, Hi. reflexivity.
  - rewrite lookup_map, Hj, Hk. reflexivity.
Qed.

Lemma NoDup_keys_row d r1 r2 :
  NoDup (keys d) -> r1 ∈ rows d -> r2 ∈ rows d -> row_key r1 = row_key r2 -> r1 = r2.
Proof.
  intros Hnd H1 H2 Hk.
  apply list_elem_of_lookup in H1 as [i Hi]. apply list_elem_of_lookup in H2 as [j Hj].
  assert (i = j) as ->.
  { apply (NoDup_lookup _ i j (row_key r1) Hnd); unfold keys.
    - rewrite lookup_map, Hi. reflexivity.
    - rewrite lookup_map, Hj, Hk. reflexivity. }
  congruence.
Qed.

Lemma mark_all_key sent r : row_key (mark_all sent r) = row_key r.
Proof. unfold mark_all. destruct (marked_by sent r); reflexivity. Qed.

Lemma marked_by_true sent r :
  marked_by sent r = true <-> exists ev, ev ∈ sent /\ dl_key (sent_for ev) = row_key r.
Proof.
  unfold marked_by. rewrite existsb_exists. split.
  - intros (ev & Hin & Hm). exists ev. split; [apply list_elem_of_In; exact Hin|].
    apply matches_key in Hm. symmetry. exact Hm.
  - intros (ev & Hin & Hk). exists ev. split; [apply list_elem_of_In; exact Hin|].
    apply matches_key. symmetry. exact Hk.
Qed.

(** With unique keys, the row that a stored row becomes is the only one of
    its key after the loop. *)
Lemma notify_loop_row adv clock upcoming i d r r' :
  NoDup (keys d) -> r ∈ rows d ->
  (r' ∈ rows (notify_loop adv clock i upcoming d).1.1 /\ row_key r' = row_key r)
  <-> r' = mark_all (notify_loop adv clock i upcoming d).1.2 r.
Proof.
  intros Hnd Hr. rewrite (proj1 (notify_loop_rows adv clock upcoming i d)).
  rewrite map_is_fmap, list_elem_of_fmap. split.
  - intros [(r0 & -> & Hr0) Hk]. rewrite mark_all_key in Hk.
    rewrite (NoDup_keys_row d r0 r Hnd Hr0 Hr Hk). reflexivity.
  - intros ->. split; [exists r; auto | apply mark_all_key].
Qed.

End NotifierFacts.

(** * Specified behaviour of the storage layer *)
Section StorageClaims.
Import DateTime Storage Agent Samples.

(** C6. [mark_as_notified] is idempotent: a second call on the same key
    leaves the table as the first call left it. The call keeps the id
    counter, the number and the order of the rows; the row at each position
    keeps its id, key, due date, raw text and timestamp; a row of the key
    has [notified] true afterwards, and a row of another key is unchanged.
    So after the call every row of that key has [notified] true, and the
    rows of other keys are as before. *)
Theorem mark_as_notified_idempotent (d : db) (url name : string) :
  mark_as_notified (mark_as_notified d url name) url name
    = mark_as_notified d url name
  /\ last_id (mark_as_notified d url name) = last_id d
  /\ length (rows (mark_as_notified d url name)) = length (rows d)
  /\ (forall i r, rows d !! i = Some r ->
        exists r', rows (mark_as_notified d url name) !! i = Some r' /\
          id r' = id r /\ row_key r' = row_key r /\
          due_date_raw r' = due_date_raw r /\
          due_date_parsed r' = due_date_parsed r /\
          extracted_at r' = extracted_at r /\
          (row_key r = (url, name) -> notified r' = true) /\
          (row_key r <> (url, name) -> r' = r))
  /\ Forall (fun r => row_key r = (url, name) /\ notified r = true
                    \/ row_key r <> (url, name) /\ r ∈ rows d)
            (rows (mark_as_notified d url name)).
Proof.
  split; [|split; [reflexivity|split; [apply length_map|split]]].
  - unfold mark_as_notified; simpl. f_equal. rewrite map_map. apply map_ext.
    intros r. destruct (matches url name r) eqn:E; [|rewrite E; reflexivity].
    change (matches url name (set_notified r)) with (matches url name r).
    rewrite E. reflexivity.
  - intros i r Hi. unfold mark_as_notified; simpl. rewrite lookup_map, Hi. simpl.
    eexists. split; [reflexivity|].
    destruct (matches url name r) eqn:E.
    + apply matches_key in E. do 5 (split; [reflexivity|]).
      split; [reflexivity | intros Hne; contradiction].
    + apply matches_false_key in E. do 5 (split; [reflexivity|]).
      split; [intros Hk; contradiction | reflexivity].
  - apply Forall_forall. intros r' Hr'. unfold mark_as_notified in Hr'; simpl in Hr'.
    rewrite map_is_fmap in Hr'. apply list_elem_of_fmap in Hr' as (r & -> & Hr).
    destruct (matches url name r) eqn:E.
    + left. split; [|reflexivity]. apply matches_key in E. exact E.
    + right. split; [apply matches_false_key; exact E | exact Hr].
Qed.

(** C5. Frame of the update of an existing record: when the key of the
    assignment is stored already, the loop body of [store_assignments] keeps
    the number and the order of the rows; every row keeps its id, key and
    [notified]; a row of another key is unchanged; a row of this key takes
    the new [due_date_raw], [due_date_parsed] and [extracted_at]. *)
Theorem upsert_existing_frame dp (url : string) (now : Z) (d : db) (s : stats)
    (a : gmap string string) :
  (url, title_of a) ∈ keys d ->
  exists d' s',
    store_one dp url now (d, s) a = Some (d', s') /\
    last_id d' = last_id d /\
    length (rows d') = length (rows d) /\
    forall i r, rows d !! i = Some r ->
      exists r', rows d' !! i = Some r' /\
        id r' = id r /\ row_key r' = row_key r /\ notified r' = notified r /\
        (row_key r <> (url, title_of a) -> r' = r) /\
        (row_key r = (url, title_of a) ->
           due_date_raw r' = due_date_of a /\
           due_date_parsed r' = parse_due_date dp (due_date_of a) /\
           extracted_at r' = now).
Proof.
  intros Hin. rewrite store_one_present by exact Hin.
  eexists _, _. split; [reflexivity|]. unfold update_due; simpl.
  split; [reflexivity|]. split; [apply length_map|].
  intros i r Hi. rewrite lookup_map, Hi. simpl. eexists. split; [reflexivity|].
  destruct (matches url (title_of a) r) eqn:E.
  - apply matches_key in E. do 3 (split; [reflexivity|]).
    split; [intros Hne; contradiction | intros _; auto].
  - apply matches_false_key in E. do 3 (split; [reflexivity|]).
    split; [reflexivity | intros Hk; contradiction].
Qed.

(** The frame at "Essay 1", stored and extracted again. *)
Lemma upsert_existing_frame_witness :
  (course, title_of essay) ∈ keys essay_db /\
  exists d' s',
    store_one None course 7 (essay_db, mk_stats 0 0 0) essay = Some (d', s') /\
    last_id d' = last_id essay_db /\
    length (rows d') = length (rows essay_db).
Proof.
  assert (H : (course, title_of essay) ∈ keys essay_db) by (vm_compute; left).
  split; [exact H|].
  destruct (upsert_existing_frame None course 7 essay_db (mk_stats 0 0 0) essay H)
    as (d' & s' & H1 & H2 & H3 & _).
  exists d', s'. auto.
Defined.

(** C3. The upsert is idempotent: [store_assignments] applied a second time
    with the same course and list, right after the first, returns, counts no
    new record, and leaves the id, the key and the [notified] flag of every
    row as they were before the second application. *)
Theorem upsert_idempotent dp1 clock1 dp2 clock2 (d : db) (url : string)
    (l : list (gmap string string)) :
  exists d1 s1 d2 s2,
    store_assignments dp1 clock1 d url l = Some (d1, s1) /\
    store_assignments dp2 clock2 d1 url l = Some (d2, s2) /\
    new s2 = 0 /\
    map identity_and_flag (rows d2) = map identity_and_flag (rows d1).
Proof.
  unfold store_assignments.
  destruct (store_loop_total dp1 url clock1 l 0 (d, mk_stats 0 0 0)) as [[d1 s1] E1].
  destruct (store_loop_total dp2 url clock2 l 0 (d1, mk_stats 0 0 0)) as [[d2 s2] E2].
  exists d1, s1, d2, s2. split; [exact E1|]. split; [exact E2|].
  apply (store_loop_all_present dp2 url clock2 l 0 d1 (mk_stats 0 0 0) d2 s2);
    [|exact E2].
  intros a Ha. eapply store_loop_keys_stored; eauto.
Qed.

(** C10 as stated fails on the title: the label is removed wherever it
    stands, not only as a prefix. The dict with the title
    "Essay Title: Draft" is stored under "Essay Draft", while the title
    without the prefix is the title itself. *)
Lemma title_label_removed_inside :
  (exists d s,
     store_assignments None (fun _ => 0) init_database course [draft] = Some (d, s) /\
     map assignment_name (rows d) = ["Essay Draft"]) /\
  title_without_prefix (default EmptyString (draft !! "title")) = "Essay Title: Draft" /\
  title_of draft <> title_without_prefix (default EmptyString (draft !! "title")).
Proof.
  split; [eexists _, _; vm_compute; split; reflexivity|].
  split; [vm_compute; reflexivity | vm_compute; discriminate].
Qed.

(** C10, amended. [store_assignments] returns for every list, with
    [new + updated = total = n]; the rows added are the [new] ones, so every
    assignment is counted once, as new or as updated; the title looked up
    and stored is the given title with every occurrence of ["Title: "]
    removed, which is the title without the prefix when the label occurs
    nowhere else. *)
Theorem store_assignments_stats dp clock (d : db) (url : string)
    (l : list (gmap string string)) :
  exists d' s,
    store_assignments dp clock d url l = Some (d', s) /\
    new s + updated s = total s /\ total s = Z.of_nat (length l) /\
    0 <= new s /\ 0 <= updated s /\
    Z.of_nat (length (rows d')) = Z.of_nat (length (rows d)) + new s /\
    (forall a, a ∈ l ->
       (url, PyStr.replace (default EmptyString (a !! "title")) "Title: " EmptyString)
         ∈ keys d') /\
    (forall t, PyStr.contains "Title: " t = false ->
       PyStr.replace ("Title: " +:+ t) "Title: " EmptyString
         = title_without_prefix ("Title: " +:+ t) /\
       PyStr.replace t "Title: " EmptyString = title_without_prefix t).
Proof.
  unfold store_assignments.
  destruct (store_loop_total dp url clock l 0 (d, mk_stats 0 0 0)) as [[d' s] E].
  exists d', s. split; [exact E|].
  destruct (store_loop_stats _ _ _ _ _ _ _ _ _ E) as (H1 & H2 & H3 & H4 & H5).
  simpl in H1, H2, H3, H4, H5. repeat (split; [lia|]). split.
  - intros a Ha. exact (store_loop_keys_stored _ _ _ _ _ _ _ _ _ a E Ha).
  - intros t Ht.
    destruct (replace_only_prefix "Title: " t) as [R1 R2]; [discriminate | exact Ht |].
    rewrite R1, R2. split.
    + unfold title_without_prefix, PyStr.startswith. rewrite prefix_app.
      change (String.length ("Title: " +:+ t) - 7)%nat with (String.length t - 0)%nat.
      rewrite Nat.sub_0_r. simpl. symmetry. apply substring_all.
    + unfold title_without_prefix, PyStr.startswith.
      destruct (String.prefix "Title: " t) eqn:P; [|reflexivity].
      apply prefix_contains in P. congruence.
Qed.

Lemma reachable_NoDup (d : db) : reachable d -> NoDup (keys d).
Proof.
  induction 1 as [|dp clock url l d d' s Hr IH Hs|d url name Hr IH
                  |adv py_now sql_now clock d Hr IH].
  - apply NoDup_nil_2.
  - eapply store_loop_NoDup; [exact IH | exact Hs].
  - rewrite keys_mark_as_notified. exact IH.
  - rewrite scan_is_loop, notify_loop_keys. exact IH.
Qed.

(** C4. [(course_url, assignment_name)] is a unique identity. In every
    reachable state of the table no two rows share the pair;
    [store_assignments] returns from such a state, in a reachable state with
    the same property; and extracting again an assignment that is stored
    keeps the list of keys as it is, counts nothing new, and leaves the row
    of that key with the new [due_date_raw], [due_date_parsed] and
    [extracted_at]. *)
Theorem course_title_unique (d : db) :
  reachable d ->
  NoDup (keys d) /\
  (forall dp clock url l, exists d' s,
     store_assignments dp clock d url l = Some (d', s) /\
     NoDup (keys d') /\ reachable d') /\
  (forall dp clock url a, (url, title_of a) ∈ keys d ->
     exists d' s,
       store_assignments dp clock d url [a] = Some (d', s) /\
       keys d' = keys d /\ new s = 0 /\
       forall r, r ∈ rows d' -> row_key r = (url, title_of a) ->
         due_date_raw r = due_date_of a /\
         due_date_parsed r = parse_due_date dp (due_date_of a) /\
         extracted_at r = clock 0%nat).
Proof.
  intros Hr. pose proof (reachable_NoDup d Hr) as Hnd.
  split; [exact Hnd|]. split.
  - intros dp clock url l.
    destruct (store_loop_total dp url clock l 0 (d, mk_stats 0 0 0)) as [[d' s] E].
    exists d', s. split; [exact E|]. split.
    + eapply store_loop_NoDup; [exact Hnd | exact E].
    + eapply reach_store; [exact Hr | exact E].
  - intros dp clock url a Hin. unfold store_assignments. cbn [store_loop].
    rewrite store_one_present by exact Hin.
    eexists _, _. split; [reflexivity|]. split; [apply keys_update_due|].
    split; [reflexivity|]. intros r Hin' Hk. unfold update_due in Hin'; simpl in Hin'.
    rewrite map_is_fmap in Hin'. apply list_elem_of_fmap in Hin' as (r0 & -> & Hr0).
    destruct (matches url (title_of a) r0) eqn:E; [auto|].
    apply matches_false_key in E. contradiction.
Qed.

Lemma essay_db_reachable : reachable essay_db.
Proof.
  apply (reach_store None (fun _ => 0) course [essay] init_database essay_db
           (mk_stats 1 0 1) reach_init).
  vm_compute. reflexivity.
Qed.

(** The table that holds "Essay 1" is reachable and has unique keys. *)
Lemma course_title_unique_witness :
  reachable essay_db /\ NoDup (keys essay_db).
Proof.
  split; [exact essay_db_reachable|].
  exact (proj1 (course_title_unique essay_db essay_db_reachable)).
Defined.

End StorageClaims.

(** * Specified behaviour of the scraper and the date parser *)
Section ScraperClaims.
Import DateTime Scraper Samples.

Lemma is_duplicate_title_member (title existing : string) (found : gset string) :
  existing ∈ found ->
  duplicates (normalize_title title) (normalize_title existing) = true ->
  is_duplicate_title title found = true.
Proof.
  intros Hin Hdup. unfold is_duplicate_title. cbv zeta. apply existsb_exists.
  exists existing. split; [|exact Hdup].
  apply list_elem_of_In, elem_of_elements. exact Hin.
Qed.

(** C7. When the normalized form of [T1] (whitespace runs collapsed to a
    single space, trimmed, lowercased) is a substring of the normalized form
    of [T2], each of the two titles is a duplicate of the other: the one
    that arrives second is dropped in both orders of arrival. *)
Theorem substring_titles_are_duplicates (T1 T2 : string) :
  PyStr.contains (normalized_as_worded T1) (normalized_as_worded T2) = true ->
  is_duplicate_title T2 {[T1]} = true /\ is_duplicate_title T1 {[T2]} = true.
Proof.
  rewrite !normalized_as_worded_eq. intros Hsub. split.
  - apply (is_duplicate_title_member T2 T1); [apply elem_of_singleton; reflexivity|].
    unfold duplicates. rewrite Hsub. apply orb_true_r.
  - apply (is_duplicate_title_member T1 T2); [apply elem_of_singleton; reflexivity|].
    unfold duplicates. rewrite Hsub. rewrite orb_true_r. reflexivity.
Qed.

(** "Lab 1" against a longer, differently spaced and cased title. *)
Lemma substring_titles_are_duplicates_witness :
  PyStr.contains (normalized_as_worded "Lab 1")
                 (normalized_as_worded "  LAB   1 Extended ") = true /\
  is_duplicate_title "  LAB   1 Extended " {["Lab 1"]} = true /\
  is_duplicate_title "Lab 1" {["  LAB   1 Extended "]} = true.
Proof.
  assert (H : PyStr.contains (normalized_as_worded "Lab 1")
                (normalized_as_worded "  LAB   1 Extended ") = true)
    by (vm_compute; reflexivity).
  split; [exact H|].
  exact (substring_titles_are_duplicates "Lab 1" "  LAB   1 Extended " H).
Defined.

Lemma fallback_step_title :
  fallback_step (FallbackState None ∅ []) essay_title
  = FallbackState (Some essay_title) ∅ [].
Proof. vm_compute. reflexivity. Qed.

Lemma fallback_step_due :
  fallback_step (FallbackState (Some essay_title) ∅ []) essay_due_line
  = FallbackState None {[essay_title]} [mk_assignment essay_title essay_due_line].
Proof. vm_compute. reflexivity. Qed.

Lemma fallback_step_other (found : gset string) (acc : list (gmap string string)) :
  fallback_step (FallbackState None found acc) "Lecture Notes Week 1"
  = FallbackState None found acc.
Proof. reflexivity. Qed.

(** C9. On the texts "Assignment: Essay 1", "Due: Friday, 1 September 2025,
    11:59 PM", "Lecture Notes Week 1", in this order, with no title found
    before, the fallback loop emits exactly one assignment: that title with
    that due date. *)
Theorem fallback_pairs_title_with_due_line :
  fallback_method ∅ [] [essay_title; essay_due_line; "Lecture Notes Week 1"]
    = ({[essay_title]}, [mk_assignment essay_title essay_due_line])
  /\ mk_assignment essay_title essay_due_line !! "title" = Some "Assignment: Essay 1"
  /\ mk_assignment essay_title essay_due_line !! "due_date"
       = Some "Due: Friday, 1 September 2025, 11:59 PM".
Proof.
  split; [|split; reflexivity].
  unfold fallback_method. rewrite decide_True by apply size_empty.
  unfold fallback_loop. cbn [foldl].
  rewrite fallback_step_title, fallback_step_due, fallback_step_other.
  reflexivity.
Qed.

Lemma strptime_essay_due :
  strptime "Tuesday, 19 August 2025, 12:00 AM" = Some (mk_datetime 2025 8 19 0 0 0 0).
Proof. vm_compute. reflexivity. Qed.

(** C8. [parse_due_date] maps "Due: Tuesday, 19 August 2025, 12:00 AM" to
    midnight of 19 August 2025, and the sentinel "No due date found" and the
    empty string to [None]. The optional [dateparser] module is either
    absent or, on the cleaned text, gives nothing or gives that instant. *)
Theorem parse_due_date_round_trip (dp : option (string -> option datetime)) :
  (forall parse, dp = Some parse ->
     parse "Tuesday, 19 August 2025, 12:00 AM" = None \/
     parse "Tuesday, 19 August 2025, 12:00 AM" = Some (mk_datetime 2025 8 19 0 0 0 0)) ->
  parse_due_date dp "Due: Tuesday, 19 August 2025, 12:00 AM"
    = Some (mk_datetime 2025 8 19 0 0 0 0)
  /\ parse_due_date dp "No due date found" = None
  /\ parse_due_date dp EmptyString = None.
Proof.
  intros Hdp. split; [|split; reflexivity].
  unfold parse_due_date.
  change (negb (PyStr.truthy "Due: Tuesday, 19 August 2025, 12:00 AM")
          || ("Due: Tuesday, 19 August 2025, 12:00 AM" =? "No due date found")%string)
    with false. cbv iota zeta.
  replace (PyStr.strip (PyStr.replace "Due: Tuesday, 19 August 2025, 12:00 AM" "Due:" EmptyString))
    with "Tuesday, 19 August 2025, 12:00 AM" by (vm_compute; reflexivity).
  rewrite strptime_essay_due.
  destruct dp as [parse|]; [|reflexivity].
  destruct (Hdp parse eq_refl) as [-> | ->]; reflexivity.
Qed.

(** Without the optional module, the fixed format alone gives the instant. *)
Lemma parse_due_date_round_trip_witness :
  parse_due_date None "Due: Tuesday, 19 August 2025, 12:00 AM"
    = Some (mk_datetime 2025 8 19 0 0 0 0)
  /\ parse_due_date None "No due date found" = None
  /\ parse_due_date None EmptyString = None.
Proof.
  apply (parse_due_date_round_trip None). intros parse H. discriminate H.
Defined.

End ScraperClaims.

(** * Specified behaviour of the deadline scan *)
Section NotifierClaims.
Import DateTime Storage Notifier Samples MoreSamples.

Implicit Types (d : db) (r : row).

Lemma upcoming_has_due d py_now sql_now days i a :
  get_upcoming_deadlines d py_now sql_now days !! i = Some a -> has_due a = true.
Proof.
  intros Hi. apply list_elem_of_lookup_2 in Hi.
  apply upcoming_elem in Hi as (r & _ & Hw & ->).
  eapply in_window_has_due. exact Hw.
Qed.

(** With unique keys, a dispatch of the scan for the key of a stored row is
    a dispatch for that row. *)
Lemma sent_key_row adv py_now sql_now clock d r ev :
  NoDup (keys d) -> r ∈ rows d ->
  ev ∈ snd (check_and_notify_deadlines adv py_now sql_now clock d) ->
  dl_key (sent_for ev) = row_key r ->
  sent_for ev = deadline_of r.
Proof.
  intros Hnd Hr Hev Hk. rewrite scan_is_loop in Hev.
  apply notify_loop_sent in Hev as (j & Hj & _).
  apply list_elem_of_lookup_2 in Hj.
  apply upcoming_elem in Hj as (r0 & Hr0 & _ & Heq).
  rewrite Heq. f_equal. apply (NoDup_keys_row d r0 r Hnd Hr0 Hr).
  rewrite <- Hk, Heq. reflexivity.
Qed.

(** The row of a record that the scan dispatches for: marked, and alone
    under its key. *)
Lemma scan_row_dispatched adv py_now sql_now clock d r ev :
  NoDup (keys d) -> r ∈ rows d ->
  ev ∈ snd (check_and_notify_deadlines adv py_now sql_now clock d) ->
  sent_for ev = deadline_of r ->
  forall r',
    r' ∈ rows (fst (check_and_notify_deadlines adv py_now sql_now clock d))
    /\ row_key r' = row_key r <-> r' = set_notified r.
Proof.
  intros Hnd Hr Hev Hfor r'. rewrite scan_is_loop in *.
  rewrite (notify_loop_row _ _ _ _ d r r' Hnd Hr).
  unfold mark_all. rewrite (proj2 (marked_by_true _ r)); [reflexivity|].
  exists ev. split; [exact Hev|]. rewrite Hfor. reflexivity.
Qed.

(** The row of a record that the scan does not dispatch for: as it was. *)
Lemma scan_row_untouched adv py_now sql_now clock d r :
  NoDup (keys d) -> r ∈ rows d ->
  (forall ev, ev ∈ snd (check_and_notify_deadlines adv py_now sql_now clock d) ->
              sent_for ev <> deadline_of r) ->
  forall r',
    r' ∈ rows (fst (check_and_notify_deadlines adv py_now sql_now clock d))
    /\ row_key r' = row_key r <-> r' = r.
Proof.
  intros Hnd Hr Hno r'.
  assert (marked_by (snd (check_and_notify_deadlines adv py_now sql_now clock d)) r
          = false) as Hm.
  { destruct (marked_by _ r) eqn:E; [|reflexivity].
    apply marked_by_true in E as (ev & Hev & Hk). exfalso.
    apply (Hno ev Hev). eapply sent_key_row; eauto. }
  rewrite scan_is_loop in *.
  rewrite (notify_loop_row _ _ _ _ d r r' Hnd Hr).
  unfold mark_all. rewrite Hm. reflexivity.
Qed.

(** A record that the scan reaches and whose number of days passes the test
    is dispatched for, and marked. *)
Lemma scan_dispatches_reached adv py_now sql_now clock d r i n :
  NoDup (keys d) -> r ∈ rows d -> notified r = false ->
  get_upcoming_deadlines d py_now sql_now 30 !! i = Some (deadline_of r) ->
  (forall j a, (j < i)%nat ->
     get_upcoming_deadlines d py_now sql_now 30 !! j = Some a ->
     raises_at a = false) ->
  days_until (deadline_of r) (clock i) = Some n ->
  due_for_reminder adv n = true ->
  (mk_dispatch (deadline_of r) n
     ∈ snd (check_and_notify_deadlines adv py_now sql_now clock d)) /\
  (forall r',
     r' ∈ rows (fst (check_and_notify_deadlines adv py_now sql_now clock d))
     /\ row_key r' = row_key r <-> r' = set_notified r).
Proof.
  intros Hnd Hr Hflag Hi Hbefore Hn Hrem.
  assert (Hsent : mk_dispatch (deadline_of r) n
                    ∈ snd (check_and_notify_deadlines adv py_now sql_now clock d)).
  { rewrite scan_is_loop.
    exact (notify_loop_dispatches adv clock _ 0 d i (deadline_of r) n
             Hi Hbefore Hflag Hn Hrem). }
  split; [exact Hsent|].
  apply (scan_row_dispatched adv py_now sql_now clock d r _ Hnd Hr Hsent eq_refl).
Qed.

(** C1 as stated fails. "Essay 1" was due on 19 August at midnight and is
    not notified; on 20 August at 9:00 its [days_until] is negative, the
    window query returns nothing, and the scan returns having dispatched
    nothing. *)
Lemma overdue_record_not_dispatched :
  essay_row ∈ rows essay_db /\ notified essay_row = false /\
  days_until (deadline_of essay_row) (august 20 9 0) = Some (-2) /\
  get_upcoming_deadlines essay_db (august 20 9 0) (august 20 9 0) 30 = [] /\
  check_and_notify_deadlines default_advance_days (august 20 9 0) (august 20 9 0)
    (fun _ => august 20 9 0) essay_db = (essay_db, []) /\
  check_and_notify_deadlines_or_raise default_advance_days
    (august 20 9 0) (august 20 9 0) (fun _ => august 20 9 0) essay_db
    = (essay_db, [], Returned).
Proof.
  split; [left|]. split; [reflexivity|].
  split; [vm_compute; reflexivity|].
  split; [vm_compute; reflexivity|]. split; vm_compute; reflexivity.
Qed.

(** C1, amended. For a stored record that is not notified, in a table with
    unique keys: when it is due before the [now] of the window query, the
    query does not return it, the scan dispatches nothing for it and leaves
    it as it is; when it lies in the window, strictly before its end if its
    due date is aware of a time zone, and the end of the window is a date
    that [datetime] holds, the query returns it; and when the query returns
    it, no dict before it in the list makes the loop raise, and its
    [days_until] is at most 1 in its iteration (negative when the due date
    passed after the query), the scan dispatches for it whatever the
    thresholds are, and marks it. *)
Theorem scan_overdue_and_imminent (adv : list Z) (py_now sql_now : Z)
    (clock : nat -> Z) d r (t : datetime) :
  NoDup (keys d) -> r ∈ rows d -> notified r = false ->
  due_date_parsed r = Some t ->
  (to_us t < sql_now ->
     (deadline_of r ∉ get_upcoming_deadlines d py_now sql_now 30) /\
     (forall ev, ev ∈ snd (check_and_notify_deadlines adv py_now sql_now clock d) ->
                 sent_for ev <> deadline_of r) /\
     (forall r',
        r' ∈ rows (fst (check_and_notify_deadlines adv py_now sql_now clock d))
        /\ row_key r' = row_key r <-> r' = r)) /\
  (sql_now <= to_us t <= py_now + 30 * us_per_day ->
   (aware t = true -> to_us t < py_now + 30 * us_per_day) ->
   min_us <= py_now + 30 * us_per_day <= max_us ->
     exists i, get_upcoming_deadlines d py_now sql_now 30 !! i = Some (deadline_of r)) /\
  (forall i n,
     get_upcoming_deadlines d py_now sql_now 30 !! i = Some (deadline_of r) ->
     (forall j a, (j < i)%nat ->
        get_upcoming_deadlines d py_now sql_now 30 !! j = Some a ->
        raises_at a = false) ->
     days_until (deadline_of r) (clock i) = Some n ->
     n <= 1 ->
     (mk_dispatch (deadline_of r) n
        ∈ snd (check_and_notify_deadlines adv py_now sql_now clock d)) /\
     (forall r',
        r' ∈ rows (fst (check_and_notify_deadlines adv py_now sql_now clock d))
        /\ row_key r' = row_key r <-> r' = set_notified r)).
Proof.
  intros Hnd Hr Hflag Hdue.
  assert (Hout : to_us t < sql_now ->
                 deadline_of r ∉ get_upcoming_deadlines d py_now sql_now 30).
  { intros Hlt Hin. apply upcoming_elem in Hin as (r0 & Hr0 & Hw & Heq).
    assert (due_date_parsed r0 = Some t) as Hd0.
    { rewrite <- Hdue. change (dl_due_date_parsed (deadline_of r0)
                               = dl_due_date_parsed (deadline_of r)).
      rewrite Heq. reflexivity. }
    apply in_window_bounds in Hw as (t0 & Ht0 & Hw). rewrite Hd0 in Ht0.
    injection Ht0 as <-. lia. }
  split; [|split].
  - intros Hlt. specialize (Hout Hlt). split; [exact Hout|].
    assert (Hno : forall ev,
              ev ∈ snd (check_and_notify_deadlines adv py_now sql_now clock d) ->
              sent_for ev <> deadline_of r).
    { intros ev Hev Heq. rewrite scan_is_loop in Hev.
      apply notify_loop_sent in Hev as (j & Hj & _).
      apply Hout. rewrite <- Heq. eapply list_elem_of_lookup_2. exact Hj. }
    split; [exact Hno|]. apply scan_row_untouched; assumption.
  - intros [Hlo Hhi] Hstrict Hrange. apply list_elem_of_lookup.
    destruct (upcoming_cases d py_now sql_now 30) as [(E & _)|(_ & _ & ->)].
    { exfalso. unfold add_days in E. cbv zeta in E.
      rewrite (proj2 (Z.leb_le _ _) (proj1 Hrange)) in E.
      rewrite (proj2 (Z.leb_le _ _) (proj2 Hrange)) in E.
      discriminate E. }
    apply select_upcoming_elem.
    exists r. split; [exact Hr|]. split; [|reflexivity].
    unfold in_window. rewrite Hdue. apply andb_true_iff.
    split; [apply Z.leb_le; exact Hlo|].
    destruct (aware t); [apply Z.ltb_lt; auto | apply Z.leb_le; exact Hhi].
  - intros i n Hi Hbefore Hn Hdays.
    apply (scan_dispatches_reached adv py_now sql_now clock d r i n); try assumption.
    unfold due_for_reminder. apply orb_true_iff. right. apply Z.leb_le.
    exact Hdays.
Qed.

Lemma essay_db_NoDup : NoDup (keys essay_db).
Proof. apply NoDup_singleton. Qed.

(** "Essay 1" on 20 August, a day late, and on 18 August at noon, due the
    same night, with no threshold configured. *)
Lemma scan_overdue_and_imminent_witness :
  (deadline_of essay_row
     ∉ get_upcoming_deadlines essay_db (august 20 9 0) (august 20 9 0) 30) /\
  (exists i : nat,
     get_upcoming_deadlines essay_db (august 18 12 0) (august 18 12 0) 30 !! i
     = Some (deadline_of essay_row)) /\
  (mk_dispatch (deadline_of essay_row) 0
     ∈ snd (check_and_notify_deadlines [] (august 18 12 0) (august 18 12 0)
              (fun _ => august 18 12 0) essay_db)).
Proof.
  assert (Hin : essay_row ∈ rows essay_db) by left.
  split; [|split].
  - destruct (scan_overdue_and_imminent [] (august 20 9 0) (august 20 9 0)
                (fun _ => august 20 9 0) essay_db essay_row essay_due
                essay_db_NoDup Hin eq_refl eq_refl) as (Ha & _ & _).
    apply Ha. vm_compute. reflexivity.
  - destruct (scan_overdue_and_imminent [] (august 18 12 0) (august 18 12 0)
                (fun _ => august 18 12 0) essay_db essay_row essay_due
                essay_db_NoDup Hin eq_refl eq_refl) as (_ & Hb & _).
    apply Hb.
    + vm_compute. split; discriminate.
    + vm_compute. discriminate.
    + vm_compute. split; discriminate.
  - destruct (scan_overdue_and_imminent [] (august 18 12 0) (august 18 12 0)
                (fun _ => august 18 12 0) essay_db essay_row essay_due
                essay_db_NoDup Hin eq_refl eq_refl) as (_ & _ & Hc).
    assert (Hi : get_upcoming_deadlines essay_db (august 18 12 0) (august 18 12 0) 30
                   !! 0%nat = Some (deadline_of essay_row))
      by (vm_compute; reflexivity).
    assert (Hb : forall (j : nat) (a : deadline), (j < 0)%nat ->
              get_upcoming_deadlines essay_db (august 18 12 0) (august 18 12 0) 30
                !! j = Some a -> raises_at a = false)
      by (intros j a Hj; lia).
    assert (Hn : days_until (deadline_of essay_row) (august 18 12 0) = Some 0)
      by (vm_compute; reflexivity).
    assert (Hd : 0 <= 1) by lia.
    exact (proj1 (Hc 0%nat 0 Hi Hb Hn Hd)).
Defined.

(** C2 fails on a table that holds a due date aware of its time zone.
    "Report 1" and "Lab Assignment 2" are stored with [dateparser] present;
    the due date of the report names a time zone and comes back aware. On
    16 August at noon the window query returns both, the report first; the
    lab is not notified and its [days_until] is 3; the subtraction for the
    report raises, and the scan ends there, with nothing dispatched and the
    table as it was. The run of [process_assignments] that scrapes the two
    on that day raises as well, after it has stored them. *)
Theorem scan_raises_before_record_due_in_three_days :
  store_assignments (Some zone_parser) (fun _ => 0) init_database course [report; lab]
    = Some (zoned_db, mk_stats 2 0 2) /\
  lab_row ∈ rows zoned_db /\ notified lab_row = false /\
  get_upcoming_deadlines zoned_db (august 16 12 0) (august 16 12 0) 30
    = [deadline_of report_row; deadline_of lab_row] /\
  days_until (deadline_of lab_row) (august 16 12 0) = Some 3 /\
  days_until (deadline_of report_row) (august 16 12 0) = None /\
  check_and_notify_deadlines_or_raise default_advance_days
    (august 16 12 0) (august 16 12 0) (fun _ => august 16 12 0) zoned_db
    = (zoned_db, [], Raised) /\
  Pipeline.process_assignments (Some zone_parser) (fun _ => 0) default_advance_days
    (august 16 12 0) (august 16 12 0) (fun _ => august 16 12 0)
    init_database course [report; lab]
    = Pipeline.mk_outcome zoned_db None (Some (mk_stats 2 0 2)) [].
Proof.
  split; [vm_compute; reflexivity|].
  split; [right; left|]. split; [reflexivity|].
  split; [vm_compute; reflexivity|].
  split; [vm_compute; reflexivity|].
  split; [vm_compute; reflexivity|].
  split; vm_compute; reflexivity.
Qed.

End NotifierClaims.

(** * More on the storage layer *)
Section StorageExtras.
Import DateTime Storage Notifier Agent History Samples.

Implicit Types (d : db) (r : row) (url : string).

Lemma identity_and_flag_eq r r' :
  identity_and_flag r' = identity_and_flag r ->
  id r' = id r /\ course_url r' = course_url r /\
  assignment_name r' = assignment_name r /\ notified r' = notified r.
Proof. unfold identity_and_flag, row_key. intros [= -> -> -> ->]. auto. Qed.

Lemma grows_for_refl url d : grows_for url d d.
Proof.
  split; [|split; [|split; lia]].
  - intros i r Hi. exists r. auto.
  - intros i r Hi Hge. apply lookup_lt_Some in Hi. lia.
Qed.

Lemma grows_for_trans url d1 d2 d3 :
  grows_for url d1 d2 -> grows_for url d2 d3 -> grows_for url d1 d3.
Proof.
  intros (A1 & A2 & A3 & A4) (B1 & B2 & B3 & B4).
  split; [|split; [|split; lia]].
  - intros i r Hi. destruct (A1 i r Hi) as (r' & Hi' & He & Hu).
    destruct (B1 i r' Hi') as (r'' & Hi'' & He' & Hu').
    exists r''. split; [exact Hi''|]. split; [congruence|].
    intros Hne. rewrite <- (Hu Hne). apply Hu'. rewrite (Hu Hne). exact Hne.
  - intros i r'' Hi'' Hge.
    destruct (decide (i < length (rows d2))%nat) as [Hlt|Hnlt].
    + apply lookup_lt_is_Some_2 in Hlt as [r' Hi'].
      destruct (A2 i r' Hi' Hge) as (Hc & Hn & Hid).
      destruct (B1 i r' Hi') as (r2 & Hi2 & He & _).
      assert (r2 = r'') as -> by congruence.
      apply identity_and_flag_eq in He as (E1 & E2 & E3 & E4).
      rewrite E1, E2, E4. repeat split; auto; lia.
    + destruct (B2 i r'' Hi'' ltac:(lia)) as (Hc & Hn & Hid).
      repeat split; auto; lia.
Qed.

Lemma store_one_grows dp url now d s a d' s' :
  store_one dp url now (d, s) a = Some (d', s') -> grows_for url d d'.
Proof.
  destruct (decide ((url, title_of a) ∈ keys d)) as [Hin|Hin].
  - rewrite store_one_present by exact Hin. intros [= <- <-].
    unfold grows_for, update_due; simpl. rewrite length_map.
    split; [|split; [|split; lia]].
    + intros i r Hi. rewrite lookup_map, Hi. simpl. eexists. split; [reflexivity|].
      destruct (matches url (title_of a) r) eqn:E; [|auto].
      split; [reflexivity|]. intros Hne. apply matches_key in E.
      injection E as E _. contradiction.
    + intros i r' Hi Hge. apply lookup_lt_Some in Hi. rewrite length_map in Hi. lia.
  - rewrite store_one_absent by exact Hin. intros [= <- <-].
    unfold grows_for; simpl. rewrite length_app; simpl.
    split; [|split; [|split; lia]].
    + intros i r Hi. exists r. split; [|auto].
      rewrite lookup_app_l by (eapply lookup_lt_Some; exact Hi). exact Hi.
    + intros i r' Hi Hge. rewrite lookup_app_r in Hi by exact Hge.
      destruct (i - length (rows d))%nat; [|discriminate].
      injection Hi as <-. simpl. repeat split; lia.
Qed.

Lemma store_loop_grows dp url clock l : forall i d s d' s',
  store_loop dp url clock i l (d, s) = Some (d', s') -> grows_for url d d'.
Proof.
  induction l as [|a l IH]; intros i d s d' s'; cbn [store_loop].
  - intros [= <- <-]. apply grows_for_refl.
  - destruct (store_one dp url (clock i) (d, s) a) as [[d1 s1]|] eqn:E;
      [|discriminate].
    intros H. eapply grows_for_trans; [eapply store_one_grows; exact E|].
    eapply IH. exact H.
Qed.

(** X1. A call of [store_assignments] for a course never deletes or moves
    a row, never changes an id, a key or a [notified] flag, and leaves the
    rows of every other course exactly as they were; the rows it adds come
    after the old ones, belong to the course, are not notified, and have
    fresh ids. *)
Theorem store_assignments_frame dp clock d url (l : list (gmap string string)) d' s :
  store_assignments dp clock d url l = Some (d', s) ->
  (forall i r, rows d !! i = Some r ->
     exists r', rows d' !! i = Some r' /\
       id r' = id r /\ row_key r' = row_key r /\ notified r' = notified r /\
       (course_url r <> url -> r' = r)) /\
  (forall i r', rows d' !! i = Some r' -> (length (rows d) <= i)%nat ->
     course_url r' = url /\ notified r' = false /\
     last_id d < id r' <= last_id d').
Proof.
  intros H. apply store_loop_grows in H as (P1 & P2 & _). split; [|exact P2].
  intros i r Hi. destruct (P1 i r Hi) as (r' & Hi' & He & Hu).
  exists r'. split; [exact Hi'|].
  pose proof He as He'. apply identity_and_flag_eq in He' as (E1 & E2 & E3 & E4).
  unfold row_key. rewrite E1, E2, E3, E4. auto.
Qed.

(** A new title stored after "Essay 1": the old row stays, the new one
    follows it. *)
Lemma store_assignments_frame_witness :
  exists d' s,
    store_assignments None (fun _ => 7) essay_db course [draft] = Some (d', s) /\
    (forall i r, rows essay_db !! i = Some r ->
       exists r', rows d' !! i = Some r' /\
         id r' = id r /\ row_key r' = row_key r /\ notified r' = notified r /\
         (course_url r <> course -> r' = r)).
Proof.
  destruct (store_assignments None (fun _ => 7) essay_db course [draft])
    as [[d' s]|] eqn:H; [|vm_compute in H; discriminate H].
  exists d', s. split; [reflexivity|].
  exact (proj1 (store_assignments_frame None (fun _ => 7) essay_db course [draft]
                  d' s H)).
Defined.

Lemma ids_in_sequence_map (f : row -> row) d :
  (forall r, id (f r) = id r) ->
  ids_in_sequence d -> ids_in_sequence (mk_db (map f (rows d)) (last_id d)).
Proof.
  intros Hf [H1 H2]. split; simpl.
  - rewrite length_map. exact H1.
  - intros i r Hi. rewrite lookup_map in Hi.
    destruct (rows d !! i) as [r0|] eqn:E; [|discriminate].
    injection Hi as <-. rewrite Hf. apply H2. exact E.
Qed.

Lemma store_one_ids dp url now d s a d' s' :
  ids_in_sequence d -> store_one dp url now (d, s) a = Some (d', s') ->
  ids_in_sequence d'.
Proof.
  intros Hids. destruct (decide ((url, title_of a) ∈ keys d)) as [Hin|Hin].
  - rewrite store_one_present by exact Hin. intros [= <- <-].
    apply ids_in_sequence_map; [|exact Hids].
    intros r. destruct (matches url (title_of a) r); reflexivity.
  - rewrite store_one_absent by exact Hin. intros [= <- <-].
    destruct Hids as [H1 H2]. split; simpl.
    + rewrite length_app; simpl. lia.
    + intros i r Hi.
      destruct (decide (i < length (rows d))%nat) as [Hlt|Hge].
      * rewrite lookup_app_l in Hi by exact Hlt. apply H2. exact Hi.
      * rewrite lookup_app_r in Hi by lia.
        destruct (i - length (rows d))%nat eqn:E; [|discriminate].
        injection Hi as <-. simpl. lia.
Qed.

Lemma scan_rows adv py_now sql_now clock d :
  fst (check_and_notify_deadlines adv py_now sql_now clock d)
  = mk_db (map (mark_all (snd (check_and_notify_deadlines adv py_now sql_now clock d)))
               (rows d))
          (last_id d).
Proof.
  rewrite scan_is_loop.
  destruct (notify_loop_rows adv clock
              (get_upcoming_deadlines d py_now sql_now 30) 0 d) as [H1 H2].
  destruct (notify_loop adv clock 0 _ d).1 as [[rs li] sent]. simpl in *.
  congruence.
Qed.

Lemma mark_all_id sent r : id (mark_all sent r) = id r.
Proof. unfold mark_all. destruct (marked_by sent r); reflexivity. Qed.

Lemma reachable_ids d : reachable d -> ids_in_sequence d.
Proof.
  induction 1 as [|dp clock url l d d' s Hr IH Hs|d url name Hr IH
                  |adv py_now sql_now clock d Hr IH].
  - split; [reflexivity|]. intros i r Hi. discriminate Hi.
  - apply (store_loop_invariant (fun st => ids_in_sequence (fst st)) dp url clock)
      with (l := l) (i := 0%nat) (st := (d, mk_stats 0 0 0)) (st' := (d', s));
      auto.
    intros now [d0 s0] a [d1 s1]; simpl. apply store_one_ids.
  - apply ids_in_sequence_map; [|exact IH].
    intros r. destruct (matches url name r); reflexivity.
  - rewrite scan_rows. apply ids_in_sequence_map; [apply mark_all_id | exact IH].
Qed.

(** X2. In every reachable state the ids are 1, 2, 3, ... in the order of
    insertion: the row at place [i] has id [i + 1], the last id given out
    is the number of rows, and so no two rows share an id. *)
Theorem ids_follow_insertion_order d :
  reachable d ->
  last_id d = Z.of_nat (length (rows d)) /\
  (forall i r, rows d !! i = Some r -> id r = Z.of_nat i + 1) /\
  NoDup (map id (rows d)).
Proof.
  intros Hr. destruct (reachable_ids d Hr) as [H1 H2].
  split; [exact H1|]. split; [exact H2|].
  apply NoDup_alt. intros i j x Hi Hj. rewrite lookup_map in Hi, Hj.
  destruct (rows d !! i) as [ri|] eqn:Ei; [|discriminate].
  destruct (rows d !! j) as [rj|] eqn:Ej; [|discriminate].
  injection Hi as Hi. injection Hj as Hj.
  rewrite (H2 i ri Ei) in Hi. rewrite (H2 j rj Ej) in Hj. lia.
Qed.

(** The table that holds "Essay 1" alone: one row, id 1. *)
Lemma ids_follow_insertion_order_witness :
  reachable essay_db /\ last_id essay_db = Z.of_nat (length (rows essay_db)).
Proof.
  split; [exact essay_db_reachable|].
  exact (proj1 (ids_follow_insertion_order essay_db essay_db_reachable)).
Defined.

Lemma store_loop_app dp url clock l1 l2 : forall i st,
  store_loop dp url clock i (l1 ++ l2) st
  = match store_loop dp url clock i l1 st with
    | Some st' => store_loop dp url clock (i + length l1) l2 st'
    | None => None
    end.
Proof.
  induction l1 as [|a l1 IH]; intros i st; cbn [store_loop app length].
  - rewrite Nat.add_0_r. reflexivity.
  - destruct (store_one dp url (clock i) st a) as [st1|]; [|reflexivity].
    rewrite IH. replace (S i + length l1)%nat with (i + S (length l1))%nat by lia.
    reflexivity.
Qed.

Lemma store_one_key_holds dp url now d s a d' s' :
  store_one dp url now (d, s) a = Some (d', s') ->
  key_holds d' (url, title_of a) (due_date_of a)
            (parse_due_date dp (due_date_of a)) now.
Proof.
  intros H. split; [eapply store_one_key_stored; exact H|]. revert H.
  destruct (decide ((url, title_of a) ∈ keys d)) as [Hin|Hin].
  - rewrite store_one_present by exact Hin. intros [= <- <-] r Hr Hk.
    unfold update_due in Hr; simpl in Hr. rewrite map_is_fmap in Hr.
    apply list_elem_of_fmap in Hr as (r0 & -> & Hr0).
    destruct (matches url (title_of a) r0) eqn:E; [auto|].
    apply matches_false_key in E. contradiction.
  - rewrite store_one_absent by exact Hin. intros [= <- <-] r Hr Hk.
    simpl in Hr. apply elem_of_app in Hr as [Hr|Hr].
    + exfalso. apply Hin. rewrite <- Hk. unfold keys. rewrite map_is_fmap.
      apply list_elem_of_fmap_2. exact Hr.
    + apply list_elem_of_singleton in Hr. subst r. auto.
Qed.

Lemma store_one_other_key dp url now d s b d' s' k raw parsed t :
  k <> (url, title_of b) ->
  store_one dp url now (d, s) b = Some (d', s') ->
  key_holds d k raw parsed t -> key_holds d' k raw parsed t.
Proof.
  intros Hne H [Hk Hall]. split; [eapply store_one_keys_mono; eauto|]. revert H.
  destruct (decide ((url, title_of b) ∈ keys d)) as [Hin|Hin].
  - rewrite store_one_present by exact Hin. intros [= <- <-] r Hr Hkr.
    unfold update_due in Hr; simpl in Hr. rewrite map_is_fmap in Hr.
    apply list_elem_of_fmap in Hr as (r0 & -> & Hr0).
    destruct (matches url (title_of b) r0) eqn:E.
    + apply matches_key in E. exfalso. apply Hne. rewrite <- Hkr. exact E.
    + apply Hall; assumption.
  - rewrite store_one_absent by exact Hin. intros [= <- <-] r Hr Hkr.
    simpl in Hr. apply elem_of_app in Hr as [Hr|Hr]; [apply Hall; assumption|].
    apply list_elem_of_singleton in Hr. subst r. exfalso. apply Hne.
    rewrite <- Hkr. reflexivity.
Qed.

Lemma store_loop_other_keys dp url clock l k raw parsed t : forall i d s d' s',
  (forall b, b ∈ l -> k <> (url, title_of b)) ->
  store_loop dp url clock i l (d, s) = Some (d', s') ->
  key_holds d k raw parsed t -> key_holds d' k raw parsed t.
Proof.
  induction l as [|b l IH]; intros i d s d' s' Hne; cbn [store_loop].
  - intros [= <- <-]. auto.
  - destruct (store_one dp url (clock i) (d, s) b) as [[d1 s1]|] eqn:E;
      [|discriminate].
    intros H Hk. eapply IH; [|exact H|].
    + intros c Hc. apply Hne. right. exact Hc.
    + eapply store_one_other_key; [|exact E|exact Hk]. apply Hne. left.
Qed.

Lemma last_write_key_holds dp clock d url (l1 : list (gmap string string)) a l2 d' s :
  (forall b, b ∈ l2 -> title_of b <> title_of a) ->
  store_assignments dp clock d url (l1 ++ a :: l2) = Some (d', s) ->
  key_holds d' (url, title_of a) (due_date_of a)
            (parse_due_date dp (due_date_of a)) (clock (length l1)).
Proof.
  intros Hlast. unfold store_assignments. rewrite store_loop_app.
  destruct (store_loop dp url clock 0 l1 (d, mk_stats 0 0 0)) as [[d1 s1]|];
    [|discriminate].
  cbn [store_loop Nat.add].
  destruct (store_one dp url (clock (length l1)) (d1, s1) a) as [[d2 s2]|] eqn:E;
    [|discriminate].
  intros H. eapply store_loop_other_keys; [|exact H|].
  - intros b Hb [= Heq]. apply (Hlast b Hb). symmetry. exact Heq.
  - eapply store_one_key_holds. exact E.
Qed.

(** X3. Within one call of [store_assignments] the last assignment of a
    title wins: when no later assignment of the list has the same stored
    title, the table ends with a row of that key, and every row of that key
    holds its raw due date, the parse of it, and the time of its write. *)
Theorem last_write_wins dp clock d url (l1 : list (gmap string string)) a l2 d' s :
  (forall b, b ∈ l2 -> title_of b <> title_of a) ->
  store_assignments dp clock d url (l1 ++ a :: l2) = Some (d', s) ->
  (url, title_of a) ∈ keys d' /\
  forall r, r ∈ rows d' -> row_key r = (url, title_of a) ->
    due_date_raw r = due_date_of a /\
    due_date_parsed r = parse_due_date dp (due_date_of a) /\
    extracted_at r = clock (length l1).
Proof.
  intros Hlast H. exact (last_write_key_holds dp clock d url l1 a l2 d' s Hlast H).
Qed.

(** "Essay 1" scraped twice in one list, first without a due date: the row
    holds the due date of the second. *)
Lemma last_write_wins_witness :
  exists d' s,
    store_assignments None (fun i => Z.of_nat i) init_database course
      ([Scraper.mk_assignment "Essay 1" "No due date found"] ++ essay :: [draft])
    = Some (d', s) /\
    (course, title_of essay) ∈ keys d' /\
    forall r, r ∈ rows d' -> row_key r = (course, title_of essay) ->
      due_date_raw r = due_date_of essay /\
      due_date_parsed r = parse_due_date None (due_date_of essay) /\
      extracted_at r = 1.
Proof.
  destruct (store_assignments None (fun i => Z.of_nat i) init_database course
              ([Scraper.mk_assignment "Essay 1" "No due date found"] ++ essay :: [draft]))
    as [[d' s]|] eqn:H; [|vm_compute in H; discriminate H].
  exists d', s. split; [reflexivity|].
  apply (last_write_wins None (fun i => Z.of_nat i) init_database course
           [Scraper.mk_assignment "Essay 1" "No due date found"] essay [draft] d' s);
    [|exact H].
  intros b Hb. apply list_elem_of_singleton in Hb. subst b.
  vm_compute. discriminate.
Defined.

Lemma step_keeps_rows d d' :
  step d d' ->
  forall i r, rows d !! i = Some r ->
    exists r', rows d' !! i = Some r' /\ id r' = id r /\ row_key r' = row_key r /\
      (notified r = true -> notified r' = true).
Proof.
  intros Hstep i r Hi.
  destruct Hstep as [dp clock url l d d' s Hs|d url name|adv py_now sql_now clock d].
  - apply store_loop_grows in Hs as (P1 & _).
    destruct (P1 i r Hi) as (r' & Hi' & He & _). exists r'. split; [exact Hi'|].
    apply identity_and_flag_eq in He as (E1 & E2 & E3 & E4).
    unfold row_key. rewrite E1, E2, E3, E4. auto.
  - unfold mark_as_notified; simpl. rewrite lookup_map, Hi. simpl.
    eexists. split; [reflexivity|].
    destruct (matches url name r); auto.
  - rewrite scan_rows; simpl. rewrite lookup_map, Hi. simpl.
    eexists. split; [reflexivity|]. unfold mark_all.
    destruct (marked_by _ r); auto.
Qed.

(** X4. The [notified] flag is a latch, and rows are for ever: through any
    sequence of writes of the program ([store_assignments],
    [mark_as_notified], the scan) a row keeps its place, its id and its key,
    and once notified it stays notified. *)
Theorem notified_is_a_latch d d' :
  rtc step d d' ->
  forall i r, rows d !! i = Some r ->
    exists r', rows d' !! i = Some r' /\ id r' = id r /\ row_key r' = row_key r /\
      (notified r = true -> notified r' = true).
Proof.
  induction 1 as [d|d1 d2 d3 H12 H23 IH]; intros i r Hi.
  - exists r. auto.
  - destruct (step_keeps_rows d1 d2 H12 i r Hi) as (r2 & Hi2 & E1 & E2 & E3).
    destruct (IH i r2 Hi2) as (r3 & Hi3 & F1 & F2 & F3).
    exists r3. split; [exact Hi3|]. repeat split; try congruence. auto.
Qed.

(** "Essay 1" marked, then extracted again: still notified. *)
Lemma notified_is_a_latch_witness :
  exists d',
    rtc step essay_db d' /\
    exists r', rows d' !! 0%nat = Some r' /\ notified r' = true.
Proof.
  destruct (store_assignments None (fun _ => 9)
              (mark_as_notified essay_db course "Essay 1") course [essay])
    as [[d' s]|] eqn:H; [|vm_compute in H; discriminate H].
  assert (Hsteps : rtc step (mark_as_notified essay_db course "Essay 1") d').
  { apply rtc_once. eapply step_store. exact H. }
  exists d'. split.
  - eapply rtc_l; [apply step_mark | exact Hsteps].
  - destruct (notified_is_a_latch _ _ Hsteps 0%nat
                (set_notified essay_row) eq_refl) as (r' & Hr' & _ & _ & Hn).
    exists r'. split; [exact Hr' | exact (Hn eq_refl)].
Defined.

End StorageExtras.

(** * The two listings of the table *)
Section ListingExtras.
Import DateTime Storage Notifier Listing Samples.

Implicit Types (d : db) (r : row).

#[local] Instance column_le_transitive : Transitive column_le.
Proof.
  intros x y z. unfold column_le, text_le.
  destruct x, y, z; try tauto; lia.
Qed.

#[local] Instance column_le_total : Total column_le.
Proof.
  intros x y. unfold column_le, text_le.
  destruct x, y; try tauto; lia.
Qed.

#[local] Instance due_le_transitive : Transitive due_le.
Proof. intros x y z. unfold due_le. apply column_le_transitive. Qed.

#[local] Instance due_le_total : Total due_le.
Proof. intros x y. unfold due_le. apply column_le_total. Qed.

#[local] Instance row_le_transitive : Transitive row_le.
Proof. intros x y z. unfold row_le. apply column_le_transitive. Qed.

#[local] Instance row_le_total : Total row_le.
Proof. intros x y. unfold row_le. apply column_le_total. Qed.

(** The order of the texts is the order of the wall clocks, refined. *)
Lemma column_le_null_first o1 o2 : column_le o1 o2 -> null_first_le o1 o2.
Proof.
  unfold column_le, null_first_le, text_le. destruct o1, o2; try tauto; lia.
Qed.

Lemma StronglySorted_lookup {A} (R : relation A) (l : list A) :
  StronglySorted R l ->
  forall i j x y, (i < j)%nat -> l !! i = Some x -> l !! j = Some y -> R x y.
Proof.
  induction 1 as [|a l Hs IH Hall]; intros i j x y Hlt Hi Hj; [discriminate|].
  destruct j as [|j]; [lia|]. simpl in Hj. destruct i as [|i]; simpl in Hi.
  - injection Hi as <-. rewrite Forall_forall in Hall. apply Hall.
    eapply list_elem_of_lookup_2. exact Hj.
  - apply (IH i j); [lia | exact Hi | exact Hj].
Qed.

Lemma StronglySorted_sublist {A} (R : relation A) (k l : list A) :
  sublist k l -> StronglySorted R l -> StronglySorted R k.
Proof.
  induction 1 as [|x k l Hsub IH|x k l Hsub IH]; intros Hs.
  - constructor.
  - apply StronglySorted_cons in Hs as [Hall Hs].
    apply StronglySorted_cons. split; [|auto].
    rewrite Forall_forall in *. intros y Hy. apply Hall.
    eapply elem_of_sublist; eauto.
  - apply StronglySorted_cons in Hs as [_ Hs]. auto.
Qed.


(** X6. [get_all_assignments] returns every row exactly once, the rows
    without a due date first, then the others in ascending order of due
    date. *)
Theorem get_all_assignments_sorted d :
  get_all_assignments d ≡ₚ map stored_of (rows d)
  /\ (forall i j a b, (i < j)%nat ->
        get_all_assignments d !! i = Some a ->
        get_all_assignments d !! j = Some b ->
        null_first_le (st_due_date_parsed a) (st_due_date_parsed b)).
Proof.
  split.
  - unfold get_all_assignments. rewrite !map_is_fmap, merge_sort_Permutation.
    reflexivity.
  - intros i j a b Hlt Hi Hj. unfold get_all_assignments in Hi, Hj.
    rewrite lookup_map in Hi, Hj.
    destruct (merge_sort row_le _ !! i) as [ri|] eqn:Ei; [|discriminate].
    destruct (merge_sort row_le _ !! j) as [rj|] eqn:Ej; [|discriminate].
    injection Hi as <-. injection Hj as <-.
    apply column_le_null_first.
    exact (StronglySorted_lookup row_le _
             (StronglySorted_merge_sort row_le _) i j ri rj Hlt Ei Ej).
Qed.

Lemma filter_has_date_stored (l : list row) :
  filter (fun a => has_date a) (map stored_of l)
  = map stored_of (filter (fun r => has_date (stored_of r)) l).
Proof.
  induction l as [|r l IH]; [reflexivity|]. cbn [map].
  rewrite !filter_cons, IH. destruct (decide _); reflexivity.
Qed.

Lemma upcoming_of_summary_sorted d :
  StronglySorted (fun a b => null_first_le (st_due_date_parsed a) (st_due_date_parsed b))
    (filter (fun a => has_date a) (get_all_assignments d)).
Proof.
  unfold get_all_assignments. rewrite filter_has_date_stored, map_is_fmap.
  apply (StronglySorted_fmap stored_of row_le);
    [intros x y H; apply column_le_null_first; exact H|].
  eapply StronglySorted_sublist; [apply sublist_filter|].
  apply StronglySorted_merge_sort; typeclasses eauto.
Qed.

(** X7. [show_summary] counts every row, and every row with a due date;
    it lists at most five dicts, all of them with a due date, and they are
    the earliest ones of the table: every dated dict that it leaves out is
    due no earlier than each one it lists. Nothing is compared with the
    current time. *)
Theorem show_summary_lists_five_earliest d :
  total_tracked (show_summary d) = length (rows d)
  /\ with_due_dates (show_summary d)
      = length (filter (fun r => has_date (stored_of r)) (rows d))
  /\ length (shown (show_summary d)) = Nat.min 5 (with_due_dates (show_summary d))
  /\ (forall a, a ∈ shown (show_summary d) ->
        a ∈ get_all_assignments d /\ has_date a = true)
  /\ (forall a b, a ∈ shown (show_summary d) ->
        b ∈ get_all_assignments d -> has_date b = true ->
        b ∉ shown (show_summary d) ->
        null_first_le (st_due_date_parsed a) (st_due_date_parsed b)).
Proof.
  unfold show_summary. cbv zeta. cbn [total_tracked with_due_dates shown].
  set (upcoming := filter (fun a => has_date a) (get_all_assignments d)).
  split; [|split; [|split; [|split]]].
  - unfold get_all_assignments. rewrite length_map, merge_sort_Permutation.
    reflexivity.
  - unfold upcoming, get_all_assignments.
    rewrite filter_has_date_stored, length_map, merge_sort_Permutation. reflexivity.
  - apply length_take.
  - intros a Ha. apply elem_of_take in Ha as (i & Hi & _).
    apply list_elem_of_lookup_2 in Hi. unfold upcoming in Hi.
    apply list_elem_of_filter in Hi as [Hd Hin].
    split; [exact Hin | apply Is_true_true; exact Hd].
  - intros a b Ha Hb Hdate Hnot.
    assert (Hbu : b ∈ upcoming).
    { apply list_elem_of_filter. split; [apply Is_true_true; exact Hdate | exact Hb]. }
    rewrite <- (take_drop 5 upcoming) in Hbu.
    apply elem_of_app in Hbu as [Hbu|Hbu]; [contradiction|].
    pose proof (upcoming_of_summary_sorted d) as Hs. fold upcoming in Hs.
    rewrite <- (take_drop 5 upcoming) in Hs.
    exact (StronglySorted_app_1_elem_of _ _ _ _ _ Hs Ha Hbu).
Qed.

End ListingExtras.

(** * More on the deadline scan *)
Section ScanExtras.
Import DateTime Storage Notifier Agent History Samples.

Implicit Types (d : db) (r : row).

(** X8. The scan sends nothing it should not: every reminder is for a
    stored row that was not notified, whose due date lies in the 30-day
    window of the query, and whose number of days, counted in its
    iteration, is one of the thresholds or at most 1. *)
Theorem scan_sends_only_due (adv : list Z) (py_now sql_now : Z) (clock : nat -> Z)
    d (ev : dispatch) :
  ev ∈ snd (check_and_notify_deadlines adv py_now sql_now clock d) ->
  exists r i t,
    r ∈ rows d /\ sent_for ev = deadline_of r /\ notified r = false /\
    due_date_parsed r = Some t /\
    sql_now <= to_us t <= py_now + 30 * us_per_day /\
    sent_days_until ev = delta_days (to_us t) (clock i) /\
    (sent_days_until ev ∈ adv \/ sent_days_until ev <= 1).
Proof.
  intros Hev. rewrite scan_is_loop in Hev.
  apply notify_loop_sent in Hev as (j & Hj & Hflag & Hn & Hrem).
  pose proof (list_elem_of_lookup_2 _ _ _ Hj) as Hin.
  apply upcoming_elem in Hin as (r & Hr & Hw & Heq).
  apply in_window_bounds in Hw as (t & Hd & Hw).
  exists r, j, t. split; [exact Hr|]. split; [exact Heq|].
  split; [rewrite Heq in Hflag; exact Hflag|]. split; [exact Hd|].
  split; [exact Hw|]. split.
  - apply days_until_Some in Hn as (t0 & Ht0 & _ & Hn).
    rewrite Heq in Ht0. simpl in Ht0. rewrite Hd in Ht0. injection Ht0 as <-.
    exact Hn.
  - unfold due_for_reminder in Hrem. apply orb_true_iff in Hrem as [Hrem|Hrem].
    + left. apply existsb_exists in Hrem as (x & Hx & Hxe).
      apply Z.eqb_eq in Hxe. subst x. apply list_elem_of_In. exact Hx.
    + right. apply Z.leb_le. exact Hrem.
Qed.

Lemma essay_scan_sends :
  mk_dispatch (deadline_of essay_row) 3
    ∈ snd (check_and_notify_deadlines default_advance_days
             (august 15 12 0) (august 15 12 0) (fun _ => august 15 12 0) essay_db).
Proof. vm_compute. left. Qed.

(** The reminder for "Essay 1", three days ahead. *)
Lemma scan_sends_only_due_witness :
  exists r (i : nat) t,
    r ∈ rows essay_db /\
    sent_for (mk_dispatch (deadline_of essay_row) 3) = deadline_of r /\
    notified r = false /\ due_date_parsed r = Some t /\
    august 15 12 0 <= to_us t <= august 15 12 0 + 30 * us_per_day /\
    sent_days_until (mk_dispatch (deadline_of essay_row) 3)
      = delta_days (to_us t) (august 15 12 0) /\
    (sent_days_until (mk_dispatch (deadline_of essay_row) 3) ∈ default_advance_days
     \/ sent_days_until (mk_dispatch (deadline_of essay_row) 3) <= 1).
Proof.
  exact (scan_sends_only_due default_advance_days (august 15 12 0) (august 15 12 0)
           (fun _ => august 15 12 0) essay_db _ essay_scan_sends).
Defined.

Lemma notify_loop_sublist adv clock upcoming : forall i d,
  sublist (map sent_for (notify_loop adv clock i upcoming d).1.2) upcoming.
Proof.
  induction upcoming as [|a rest IH]; intros i d; cbn [notify_loop].
  - constructor.
  - destruct (has_due a && negb (dl_notified a));
      [|apply sublist_cons; apply IH].
    destruct (days_until a (clock i)) as [n|]; [|apply sublist_nil_l].
    destruct (due_for_reminder adv n);
      [|apply sublist_cons; apply IH].
    specialize (IH (S i) (mark_as_notified d (dl_course_url a) (dl_assignment_name a))).
    destruct (notify_loop adv clock (S i) rest _) as [[d' sent] e]. simpl in *.
    apply sublist_skip. exact IH.
Qed.

(** X9. The reminders of one scan follow the list of the window query, in
    its order and at most one for each of its dicts; in a table with unique
    keys no two reminders of a scan are for the same key. *)
Theorem scan_sends_once_per_record (adv : list Z) (py_now sql_now : Z)
    (clock : nat -> Z) d :
  sublist (map sent_for (snd (check_and_notify_deadlines adv py_now sql_now clock d)))
          (get_upcoming_deadlines d py_now sql_now 30)
  /\ (length (snd (check_and_notify_deadlines adv py_now sql_now clock d))
       <= length (rows d))%nat
  /\ (NoDup (keys d) ->
      NoDup (map (fun ev => dl_key (sent_for ev))
                 (snd (check_and_notify_deadlines adv py_now sql_now clock d)))).
Proof.
  pose proof (notify_loop_sublist adv clock
                (get_upcoming_deadlines d py_now sql_now 30) 0 d) as Hsub.
  rewrite <- scan_is_loop in Hsub.
  split; [exact Hsub|]. split.
  - apply sublist_length in Hsub. rewrite length_map in Hsub.
    etransitivity; [exact Hsub|].
    destruct (upcoming_cases d py_now sql_now 30) as [(_ & _ & ->)|(_ & _ & ->)];
      [simpl; lia|].
    unfold select_upcoming.
    rewrite length_map, merge_sort_Permutation. apply length_filter.
  - intros Hnd.
    rewrite <- (map_map sent_for dl_key).
    eapply sublist_NoDup; [exact (upcoming_keys_NoDup d py_now sql_now 30 Hnd)|].
    rewrite !map_is_fmap. apply fmap_sublist. exact Hsub.
Qed.

Lemma key_notified_map (f : row -> row) d k :
  (forall r, row_key (f r) = row_key r) ->
  (forall r, notified r = true -> notified (f r) = true) ->
  key_notified d k -> key_notified (mk_db (map f (rows d)) (last_id d)) k.
Proof.
  intros Hk Hn [Hin Hall]. split.
  - unfold keys in *; simpl. rewrite map_map.
    rewrite (map_ext (fun r => row_key (f r)) row_key Hk). exact Hin.
  - simpl. intros r Hr Hkr. rewrite map_is_fmap in Hr.
    apply list_elem_of_fmap in Hr as (r0 & -> & Hr0).
    apply Hn. apply Hall; [exact Hr0|]. rewrite <- Hk. exact Hkr.
Qed.

Lemma store_one_key_notified dp url now d s a d' s' k :
  key_notified d k -> store_one dp url now (d, s) a = Some (d', s') ->
  key_notified d' k.
Proof.
  intros Hkn. destruct (decide ((url, title_of a) ∈ keys d)) as [Hin|Hin].
  - rewrite store_one_present by exact Hin. intros [= <- <-].
    apply key_notified_map; [| |exact Hkn];
      intros r; destruct (matches url (title_of a) r); auto.
  - rewrite store_one_absent by exact Hin. intros [= <- <-].
    destruct Hkn as [Hk Hall]. split.
    + unfold keys; simpl. rewrite map_app. apply elem_of_app. left. exact Hk.
    + simpl. intros r Hr Hkr. apply elem_of_app in Hr as [Hr|Hr]; [auto|].
      apply list_elem_of_singleton in Hr. subst r. exfalso. apply Hin.
      rewrite <- Hkr in Hk. exact Hk.
Qed.

Lemma step_key_notified d d' k :
  step d d' -> key_notified d k -> key_notified d' k.
Proof.
  intros Hstep Hkn.
  destruct Hstep as [dp clock url l d d' s Hs|d url name|adv py_now sql_now clock d].
  - apply (store_loop_invariant (fun st => key_notified (fst st) k) dp url clock)
      with (l := l) (i := 0%nat) (st := (d, mk_stats 0 0 0)) (st' := (d', s));
      auto.
    intros now [d0 s0] a [d1 s1]; simpl. intros H0 H1.
    eapply store_one_key_notified; eauto.
  - apply key_notified_map; [| |exact Hkn];
      intros r; destruct (matches url name r); auto.
  - rewrite scan_rows. apply key_notified_map; [| |exact Hkn];
      intros r; unfold mark_all; destruct (marked_by _ r); auto.
Qed.

Lemma scan_key_notified adv py_now sql_now clock d ev :
  ev ∈ snd (check_and_notify_deadlines adv py_now sql_now clock d) ->
  key_notified (fst (check_and_notify_deadlines adv py_now sql_now clock d))
               (dl_key (sent_for ev)).
Proof.
  intros Hev. rewrite scan_rows. split.
  - pose proof Hev as Hev'. rewrite scan_is_loop in Hev'.
    apply notify_loop_sent in Hev' as (j & Hj & _).
    apply list_elem_of_lookup_2 in Hj.
    apply upcoming_elem in Hj as (r & Hr & _ & ->).
    change (dl_key (deadline_of r)) with (row_key r).
    unfold keys; simpl. rewrite map_map.
    rewrite (map_ext (fun r => row_key (mark_all _ r)) row_key (mark_all_key _)).
    rewrite map_is_fmap. apply list_elem_of_fmap_2. exact Hr.
  - simpl. intros r Hr Hk. rewrite map_is_fmap in Hr.
    apply list_elem_of_fmap in Hr as (r0 & -> & Hr0).
    rewrite mark_all_key in Hk. unfold mark_all.
    rewrite (proj2 (marked_by_true _ r0)); [reflexivity|].
    exists ev. auto.
Qed.

(** X10. A reminder is sent once: after a scan has sent one for a key, no
    later scan sends one for that key, whatever its thresholds and its
    clock, and whatever the program writes in between. *)
Theorem scan_is_one_shot (adv1 adv2 : list Z) (py1 sql1 py2 sql2 : Z)
    (clock1 clock2 : nat -> Z) d d' (ev1 ev2 : dispatch) :
  ev1 ∈ snd (check_and_notify_deadlines adv1 py1 sql1 clock1 d) ->
  rtc step (fst (check_and_notify_deadlines adv1 py1 sql1 clock1 d)) d' ->
  ev2 ∈ snd (check_and_notify_deadlines adv2 py2 sql2 clock2 d') ->
  dl_key (sent_for ev1) <> dl_key (sent_for ev2).
Proof.
  intros H1 Hsteps H2 Heq.
  assert (Hkn : key_notified d' (dl_key (sent_for ev1))).
  { pose proof (scan_key_notified _ _ _ _ _ _ H1) as H0. revert H0.
    induction Hsteps as [|x y z Hxy Hyz IH]; [auto|].
    intros H0. apply IH; [exact H2|]. eapply step_key_notified; eauto. }
  rewrite scan_is_loop in H2.
  apply notify_loop_sent in H2 as (j & Hj & Hflag & _).
  apply list_elem_of_lookup_2 in Hj.
  apply upcoming_elem in Hj as (r & Hr & _ & Hfor).
  rewrite Hfor in Hflag. simpl in Hflag.
  destruct Hkn as [_ Hall]. rewrite (Hall r Hr) in Hflag; [discriminate|].
  rewrite Heq, Hfor. reflexivity.
Qed.

(** "Essay 1" is sent for on 15 August, "Lab Assignment 2" on the 16th,
    and "Essay 1" is not sent for again. *)
Lemma scan_is_one_shot_witness :
  mk_dispatch (deadline_of essay_row) 3 ∈ snd MoreSamples.first_scan /\
  mk_dispatch (deadline_of MoreSamples.lab_row) 3 ∈ snd MoreSamples.second_scan /\
  dl_key (deadline_of essay_row) <> dl_key (deadline_of MoreSamples.lab_row).
Proof.
  assert (H1 : mk_dispatch (deadline_of essay_row) 3 ∈ snd MoreSamples.first_scan)
    by (vm_compute; left).
  assert (H2 : mk_dispatch (deadline_of MoreSamples.lab_row) 3
                 ∈ snd MoreSamples.second_scan)
    by (vm_compute; left).
  split; [exact H1|]. split; [exact H2|].
  exact (scan_is_one_shot _ _ _ _ _ _ _ _ _ _ _ _ H1 (rtc_refl _ _) H2).
Defined.

(** X11. The scan writes flags only: the table keeps its rows, in place;
    a row is left as it is, or becomes the same row with [notified] true,
    and this when and only when a reminder was sent for its key. *)
Theorem scan_writes_flags_only (adv : list Z) (py_now sql_now : Z)
    (clock : nat -> Z) d :
  last_id (fst (check_and_notify_deadlines adv py_now sql_now clock d)) = last_id d
  /\ length (rows (fst (check_and_notify_deadlines adv py_now sql_now clock d)))
     = length (rows d)
  /\ forall i r, rows d !! i = Some r ->
       (exists ev, ev ∈ snd (check_and_notify_deadlines adv py_now sql_now clock d)
                   /\ dl_key (sent_for ev) = row_key r)
       /\ rows (fst (check_and_notify_deadlines adv py_now sql_now clock d)) !! i
          = Some (set_notified r)
       \/
       (forall ev, ev ∈ snd (check_and_notify_deadlines adv py_now sql_now clock d) ->
                   dl_key (sent_for ev) <> row_key r)
       /\ rows (fst (check_and_notify_deadlines adv py_now sql_now clock d)) !! i
          = Some r.
Proof.
  rewrite scan_rows. cbn [last_id rows fst]. split; [reflexivity|].
  split; [apply length_map|]. intros i r Hi. rewrite lookup_map, Hi. simpl.
  unfold mark_all.
  destruct (marked_by _ r) eqn:E.
  - left. split; [|reflexivity]. apply marked_by_true. exact E.
  - right. split; [|reflexivity]. intros ev Hev Hk.
    assert (marked_by (snd (check_and_notify_deadlines adv py_now sql_now clock d)) r
            = true) as Ht by (apply marked_by_true; eauto).
    congruence.
Qed.

Lemma delta_days_upper (a b bound : Z) :
  a - b <= bound * us_per_day -> delta_days a b <= bound.
Proof.
  intros H. unfold delta_days.
  apply Z.div_le_upper_bound; [reflexivity|]. lia.
Qed.

Lemma delta_days_nonneg (a b : Z) : b <= a -> 0 <= delta_days a b.
Proof.
  intros H. unfold delta_days. apply Z.div_pos; [lia | reflexivity].
Qed.

(** X12. The days of a reminder are bounded by the window: when no clock
    reading of the loop is before the [now] of the query, a reminder has at
    most 30 days, so that a threshold above 30 never fires; when no reading
    is after the [now] of SQLite, it has at least 0 days, so that nothing
    overdue is sent. *)
Theorem scan_days_within_window (adv : list Z) (py_now sql_now : Z)
    (clock : nat -> Z) d (ev : dispatch) :
  ev ∈ snd (check_and_notify_deadlines adv py_now sql_now clock d) ->
  ((forall i, py_now <= clock i) -> sent_days_until ev <= 30) /\
  ((forall i, clock i <= sql_now) -> 0 <= sent_days_until ev).
Proof.
  intros Hev. rewrite scan_is_loop in Hev.
  apply notify_loop_sent in Hev as (j & Hj & _ & Hn & _).
  apply list_elem_of_lookup_2 in Hj.
  apply upcoming_elem in Hj as (r & _ & Hw & Heq).
  apply in_window_bounds in Hw as (t & Hd & H1 & H2).
  assert (Hdays : sent_days_until ev = delta_days (to_us t) (clock (0 + j)%nat)).
  { apply days_until_Some in Hn as (t0 & Ht0 & _ & Hn).
    rewrite Heq in Ht0. simpl in Ht0. rewrite Hd in Ht0. injection Ht0 as <-.
    exact Hn. }
  rewrite Hdays. split; intros Hclock.
  - apply delta_days_upper. specialize (Hclock (0 + j)%nat). lia.
  - apply delta_days_nonneg. specialize (Hclock (0 + j)%nat). lia.
Qed.

(** The reminder for "Essay 1" on 15 August: 3 days, between 0 and 30. *)
Lemma scan_days_within_window_witness :
  sent_days_until (mk_dispatch (deadline_of essay_row) 3) <= 30 /\
  0 <= sent_days_until (mk_dispatch (deadline_of essay_row) 3).
Proof.
  destruct (scan_days_within_window default_advance_days (august 15 12 0)
              (august 15 12 0) (fun _ => august 15 12 0) essay_db _ essay_scan_sends)
    as [Hup Hlow].
  split; [apply Hup | apply Hlow]; intros i; lia.
Defined.

(** X28. With [advance_days = [7, 3, 1]], for a stored record that is not
    notified and that the 30-day window query returns, in a table with
    unique keys: when its [days_until] is 3 and no dict before it in the
    list makes the loop raise, the scan dispatches a reminder for it and
    its row becomes the same row with [notified] true; when its
    [days_until] is 5 the scan dispatches nothing for it and its row stays
    as it is, with [notified] false. *)
Theorem scan_three_and_five_days (py_now sql_now : Z) (clock : nat -> Z) d r (i : nat) :
  NoDup (keys d) -> r ∈ rows d -> notified r = false ->
  get_upcoming_deadlines d py_now sql_now 30 !! i = Some (deadline_of r) ->
  (days_until (deadline_of r) (clock i) = Some 3 ->
   (forall j a, (j < i)%nat ->
      get_upcoming_deadlines d py_now sql_now 30 !! j = Some a ->
      raises_at a = false) ->
     (mk_dispatch (deadline_of r) 3
        ∈ snd (check_and_notify_deadlines default_advance_days py_now sql_now clock d)) /\
     (forall r',
        r' ∈ rows (fst (check_and_notify_deadlines default_advance_days
                          py_now sql_now clock d))
        /\ row_key r' = row_key r <-> r' = set_notified r)) /\
  (days_until (deadline_of r) (clock i) = Some 5 ->
     (forall ev,
        ev ∈ snd (check_and_notify_deadlines default_advance_days py_now sql_now clock d) ->
        sent_for ev <> deadline_of r) /\
     (forall r',
        r' ∈ rows (fst (check_and_notify_deadlines default_advance_days
                          py_now sql_now clock d))
        /\ row_key r' = row_key r <-> r' = r)).
Proof.
  intros Hnd Hr Hflag Hi. split.
  - intros Hdays Hbefore.
    apply (scan_dispatches_reached default_advance_days py_now sql_now clock d r i 3);
      try assumption.
    reflexivity.
  - intros Hdays.
    assert (Hno : forall ev,
              ev ∈ snd (check_and_notify_deadlines default_advance_days
                          py_now sql_now clock d) ->
              sent_for ev <> deadline_of r).
    { intros ev Hev Heq. rewrite scan_is_loop in Hev.
      apply notify_loop_sent in Hev as (j & Hj & _ & Hn & Hrem).
      assert (j = i) as ->.
      { apply (upcoming_lookup_unique d py_now sql_now 30 j i _ _ Hnd Hj Hi).
        rewrite Heq. reflexivity. }
      cbn [Nat.add] in Hn. rewrite Heq, Hdays in Hn. injection Hn as Hn.
      rewrite <- Hn in Hrem. discriminate Hrem. }
    split; [exact Hno|]. apply scan_row_untouched; assumption.
Qed.

(** "Essay 1", due on 19 August at midnight, scanned on 15 August at noon
    (3 days ahead) and on 13 August at noon (5 days ahead). *)
Lemma scan_three_and_five_days_witness :
  (mk_dispatch (deadline_of essay_row) 3
     ∈ snd (check_and_notify_deadlines default_advance_days
              (august 15 12 0) (august 15 12 0) (fun _ => august 15 12 0) essay_db))
  /\ (forall ev,
        ev ∈ snd (check_and_notify_deadlines default_advance_days
                    (august 13 12 0) (august 13 12 0) (fun _ => august 13 12 0) essay_db) ->
        sent_for ev <> deadline_of essay_row).
Proof.
  assert (Hin : essay_row ∈ rows essay_db) by left.
  split.
  - assert (Hi : get_upcoming_deadlines essay_db (august 15 12 0) (august 15 12 0) 30
                   !! 0%nat = Some (deadline_of essay_row))
      by (vm_compute; reflexivity).
    destruct (scan_three_and_five_days (august 15 12 0) (august 15 12 0)
                (fun _ => august 15 12 0) essay_db essay_row 0
                essay_db_NoDup Hin eq_refl Hi) as [H3 _].
    apply H3; [vm_compute; reflexivity | intros j a Hj; lia].
  - assert (Hi : get_upcoming_deadlines essay_db (august 13 12 0) (august 13 12 0) 30
                   !! 0%nat = Some (deadline_of essay_row))
      by (vm_compute; reflexivity).
    destruct (scan_three_and_five_days (august 13 12 0) (august 13 12 0)
                (fun _ => august 13 12 0) essay_db essay_row 0
                essay_db_NoDup Hin eq_refl Hi) as [_ H5].
    apply H5. vm_compute. reflexivity.
Defined.

(** X29. The scan raises exactly when the date 30 days after the [now] of
    Python is no date that [datetime] holds ([OverflowError], before the
    table is read), or the window holds a row that is not notified and
    whose due date is aware of a time zone ([TypeError] of the subtraction
    of [datetime.now()]). In the first case nothing is sent and the table
    is as it was; in both, what was sent and marked before stays. *)
Theorem scan_raises_on_aware_due_date (adv : list Z) (py_now sql_now : Z)
    (clock : nat -> Z) d :
  ((check_and_notify_deadlines_or_raise adv py_now sql_now clock d).2 = Raised <->
   ~ (min_us <= py_now + 30 * us_per_day <= max_us)
   \/ exists r t, r ∈ rows d /\ notified r = false /\ due_date_parsed r = Some t /\
                  aware t = true /\ sql_now <= to_us t < py_now + 30 * us_per_day)
  /\ (~ (min_us <= py_now + 30 * us_per_day <= max_us) ->
      check_and_notify_deadlines_or_raise adv py_now sql_now clock d = (d, [], Raised))
  /\ (check_and_notify_deadlines_or_raise adv py_now sql_now clock d).1
     = check_and_notify_deadlines adv py_now sql_now clock d
  /\ forall ev,
       ev ∈ snd (check_and_notify_deadlines adv py_now sql_now clock d) ->
       exists t, dl_due_date_parsed (sent_for ev) = Some t /\ aware t = false.
Proof.
  split; [apply scan_raises_iff|]. split; [|split; [reflexivity|]].
  - intros Hover. apply add_days_30 in Hover.
    destruct (scan_cases adv py_now sql_now clock d) as [(_ & _ & E)|(E & _)];
      [exact E | congruence].
  - intros ev Hev. rewrite scan_is_loop in Hev.
    apply notify_loop_sent in Hev as (j & _ & _ & Hn & _).
    apply days_until_Some in Hn as (t & Ht & Ha & _). eauto.
Qed.

End ScanExtras.

(** * More on the scraper *)
Section ScraperExtras.
Import Scraper Walk.

Lemma duplicates_sym (a b : string) : duplicates a b = duplicates b a.
Proof.
  unfold duplicates. rewrite (String.eqb_sym a b).
  destruct (b =? a)%string, (PyStr.contains a b), (PyStr.contains b a); reflexivity.
Qed.

Lemma duplicates_refl (a : string) : duplicates a a = true.
Proof. unfold duplicates. rewrite String.eqb_refl. reflexivity. Qed.

Lemma is_duplicate_title_true (t : string) (found : gset string) :
  is_duplicate_title t found = true <->
  exists e, e ∈ found /\ duplicates (normalize_title t) (normalize_title e) = true.
Proof.
  unfold is_duplicate_title. cbv zeta. rewrite existsb_exists. split.
  - intros (e & He & Hd). exists e. split; [|exact Hd].
    apply elem_of_elements, list_elem_of_In. exact He.
  - intros (e & He & Hd). exists e. split; [|exact Hd].
    apply list_elem_of_In, elem_of_elements. exact He.
Qed.

Lemma is_duplicate_title_false (t : string) (found : gset string) :
  is_duplicate_title t found = false <->
  forall e, e ∈ found -> duplicates (normalize_title t) (normalize_title e) = false.
Proof.
  split.
  - intros H e He. destruct (duplicates _ _) eqn:E; [|reflexivity].
    rewrite (proj2 (is_duplicate_title_true t found)) in H; [discriminate|eauto].
  - intros H. destruct (is_duplicate_title t found) eqn:E; [|reflexivity].
    apply is_duplicate_title_true in E as (e & He & Hd). rewrite (H e He) in Hd.
    discriminate.
Qed.

Lemma lstrip_all_space (s : string) :
  PyStr.all_space s = true -> PyStr.lstrip s = EmptyString.
Proof.
  induction s as [|c s IH]; [reflexivity|]. cbn [PyStr.all_space PyStr.lstrip].
  intros H. apply andb_true_iff in H as [-> H]. auto.
Qed.

Lemma normalize_title_blank (t : string) :
  PyStr.all_space t = true -> normalize_title t = EmptyString.
Proof.
  intros H. unfold normalize_title, PyStr.strip.
  rewrite (lstrip_all_space t H). reflexivity.
Qed.

Lemma contains_empty (s : string) : PyStr.contains EmptyString s = true.
Proof. destruct s; reflexivity. Qed.

(** X13. The duplicate test: nothing is a duplicate of the empty set; a
    title of the set is a duplicate; a duplicate of a set is a duplicate of
    every larger set; on two titles the test does not depend on which came
    first; and a title made of whitespace only is a duplicate as soon as
    the set holds any title. *)
Theorem is_duplicate_title_laws (t u : string) (found found' : gset string) :
  is_duplicate_title t ∅ = false
  /\ (t ∈ found -> is_duplicate_title t found = true)
  /\ (found ⊆ found' -> is_duplicate_title t found = true ->
      is_duplicate_title t found' = true)
  /\ is_duplicate_title t {[u]} = is_duplicate_title u {[t]}
  /\ (PyStr.all_space t = true -> u ∈ found -> is_duplicate_title t found = true).
Proof.
  split; [|split; [|split; [|split]]].
  - apply is_duplicate_title_false. intros e He. apply not_elem_of_empty in He.
    contradiction.
  - intros Hin. apply is_duplicate_title_true. exists t.
    split; [exact Hin | apply duplicates_refl].
  - intros Hsub H. apply is_duplicate_title_true in H as (e & He & Hd).
    apply is_duplicate_title_true. exists e. split; [apply Hsub; exact He | exact Hd].
  - unfold is_duplicate_title. cbv zeta. rewrite !elements_singleton. simpl.
    rewrite duplicates_sym. reflexivity.
  - intros Hblank Hu. apply is_duplicate_title_true. exists u. split; [exact Hu|].
    rewrite (normalize_title_blank t Hblank). unfold duplicates.
    rewrite contains_empty. rewrite orb_true_r. reflexivity.
Qed.

Lemma titles_snoc (acc : list assignment) (t due : string) :
  titles (acc ++ [mk_assignment t due]) = titles acc ++ [t].
Proof. unfold titles. rewrite omap_app. reflexivity. Qed.

Lemma distinct_titles_snoc (ts : list string) (t : string) :
  distinct_titles ts ->
  (forall e, e ∈ ts -> duplicates (normalize_title t) (normalize_title e) = false) ->
  distinct_titles (ts ++ [t]).
Proof.
  intros Hd Hnew i j ti tj Hlt Hi Hj.
  destruct (decide (j < length ts)%nat) as [Hj'|Hj'].
  - rewrite lookup_app_l in Hj by exact Hj'.
    rewrite lookup_app_l in Hi by lia. exact (Hd i j ti tj Hlt Hi Hj).
  - rewrite lookup_app_r in Hj by lia.
    destruct (j - length ts)%nat eqn:E; [|destruct n; discriminate].
    injection Hj as <-.
    assert (i < length ts)%nat as Hi'.
    { apply lookup_lt_Some in Hi. rewrite length_app in Hi. simpl in Hi. lia. }
    rewrite lookup_app_l in Hi by exact Hi'.
    apply Hnew. eapply list_elem_of_lookup_2. exact Hi.
Qed.

(** Adding a title that is not a duplicate keeps the set and the list in
    step. *)
Lemma tidy_add (found : gset string) (acc : list assignment) (t due : string) :
  tidy found acc -> is_duplicate_title t found = false ->
  tidy ({[t]} ∪ found) (acc ++ [mk_assignment t due]).
Proof.
  intros (Hset & Hlen & Hdist) Hnot. unfold tidy. rewrite titles_snoc.
  split; [|split].
  - rewrite list_to_set_app_L, <- Hset. simpl.
    rewrite (right_id_L ∅ (∪)). apply (comm_L (∪)).
  - rewrite !length_app, Hlen. reflexivity.
  - apply distinct_titles_snoc; [exact Hdist|].
    intros e He. apply (proj1 (is_duplicate_title_false t found) Hnot).
    rewrite Hset. apply elem_of_list_to_set. exact He.
Qed.

Lemma tidy_empty : tidy ∅ [].
Proof.
  split; [reflexivity|]. split; [reflexivity|].
  intros i j ti tj _ Hi. discriminate Hi.
Qed.

Lemma fallback_step_tidy (st : fallback_state) (text : string) :
  tidy (assignments_found st) (assignments st) ->
  tidy (assignments_found (fallback_step st text))
       (assignments (fallback_step st text)).
Proof.
  intros Ht. unfold fallback_step. cbv zeta.
  destruct (negb (PyStr.truthy (PyStr.strip text))); [exact Ht|].
  destruct (PyStr.contains "Assignment" (PyStr.strip text) && _).
  - destruct (negb (mentions_date_label (PyStr.strip text))); exact Ht.
  - destruct (PyStr.startswith (PyStr.strip text) "Due:" && _); [|exact Ht].
    destruct (is_duplicate_title _ (assignments_found st)) eqn:E; simpl; [exact Ht|].
    apply tidy_add; assumption.
Qed.

Lemma method1_step_tidy (st : gset string * list assignment) (e : element) :
  tidy (fst st) (snd st) ->
  tidy (fst (method1_step st e)) (snd (method1_step st e)).
Proof.
  intros Ht. unfold method1_step.
  destruct (el_text e) as [raw|]; [|exact Ht].
  destruct (passed_over (PyStr.strip raw)); [exact Ht|].
  destruct (walk e) as [title due].
  destruct (opt_truthy title); simpl; [|exact Ht].
  destruct (is_duplicate_title _ (fst st)) eqn:E; simpl; [exact Ht|].
  apply tidy_add; assumption.
Qed.

Lemma foldl_invariant {A B} (P : A -> Prop) (f : A -> B -> A) (l : list B) :
  (forall a b, P a -> P (f a b)) -> forall a, P a -> P (foldl f a l).
Proof.
  intros Hf. induction l as [|b l IH]; intros a Ha; simpl; auto.
Qed.

Lemma scrape_tidy (elements : list element) (texts : list string) :
  exists found, tidy found (scrape elements texts).
Proof.
  unfold scrape.
  assert (H1 : tidy (fst (method1 elements)) (snd (method1 elements))).
  { unfold method1.
    apply (foldl_invariant (fun st => tidy (fst st) (snd st)) method1_step);
      [apply method1_step_tidy | apply tidy_empty]. }
  destruct (method1 elements) as [found acc]. simpl in H1.
  unfold fallback_method. destruct (decide (size found = 0%nat)); simpl; [|eauto].
  eexists. unfold fallback_loop.
  apply (foldl_invariant
           (fun st => tidy (assignments_found st) (assignments st)) fallback_step);
    [apply fallback_step_tidy | exact H1].
Qed.

(** X14. No duplicates leave the scraper: in the list that the two methods
    return, every dict has a title, and no title is a duplicate of another
    one, in either direction; in particular no title occurs twice. *)
Theorem scrape_returns_distinct_titles (elements : list element) (texts : list string) :
  length (titles (scrape elements texts)) = length (scrape elements texts)
  /\ (forall i j ti tj, i <> j ->
        titles (scrape elements texts) !! i = Some ti ->
        titles (scrape elements texts) !! j = Some tj ->
        duplicates (normalize_title ti) (normalize_title tj) = false)
  /\ NoDup (titles (scrape elements texts)).
Proof.
  destruct (scrape_tidy elements texts) as (found & _ & Hlen & Hdist).
  assert (Hpair : forall i j ti tj, i <> j ->
            titles (scrape elements texts) !! i = Some ti ->
            titles (scrape elements texts) !! j = Some tj ->
            duplicates (normalize_title ti) (normalize_title tj) = false).
  { intros i j ti tj Hne Hi Hj.
    destruct (decide (i < j)%nat) as [Hlt|Hge].
    - rewrite duplicates_sym. exact (Hdist i j ti tj Hlt Hi Hj).
    - apply (Hdist j i tj ti); [lia | exact Hj | exact Hi]. }
  split; [exact Hlen|]. split; [exact Hpair|].
  apply NoDup_alt. intros i j t Hi Hj.
  destruct (decide (i = j)) as [|Hne]; [assumption|].
  pose proof (Hpair i j t t Hne Hi Hj) as H. rewrite duplicates_refl in H.
  discriminate.
Qed.

Lemma foldl_invariant_in {A B} (P : A -> Prop) (f : A -> B -> A) (l : list B) :
  (forall a b, b ∈ l -> P a -> P (f a b)) -> forall a, P a -> P (foldl f a l).
Proof.
  induction l as [|b l IH]; intros Hf a Ha; simpl; [exact Ha|].
  apply IH.
  - intros a' b' Hb'. apply Hf. right. exact Hb'.
  - apply Hf; [left | exact Ha].
Qed.

Lemma fallback_step_emits (texts : list string) (st : fallback_state) (text : string) :
  text ∈ texts ->
  (forall c, current_assignment st = Some c ->
     fallback_title c /\ exists e, e ∈ texts /\ c = PyStr.strip e) /\
  Forall (from_fallback texts) (assignments st) ->
  (forall c, current_assignment (fallback_step st text) = Some c ->
     fallback_title c /\ exists e, e ∈ texts /\ c = PyStr.strip e) /\
  Forall (from_fallback texts) (assignments (fallback_step st text)).
Proof.
  intros Hin [Hcur Hall]. unfold fallback_step. cbv zeta.
  destruct (negb (PyStr.truthy (PyStr.strip text))); [auto|].
  destruct (PyStr.contains "Assignment" (PyStr.strip text)
            && (Z.of_nat (String.length (PyStr.strip text)) <? 100)) eqn:E1.
  - destruct (negb (mentions_date_label (PyStr.strip text))) eqn:E2; [|auto].
    simpl. split; [|exact Hall]. intros c [= <-].
    apply andb_true_iff in E1 as [Ha Hl]. apply Z.ltb_lt in Hl.
    apply negb_true_iff in E2.
    split; [|eauto]. split; [exact Ha|]. split; [lia | exact E2].
  - destruct (PyStr.startswith (PyStr.strip text) "Due:"
              && opt_truthy (current_assignment st)) eqn:E3; [|auto].
    apply andb_true_iff in E3 as [Hdue Hbuf].
    destruct (current_assignment st) as [c|] eqn:Ec; [|discriminate].
    destruct (Hcur c eq_refl) as [Htitle Hfrom].
    destruct (negb (is_duplicate_title _ (assignments_found st))); simpl;
      (split; [intros c' Hc'; discriminate Hc'|]); [|exact Hall].
    apply Forall_app. split; [exact Hall|]. apply Forall_singleton.
    exists c, (PyStr.strip text). repeat split; try apply Htitle; eauto.
Qed.

(** X15. Every assignment that "Method 2" emits pairs the stripped text of
    an element that mentions "Assignment", is shorter than 100 characters
    and has no date label, with the stripped text of an element that starts
    with "Due:". *)
Theorem fallback_emits_titles_with_due (texts : list string) (a : assignment) :
  a ∈ assignments (fallback_loop ∅ [] texts) ->
  exists t due,
    a = mk_assignment t due /\
    PyStr.contains "Assignment" t = true /\
    (String.length t < 100)%nat /\
    mentions_date_label t = false /\
    PyStr.startswith due "Due:" = true /\
    (exists e, e ∈ texts /\ t = PyStr.strip e) /\
    (exists e, e ∈ texts /\ due = PyStr.strip e).
Proof.
  intros Ha.
  assert (H : (forall c, current_assignment (fallback_loop ∅ [] texts) = Some c ->
                 fallback_title c /\ exists e, e ∈ texts /\ c = PyStr.strip e) /\
              Forall (from_fallback texts) (assignments (fallback_loop ∅ [] texts))).
  { unfold fallback_loop.
    apply (foldl_invariant_in
             (fun st => (forall c, current_assignment st = Some c ->
                           fallback_title c /\ exists e, e ∈ texts /\ c = PyStr.strip e) /\
                        Forall (from_fallback texts) (assignments st))
             fallback_step texts).
    - intros st text Hin Hst. apply fallback_step_emits; assumption.
    - simpl. split; [intros c Hc; discriminate Hc | constructor]. }
  destruct H as [_ Hall]. rewrite Forall_forall in Hall.
  destruct (Hall a Ha) as (t & due & Heq & (H1 & H2 & H3) & H4 & H5 & H6).
  exists t, due. auto 10.
Qed.

(** The loop on the page of "Essay 1". *)
Lemma fallback_emits_titles_with_due_witness :
  exists t due,
    mk_assignment Samples.essay_title Samples.essay_due_line = mk_assignment t due /\
    PyStr.contains "Assignment" t = true /\
    (String.length t < 100)%nat /\
    mentions_date_label t = false /\
    PyStr.startswith due "Due:" = true.
Proof.
  assert (Ha : mk_assignment Samples.essay_title Samples.essay_due_line
                 ∈ assignments (fallback_loop ∅ []
                     [Samples.essay_title; Samples.essay_due_line; "Lecture Notes Week 1"]))
    by (vm_compute; left).
  destruct (fallback_emits_titles_with_due _ _ Ha)
    as (t & due & H1 & H2 & H3 & H4 & H5 & _).
  exists t, due. auto.
Defined.

Lemma line_step_ok (st : walk_state) (raw_line : string) :
  walk_ok st -> walk_ok (line_step st raw_line).
Proof.
  intros [Ht Hd]. unfold line_step. cbv zeta.
  destruct (PyStr.contains "Assignment" (PyStr.strip raw_line)
            && negb (mentions_date_label (PyStr.strip raw_line))) eqn:E1.
  - destruct ((5 <? Z.of_nat (String.length (PyStr.strip raw_line)))
              && negb (existsb (PyStr.startswith (PyStr.strip raw_line))
                               navigation_prefixes)) eqn:E2; [|split; auto].
    split; [|exact Hd]. simpl. intros t [= <-].
    apply andb_true_iff in E1 as [A1 A2]. apply negb_true_iff in A2.
    apply andb_true_iff in E2 as [B1 B2]. apply Z.ltb_lt in B1.
    apply negb_true_iff in B2. repeat split; auto. lia.
  - destruct (PyStr.startswith (PyStr.strip raw_line) "Due:") eqn:E3; [|split; auto].
    split; [exact Ht|]. right. exact E3.
Qed.

Lemma walk_levels_ok (levels : list (option string)) : forall st,
  walk_ok st -> walk_ok (walk_levels levels st).
Proof.
  induction levels as [|[text|] rest IH]; intros st Hst; cbn [walk_levels]; auto.
  cbv zeta.
  destruct (PyStr.truthy (PyStr.strip text) && PyStr.contains "Due:" (PyStr.strip text));
    [|auto].
  assert (Hok : walk_ok (foldl line_step st (split_lines (PyStr.strip text))))
    by (apply foldl_invariant; [apply line_step_ok | exact Hst]).
  destruct (opt_truthy (fst (foldl line_step st (split_lines (PyStr.strip text)))));
    auto.
Qed.

Lemma walk_ok_walk (e : element) : walk_ok (walk e).
Proof.
  apply walk_levels_ok. split; [intros t Ht; discriminate Ht | left; reflexivity].
Qed.

Lemma method1_step_emits (st : gset string * list assignment) (e : element) :
  Forall from_walk (snd st) -> Forall from_walk (snd (method1_step st e)).
Proof.
  intros Hall. unfold method1_step.
  destruct (el_text e) as [raw|]; [|exact Hall].
  destruct (passed_over (PyStr.strip raw)); [exact Hall|].
  pose proof (walk_ok_walk e) as [Ht Hd].
  destruct (walk e) as [title due]. simpl in Ht, Hd.
  destruct title as [t|]; simpl; [|exact Hall].
  destruct (PyStr.truthy t && negb (is_duplicate_title t (fst st))); simpl;
    [|exact Hall].
  apply Forall_app. split; [exact Hall|]. apply Forall_singleton.
  exists t, due. auto.
Qed.

(** X16. Every assignment that "Method 1" emits has a title that contains
    "Assignment", contains no date label, is longer than 5 characters and
    starts with no navigation word; its due date is the default
    "No due date found" or a line that starts with "Due:". *)
Theorem method1_emits_titles_that_passed (elements : list element) (a : assignment) :
  a ∈ snd (method1 elements) ->
  exists t due,
    a = mk_assignment t due /\
    PyStr.contains "Assignment" t = true /\
    mentions_date_label t = false /\
    (5 < String.length t)%nat /\
    existsb (PyStr.startswith t) navigation_prefixes = false /\
    (due = "No due date found" \/ PyStr.startswith due "Due:" = true).
Proof.
  intros Ha.
  assert (Hall : Forall from_walk (snd (method1 elements))).
  { unfold method1.
    apply (foldl_invariant (fun st => Forall from_walk (snd st)) method1_step);
      [apply method1_step_emits | constructor]. }
  rewrite Forall_forall in Hall.
  destruct (Hall a Ha) as (t & due & Heq & (H1 & H2 & H3 & H4) & H5).
  exists t, due. auto 10.
Qed.

(** The card of "Assignment 1: Essay". *)
Lemma method1_emits_titles_that_passed_witness :
  exists t due,
    mk_assignment "Assignment 1: Essay" "Due: Tuesday, 19 August 2025, 12:00 AM"
      = mk_assignment t due /\
    PyStr.contains "Assignment" t = true /\
    mentions_date_label t = false /\
    (5 < String.length t)%nat /\
    existsb (PyStr.startswith t) navigation_prefixes = false /\
    (due = "No due date found" \/ PyStr.startswith due "Due:" = true).
Proof.
  assert (Ha : mk_assignment "Assignment 1: Essay" "Due: Tuesday, 19 August 2025, 12:00 AM"
                 ∈ snd (method1 [MoreSamples.card]))
    by (vm_compute; left).
  exact (method1_emits_titles_that_passed _ _ Ha).
Defined.

Lemma walk_levels_without_due (levels : list (option string)) (st : walk_state) :
  (forall text, Some text ∈ levels ->
     PyStr.contains "Due:" (PyStr.strip text) = false) ->
  walk_levels levels st = st.
Proof.
  induction levels as [|[text|] rest IH]; intros H; cbn [walk_levels]; auto.
  cbv zeta. rewrite (H text) by left. rewrite andb_false_r.
  apply IH. intros t Ht. apply H. right. exact Ht.
Qed.

(** X17. "Method 1" needs a "Due:" nearby: when none of the texts read on
    the way up, five at most, contains "Due:", the walk finds no title, and
    the element adds nothing to the result. *)
Theorem walk_needs_a_due_label (e : element) :
  (forall text, Some text ∈ take 5 (el_levels e) ->
     PyStr.contains "Due:" (PyStr.strip text) = false) ->
  walk e = (None, "No due date found")
  /\ forall st, method1_step st e = st.
Proof.
  intros H.
  assert (Hw : walk e = (None, "No due date found"))
    by (apply walk_levels_without_due; exact H).
  split; [exact Hw|]. intros st. unfold method1_step.
  destruct (el_text e); [|reflexivity].
  destruct (passed_over _); [reflexivity|]. rewrite Hw. reflexivity.
Qed.

(** "Assignment 5: Reading" under "Week 3": no due date around, nothing
    found. *)
Lemma walk_needs_a_due_label_witness :
  walk MoreSamples.bare = (None, "No due date found")
  /\ forall st, method1_step st MoreSamples.bare = st.
Proof.
  apply walk_needs_a_due_label. intros text Hin.
  apply elem_of_cons in Hin as [Hin|Hin]; [injection Hin as ->; reflexivity|].
  apply elem_of_cons in Hin as [Hin|Hin]; [injection Hin as ->; reflexivity|].
  inversion Hin.
Defined.

Lemma tidy_found_empty (found : gset string) (acc : list assignment) :
  tidy found acc -> (size found = 0%nat <-> acc = []).
Proof.
  intros (Hset & Hlen & _). split.
  - intros Hsize. apply size_empty_iff in Hsize.
    destruct acc as [|a acc]; [reflexivity|]. exfalso.
    destruct (titles (a :: acc)) as [|t ts] eqn:E; [simpl in Hlen; discriminate|].
    assert (t ∈ found) as Hin by (rewrite Hset; simpl; set_solver).
    rewrite Hsize in Hin. apply not_elem_of_empty in Hin. exact Hin.
  - intros ->. rewrite Hset. reflexivity.
Qed.

(** X18. The two methods never mix: when "Method 1" finds anything, the
    result of the scrape is its list and the texts of the page are not
    read; when it finds nothing, the result is what "Method 2" finds on an
    empty start. *)
Theorem scrape_uses_one_method (elements : list element) (texts : list string) :
  (snd (method1 elements) <> [] -> scrape elements texts = snd (method1 elements))
  /\ (snd (method1 elements) = [] ->
      scrape elements texts = assignments (fallback_loop ∅ [] texts)).
Proof.
  assert (H1 : tidy (fst (method1 elements)) (snd (method1 elements))).
  { unfold method1.
    apply (foldl_invariant (fun st => tidy (fst st) (snd st)) method1_step);
      [apply method1_step_tidy | apply tidy_empty]. }
  unfold scrape. destruct (method1 elements) as [found acc]. simpl in *.
  pose proof (tidy_found_empty found acc H1) as Hiff.
  unfold fallback_method. split.
  - intros Hne. rewrite decide_False; [reflexivity|]. intros Hs. apply Hne, Hiff, Hs.
  - intros ->. rewrite decide_True by (apply Hiff; reflexivity).
    destruct H1 as (-> & _). reflexivity.
Qed.

End ScraperExtras.

(** * The classifier and the run *)
Section PipelineExtras.
Import DateTime Storage Notifier Agent History Classifier Scraper Pipeline Samples.

Lemma count_matches_bounds (indicators : list string) (text : string) :
  0 <= count_matches indicators text <= Z.of_nat (length indicators).
Proof.
  induction indicators as [|ind rest IH]; simpl count_matches; simpl length; [lia|].
  destruct (PyStr.contains ind text); lia.
Qed.

Lemma count_matches_zero (indicators : list string) (text : string) :
  count_matches indicators text = 0 <->
  forall ind, ind ∈ indicators -> PyStr.contains ind text = false.
Proof.
  induction indicators as [|ind rest IH]; simpl count_matches.
  - split; [intros _ ind H; inversion H | reflexivity].
  - pose proof (count_matches_bounds rest text) as Hb. split.
    + intros H ind' Hin. destruct (PyStr.contains ind text) eqn:E; [lia|].
      apply elem_of_cons in Hin as [->|Hin]; [exact E|].
      apply IH; [lia | exact Hin].
    + intros H. rewrite (H ind) by left.
      rewrite (proj2 IH); [reflexivity|]. intros i Hi. apply H. right. exact Hi.
Qed.

Lemma count_matches_pos (indicators : list string) (text : string) :
  0 < count_matches indicators text ->
  exists ind, ind ∈ indicators /\ PyStr.contains ind text = true.
Proof.
  induction indicators as [|ind rest IH]; simpl count_matches; [lia|].
  destruct (PyStr.contains ind text) eqn:E.
  - intros _. exists ind. split; [left | exact E].
  - intros H. destruct IH as (i & Hi & Hc); [lia|]. exists i. split; [right|]; auto.
Qed.

(** X19. The scores of [classify_text]: the confidence is a quotient
    between 0 and 1, 1 excluded; a text is an assignment only if some
    assignment word occurs in its lowercase form; a tie is not an
    assignment; and the confidence is 0 exactly when no word of either list
    occurs, as for the empty text. *)
Theorem classify_text_scores (text : string) :
  0 <= confidence_num (classify_text text) < confidence_den (classify_text text)
  /\ (is_assignment (classify_text text) = true ->
      exists ind, ind ∈ assignment_indicators
                  /\ PyStr.contains ind (PyStr.lower text) = true)
  /\ (count_matches assignment_indicators (PyStr.lower text)
      = count_matches non_assignment_indicators (PyStr.lower text) ->
      is_assignment (classify_text text) = false)
  /\ (confidence_num (classify_text text) = 0 <->
      forall ind, ind ∈ assignment_indicators ++ non_assignment_indicators ->
                  PyStr.contains ind (PyStr.lower text) = false).
Proof.
  unfold classify_text. cbv zeta. cbn [confidence_num confidence_den is_assignment].
  pose proof (count_matches_bounds assignment_indicators (PyStr.lower text)) as Ha.
  pose proof (count_matches_bounds non_assignment_indicators (PyStr.lower text)) as Hn.
  split; [lia|]. split; [|split].
  - intros H. apply Z.ltb_lt in H. apply count_matches_pos. lia.
  - intros ->. apply Z.ltb_irrefl.
  - split.
    + intros H ind Hin. apply elem_of_app in Hin as [Hin|Hin].
      * apply (proj1 (count_matches_zero assignment_indicators _));
          [lia | exact Hin].
      * apply (proj1 (count_matches_zero non_assignment_indicators _));
          [lia | exact Hin].
    + intros H.
      rewrite (proj2 (count_matches_zero assignment_indicators _));
        [|intros i Hi; apply H, elem_of_app; left; exact Hi].
      rewrite (proj2 (count_matches_zero non_assignment_indicators _));
        [|intros i Hi; apply H, elem_of_app; right; exact Hi].
      reflexivity.
Qed.

(** X20. A text that mentions an assignment word, and no word of the
    other list, is an assignment, whatever its case. *)
Theorem classify_text_accepts (text : string) :
  (exists ind, ind ∈ assignment_indicators
               /\ PyStr.contains ind (PyStr.lower text) = true) ->
  (forall ind, ind ∈ non_assignment_indicators ->
               PyStr.contains ind (PyStr.lower text) = false) ->
  is_assignment (classify_text text) = true.
Proof.
  intros (ind & Hin & Hc) Hnone. unfold classify_text. cbv zeta. cbn [is_assignment].
  rewrite (proj2 (count_matches_zero non_assignment_indicators _) Hnone).
  apply Z.ltb_lt.
  destruct (decide (count_matches assignment_indicators (PyStr.lower text) = 0))
    as [Hz|Hnz].
  - rewrite (proj1 (count_matches_zero _ _) Hz ind Hin) in Hc. discriminate.
  - pose proof (count_matches_bounds assignment_indicators (PyStr.lower text)). lia.
Qed.

(** "Programming Assignment 3" *)
Lemma classify_text_accepts_witness :
  is_assignment (classify_text "Programming Assignment 3") = true.
Proof.
  apply classify_text_accepts.
  - exists "assignment". split; [left | reflexivity].
  - apply count_matches_zero. reflexivity.
Defined.

Lemma prefix_split (p s : string) :
  String.prefix p s = true -> exists v, s = p +:+ v.
Proof.
  revert s. induction p as [|a p IH]; intros s H; [exists s; reflexivity|].
  destruct s as [|b s]; [discriminate|]. simpl in H.
  destruct (ascii_dec a b) as [->|]; [|discriminate].
  destruct (IH s H) as [v ->]. exists v. reflexivity.
Qed.

Lemma append_assoc (a b c : string) : (a +:+ b) +:+ c = a +:+ (b +:+ c).
Proof.
  induction a as [|x a IH]; [reflexivity|].
  change (String x ((a +:+ b) +:+ c) = String x (a +:+ b +:+ c)).
  f_equal. exact IH.
Qed.

(** [p in s] holds exactly when [s] is [u + p + v] for some [u] and [v]. *)
Lemma contains_split (p s : string) :
  PyStr.contains p s = true <-> exists u v, s = u +:+ p +:+ v.
Proof.
  split.
  - induction s as [|c s IH]; cbn [PyStr.contains]; intros H.
    + rewrite orb_false_r in H. apply prefix_split in H as [v Hv].
      exists EmptyString, v. exact Hv.
    + apply orb_true_iff in H as [H|H].
      * apply prefix_split in H as [v Hv]. exists EmptyString, v. exact Hv.
      * destruct (IH H) as (u & v & ->). exists (String c u), v. reflexivity.
  - intros (u & v & ->). induction u as [|c u IH].
    + change (EmptyString +:+ p +:+ v) with (p +:+ v).
      apply prefix_contains, prefix_app.
    + change (String c u +:+ p +:+ v) with (String c (u +:+ p +:+ v)).
      cbn [PyStr.contains]. rewrite IH. apply orb_true_r.
Qed.

Lemma contains_trans (a b c : string) :
  PyStr.contains a b = true -> PyStr.contains b c = true -> PyStr.contains a c = true.
Proof.
  intros Hab Hbc. apply contains_split in Hab as (u1 & v1 & ->).
  apply contains_split in Hbc as (u2 & v2 & ->).
  apply contains_split. exists (u2 +:+ u1), (v1 +:+ v2).
  rewrite !append_assoc. reflexivity.
Qed.

(** X21. The words are looked for inside words: a text that mentions
    "syllabus" also counts for "lab", which is part of it, so that it scores
    at least one point on both sides, and its confidence stays below
    [(den - 1) / den]. *)
Theorem syllabus_counts_as_lab (text : string) :
  PyStr.contains "syllabus" (PyStr.lower text) = true ->
  1 <= count_matches assignment_indicators (PyStr.lower text)
  /\ 1 <= count_matches non_assignment_indicators (PyStr.lower text)
  /\ confidence_num (classify_text text) < confidence_den (classify_text text) - 1.
Proof.
  intros H.
  assert (Hlab : PyStr.contains "lab" (PyStr.lower text) = true)
    by (eapply contains_trans; [|exact H]; reflexivity).
  assert (Ha : 1 <= count_matches assignment_indicators (PyStr.lower text)).
  { destruct (decide (count_matches assignment_indicators (PyStr.lower text) = 0))
      as [Hz|Hnz].
    - rewrite (proj1 (count_matches_zero _ _) Hz "lab") in Hlab; [discriminate|].
      do 4 right. left.
    - pose proof (count_matches_bounds assignment_indicators (PyStr.lower text)). lia. }
  assert (Hn : 1 <= count_matches non_assignment_indicators (PyStr.lower text)).
  { destruct (decide (count_matches non_assignment_indicators (PyStr.lower text) = 0))
      as [Hz|Hnz].
    - rewrite (proj1 (count_matches_zero _ _) Hz "syllabus") in H; [discriminate|].
      left.
    - pose proof (count_matches_bounds non_assignment_indicators (PyStr.lower text)).
      lia. }
  split; [exact Ha|]. split; [exact Hn|].
  unfold classify_text. cbv zeta. cbn [confidence_num confidence_den]. lia.
Qed.

(** "Course Syllabus": one point for "lab", one for "syllabus". *)
Lemma syllabus_counts_as_lab_witness :
  1 <= count_matches assignment_indicators (PyStr.lower "Course Syllabus")
  /\ is_assignment (classify_text "Course Syllabus") = false.
Proof.
  split; [|reflexivity].
  exact (proj1 (syllabus_counts_as_lab "Course Syllabus" eq_refl)).
Defined.

Lemma classify_all_titled (l : list assignment) :
  Forall (fun a => is_Some (a !! "title")) l ->
  classify_all l = Some (filter (fun a => kept a) l).
Proof.
  induction 1 as [|a l [title Ht] Hall IH]; [reflexivity|].
  assert (Hk : kept a = is_assignment (classify_text title))
    by (unfold kept; rewrite Ht; reflexivity).
  cbn [classify_all]. rewrite Ht, IH, filter_cons.
  destruct (decide (kept a)) as [Hd|Hd]; rewrite Hk in Hd;
    destruct (is_assignment (classify_text title)); try reflexivity;
    simpl in Hd; contradiction.
Qed.

Lemma classify_all_untitled (l : list assignment) :
  is_Some (classify_all l) -> Forall (fun a => is_Some (a !! "title")) l.
Proof.
  induction l as [|a l IH]; [constructor|]. cbn [classify_all].
  destruct (a !! "title") as [title|] eqn:Ht; [|intros [x Hx]; discriminate].
  destruct (classify_all l) as [rest|]; [|intros [x Hx]; discriminate].
  intros _. constructor; [eauto | apply IH; eauto].
Qed.

(** X22. A run of [process_assignments]. When some dict has no title it
    raises before anything is stored. Otherwise, when no title classifies
    as an assignment, it returns the empty list, the table is not touched
    and no scan is made. Otherwise the dicts whose title classifies as an
    assignment are stored, in their order, and counted in the statistics,
    and the stored table is scanned: the run returns those dicts when the
    scan returns and raises when the scan raises, that is when the end of
    the window is no date that [datetime] holds or the stored table has in
    the window a row that is not notified and whose due date is aware;
    either way the store and the marks made by the scan stay, and the keys
    of those dicts are in the table. A reachable table stays reachable. *)
Theorem process_assignments_outcome dp (store_clock : nat -> Z) (adv : list Z)
    (py_now sql_now : Z) (scan_clock : nat -> Z) (d : db) (url : string)
    (l : list assignment) (o : outcome) :
  process_assignments dp store_clock adv py_now sql_now scan_clock d url l = o ->
  (~ Forall (fun a => is_Some (a !! "title")) l -> o = mk_outcome d None None [])
  /\ (Forall (fun a => is_Some (a !! "title")) l ->
      filter (fun a => kept a) l = [] -> o = mk_outcome d (Some []) None [])
  /\ (Forall (fun a => is_Some (a !! "title")) l ->
      filter (fun a => kept a) l <> [] ->
      exists d1 s,
        store_assignments dp store_clock d url (filter (fun a => kept a) l)
          = Some (d1, s)
        /\ storage_stats o = Some s
        /\ total s = Z.of_nat (length (filter (fun a => kept a) l))
        /\ (table o, reminders o)
           = check_and_notify_deadlines adv py_now sql_now scan_clock d1
        /\ (returned o = None <->
            ~ (min_us <= py_now + 30 * us_per_day <= max_us)
            \/ exists r t, r ∈ rows d1 /\ notified r = false /\
                 due_date_parsed r = Some t /\ aware t = true /\
                 sql_now <= to_us t < py_now + 30 * us_per_day)
        /\ (returned o <> None -> returned o = Some (filter (fun a => kept a) l))
        /\ (forall a, a ∈ filter (fun a => kept a) l ->
              (url, title_of a) ∈ keys (table o)))
  /\ (reachable d -> reachable (table o)).
Proof.
  intros <-. unfold process_assignments.
  split; [|split; [|split]].
  - intros Hno. destruct (classify_all l) as [c|] eqn:Hc; [|reflexivity].
    exfalso. apply Hno. apply classify_all_untitled. rewrite Hc. eauto.
  - intros Hall Hnil. rewrite (classify_all_titled l Hall), Hnil. reflexivity.
  - intros Hall Hne. rewrite (classify_all_titled l Hall).
    destruct (filter (fun a => kept a) l) as [|a kept_list] eqn:Hf; [congruence|].
    destruct (store_loop_total dp url store_clock (a :: kept_list) 0
                (d, mk_stats 0 0 0)) as [[d1 s] E].
    change (store_assignments dp store_clock d url (a :: kept_list) = Some (d1, s)) in E.
    rewrite E. exists d1, s. split; [reflexivity|].
    pose proof (scan_raises_iff adv py_now sql_now scan_clock d1) as Hraise.
    unfold check_and_notify_deadlines.
    destruct (check_and_notify_deadlines_or_raise adv py_now sql_now scan_clock d1)
      as [[d2 sent] e] eqn:Hscan.
    cbn [storage_stats table reminders returned fst snd] in *.
    split; [reflexivity|]. split.
    { destruct (store_loop_stats _ _ _ _ _ _ _ _ _ E) as (_ & Ht & _).
      simpl in Ht. simpl length. lia. }
    split; [reflexivity|]. split.
    { rewrite <- Hraise. destruct e; split; intros H; congruence. }
    split.
    { destruct e; [reflexivity | intros H; contradiction]. }
    intros b Hb.
    assert (Hd2 : d2 = fst (check_and_notify_deadlines adv py_now sql_now
                               scan_clock d1))
      by (unfold check_and_notify_deadlines; rewrite Hscan; reflexivity).
    rewrite Hd2, scan_is_loop, notify_loop_keys.
    eapply store_loop_keys_stored; eauto.
  - intros Hr. destruct (classify_all l) as [[|a kept_list]|]; try exact Hr.
    destruct (store_assignments dp store_clock d url (a :: kept_list))
      as [[d1 s]|] eqn:Hs; [|exact Hr].
    destruct (check_and_notify_deadlines_or_raise adv py_now sql_now scan_clock d1)
      as [[d2 sent] e] eqn:Hscan.
    cbn [table].
    assert (Hd2 : d2 = fst (check_and_notify_deadlines adv py_now sql_now
                               scan_clock d1))
      by (unfold check_and_notify_deadlines; rewrite Hscan; reflexivity).
    rewrite Hd2. apply reach_scan. eapply reach_store; eauto.
Qed.

(** The card of "Assignment 1: Essay" on 18 August at noon, into an empty
    table: stored, scanned and returned. *)
Lemma process_assignments_outcome_witness :
  exists o,
    process_assignments None (fun _ => 0) default_advance_days
      (august 18 12 0) (august 18 12 0) (fun _ => august 18 12 0)
      init_database course [MoreSamples.card_assignment] = o /\
    reachable (table o).
Proof.
  eexists. split; [reflexivity|].
  apply (process_assignments_outcome None (fun _ => 0) default_advance_days
           (august 18 12 0) (august 18 12 0) (fun _ => august 18 12 0)
           init_database course [MoreSamples.card_assignment] _ eq_refl).
  apply reach_init.
Defined.

(** X23. From the page to the reminder in one run: when the last dict of
    a title among the classified ones has a due date that parses to a naive
    instant of the 30-day window, at most one day ahead at every reading of
    the clock, no row of its key was notified before, and the run returns,
    the run has sent a reminder for that key and that due date. *)
Theorem due_soon_is_reminded_in_the_same_run dp (store_clock : nat -> Z)
    (adv : list Z) (py_now sql_now : Z) (scan_clock : nat -> Z) (d : db)
    (url : string) (l l1 : list assignment) (a : assignment) (l2 : list assignment)
    (t : datetime) (o : outcome) :
  (forall r, r ∈ rows d -> row_key r = (url, title_of a) -> notified r = false) ->
  classify_all l = Some (l1 ++ a :: l2) ->
  (forall b, b ∈ l2 -> title_of b <> title_of a) ->
  parse_due_date dp (due_date_of a) = Some t ->
  aware t = false ->
  sql_now <= to_us t <= py_now + 30 * us_per_day ->
  (forall i, delta_days (to_us t) (scan_clock i) <= 1) ->
  process_assignments dp store_clock adv py_now sql_now scan_clock d url l = o ->
  is_Some (returned o) ->
  exists ev, ev ∈ reminders o /\
    dl_key (sent_for ev) = (url, title_of a) /\
    dl_due_date_parsed (sent_for ev) = Some t /\
    sent_days_until ev <= 1.
Proof.
  intros Hfresh Hc Hlast Hparse Hnaive Hwin Hsoon Ho Hret.
  unfold process_assignments in Ho. rewrite Hc in Ho.
  destruct (l1 ++ a :: l2) as [|x rest] eqn:Hl; [destruct l1; discriminate|].
  rewrite <- Hl in Ho.
  destruct (store_assignments dp store_clock d url (l1 ++ a :: l2))
    as [[d1 s]|] eqn:Hs;
    [|subst o; destruct Hret as [? Hret]; discriminate Hret].
  pose proof (notify_loop_ending adv scan_clock
                (get_upcoming_deadlines d1 py_now sql_now 30) 0 d1) as Hend.
  pose proof (scan_is_loop adv py_now sql_now scan_clock d1) as Hloop.
  unfold check_and_notify_deadlines in Hloop.
  destruct (scan_cases adv py_now sql_now scan_clock d1)
    as [(_ & _ & Hscan)|(Hadd & Hscan)];
    rewrite Hscan in Ho;
    [subst o; destruct Hret as [? Hret]; discriminate Hret|].
  destruct (notify_loop adv scan_clock 0
              (get_upcoming_deadlines d1 py_now sql_now 30) d1)
    as [[d2 sent] e] eqn:Hrun.
  subst o. cbn [reminders returned] in *.
  destruct e; [|destruct Hret as [? Hret]; discriminate Hret].
  destruct (last_write_key_holds _ _ _ _ _ _ _ _ _ Hlast Hs) as [Hk Hrows].
  unfold keys in Hk. rewrite map_is_fmap in Hk.
  apply list_elem_of_fmap in Hk as (r1 & Hk1 & Hr1). symmetry in Hk1.
  destruct (Hrows r1 Hr1 Hk1) as (_ & Hdue & _). rewrite Hparse in Hdue.
  assert (Hflag : notified r1 = false).
  { pose proof Hr1 as Hi. apply list_elem_of_lookup in Hi as [i Hi].
    destruct (store_loop_grows _ _ _ _ _ _ _ _ _ Hs) as (P1 & P2 & _).
    destruct (decide (i < length (rows d))%nat) as [Hlt|Hge].
    - apply lookup_lt_is_Some_2 in Hlt as [r0 Hi0].
      destruct (P1 i r0 Hi0) as (r1' & Hi1 & He & _).
      assert (r1' = r1) as -> by congruence.
      apply identity_and_flag_eq in He as (_ & E2 & E3 & E4). rewrite E4.
      apply Hfresh; [eapply list_elem_of_lookup_2; exact Hi0|].
      unfold row_key in *. congruence.
    - apply (P2 i r1 Hi). lia. }
  assert (Hin : deadline_of r1 ∈ get_upcoming_deadlines d1 py_now sql_now 30).
  { destruct (upcoming_cases d1 py_now sql_now 30) as [(E & _)|(_ & _ & ->)];
      [congruence|].
    apply select_upcoming_elem. exists r1. split; [exact Hr1|].
    split; [|reflexivity].
    unfold in_window. rewrite Hdue, Hnaive. apply andb_true_iff.
    split; apply Z.leb_le; lia. }
  apply list_elem_of_lookup in Hin as [j Hj].
  assert (Hn : days_until (deadline_of r1) (scan_clock (0 + j)%nat)
               = Some (delta_days (to_us t) (scan_clock (0 + j)%nat))).
  { unfold days_until; simpl. rewrite Hdue, Hnaive. reflexivity. }
  exists (mk_dispatch (deadline_of r1) (delta_days (to_us t) (scan_clock (0 + j)%nat))).
  split; [|split; [exact Hk1 | split; [exact Hdue | apply Hsoon]]].
  change sent with (d2, sent, Returned).1.2. rewrite <- Hrun.
  apply (notify_loop_dispatches adv scan_clock _ 0 d1 j (deadline_of r1) _ Hj).
  - intros k b Hk Hb. destruct (raises_at b) eqn:Eb; [|reflexivity].
    assert ((d2, sent, Returned).2 = Raised) as Hcontra; [|discriminate Hcontra].
    apply Hend. exists b.
    split; [eapply list_elem_of_lookup_2; exact Hb | exact Eb].
  - exact Hflag.
  - exact Hn.
  - unfold due_for_reminder. apply orb_true_iff. right. apply Z.leb_le. apply Hsoon.
Qed.

(** The card of "Assignment 1: Essay", scraped on 18 August at noon into an
    empty table: the reminder leaves in the same run. *)
Lemma due_soon_is_reminded_in_the_same_run_witness :
  exists o ev,
    process_assignments None (fun _ => 0) default_advance_days
      (august 18 12 0) (august 18 12 0) (fun _ => august 18 12 0)
      init_database course [MoreSamples.card_assignment] = o /\
    ev ∈ reminders o /\
    dl_key (sent_for ev) = (course, title_of MoreSamples.card_assignment) /\
    dl_due_date_parsed (sent_for ev) = Some essay_due /\
    sent_days_until ev <= 1.
Proof.
  destruct (due_soon_is_reminded_in_the_same_run None (fun _ => 0)
              default_advance_days (august 18 12 0) (august 18 12 0)
              (fun _ => august 18 12 0) init_database course
              [MoreSamples.card_assignment] [] MoreSamples.card_assignment []
              essay_due
              (process_assignments None (fun _ => 0) default_advance_days
                 (august 18 12 0) (august 18 12 0) (fun _ => august 18 12 0)
                 init_database course [MoreSamples.card_assignment]))
    as (ev & H1 & H2 & H3 & H4).
  - intros r Hr. inversion Hr.
  - reflexivity.
  - intros b Hb. inversion Hb.
  - vm_compute. reflexivity.
  - reflexivity.
  - vm_compute. split; discriminate.
  - intros i. vm_compute. discriminate.
  - reflexivity.
  - vm_compute. eauto.
  - eexists _, ev. split; [reflexivity|]. auto.
Defined.

End PipelineExtras.

(** * The URL test and the dates of the parser *)
Section UrlAndDateExtras.
Import DateTime Url.

Lemma lit_split {R : Type} (w : string) (k : string -> option R) (s : string) (r : R) :
  lit w k s = Some r <-> exists rest, s = w +:+ rest /\ k rest = Some r.
Proof.
  revert s. induction w as [|a w IH]; intros s; cbn [lit].
  - split; [intros H; exists s; auto | intros (rest & -> & H); exact H].
  - unfold char_if. destruct s as [|c s].
    + split; [discriminate | intros (rest & Hr & _); discriminate Hr].
    + destruct (Ascii.eqb a c) eqn:E.
      * apply Ascii.eqb_eq in E. subst c. rewrite IH. split.
        -- intros (rest & -> & H). exists rest. auto.
        -- intros (rest & [= ->] & H). exists rest. auto.
      * split; [discriminate|]. intros (rest & [= -> _] & _).
        rewrite Ascii.eqb_refl in E. discriminate.
Qed.

(** X24. [is_valid_url] accepts exactly the strings that start with
    "http://" or with "https://", in lowercase; nothing is asked of what
    follows. *)
Theorem is_valid_url_accepts_scheme (url : string) :
  is_valid_url url = true <->
  (exists rest, url = "http://" +:+ rest) \/ (exists rest, url = "https://" +:+ rest).
Proof.
  unfold is_valid_url, match_scheme. split.
  - destruct (lit "http" _ url) as [r|] eqn:E; [intros _|discriminate].
    apply lit_split in E as (rest & -> & E). unfold orelse in E.
    destruct (lit "s" (lit "://" Some) rest) as [r1|] eqn:E1.
    + apply lit_split in E1 as (rest1 & -> & E1).
      apply lit_split in E1 as (rest2 & -> & _). right. exists rest2. reflexivity.
    + apply lit_split in E as (rest1 & -> & _). left. exists rest1. reflexivity.
  - assert (Hs : forall rest, lit "http" (orelse (lit "s" (lit "://" Some))
                                                  (lit "://" Some))
                                ("https://" +:+ rest) = Some rest) by reflexivity.
    assert (Hp : forall rest, lit "http" (orelse (lit "s" (lit "://" Some))
                                                  (lit "://" Some))
                                ("http://" +:+ rest) = Some rest) by reflexivity.
    intros [[rest ->]|[rest ->]]; [rewrite Hp | rewrite Hs]; reflexivity.
Qed.

Section RegexFacts.
Context {R : Type}.

Lemma char_if_inv (p : ascii -> bool) (k : ascii -> string -> option R) s (r : R) :
  char_if p k s = Some r ->
  exists c s', s = String c s' /\ p c = true /\ k c s' = Some r.
Proof.
  unfold char_if. destruct s as [|c s']; [discriminate|].
  destruct (p c) eqn:E; [|discriminate]. intros H. exists c, s'. auto.
Qed.

Lemma orelse_inv (m1 m2 : string -> option R) s (r : R) :
  orelse m1 m2 s = Some r -> m1 s = Some r \/ m2 s = Some r.
Proof. unfold orelse. destruct (m1 s); [intros [= ->]; left | right]; auto. Qed.

Lemma word_passes (w : string) (k : string -> option R) s (r : R) :
  word w k s = Some r -> exists s', k s' = Some r.
Proof.
  revert s. induction w as [|a w IH]; intros s; cbn [word]; [eauto|].
  intros H. apply char_if_inv in H as (c & s' & _ & _ & H). eauto.
Qed.

Lemma spaces0_passes (k : string -> option R) s (r : R) :
  spaces0 k s = Some r -> exists s', k s' = Some r.
Proof.
  induction s as [|c s IH]; cbn [spaces0]; [eauto|].
  destruct (PyStr.isspace c); [|eauto].
  destruct (spaces0 k s) as [r'|]; [intros [= ->]; auto | eauto].
Qed.

Lemma spaces1_passes (k : string -> option R) s (r : R) :
  spaces1 k s = Some r -> exists s', k s' = Some r.
Proof.
  unfold spaces1. intros H. apply char_if_inv in H as (c & s' & _ & _ & H).
  eapply spaces0_passes. exact H.
Qed.

Lemma names_yields (l : list (string * Z)) (k : Z -> string -> option R) s (r : R) :
  names l k s = Some r -> exists v s', v ∈ map snd l /\ k v s' = Some r.
Proof.
  induction l as [|[w v] l IH]; cbn [names]; [discriminate|].
  intros H. apply orelse_inv in H as [H|H].
  - apply word_passes in H as [s' H]. exists v, s'. split; [left | exact H].
  - destruct (IH H) as (v' & s' & Hin & Hk). exists v', s'. split; [right|]; auto.
Qed.

Lemma digit_val_range (lo hi c : ascii) :
  in_range lo hi c = true ->
  digit_val lo <= digit_val c <= digit_val hi.
Proof.
  unfold in_range, digit_val. intros H. apply andb_true_iff in H as [H1 H2].
  apply Nat.leb_le in H1, H2. lia.
Qed.

Lemma re_I_yields (k : Z -> string -> option R) s (r : R) :
  re_I k s = Some r -> exists v s', 1 <= v <= 12 /\ k v s' = Some r.
Proof.
  unfold re_I. intros H. apply orelse_inv in H as [H|H]; [|apply orelse_inv in H as [H|H]].
  - apply char_if_inv in H as (a & s1 & _ & Ha & H).
    apply char_if_inv in H as (b & s2 & _ & Hb & H).
    apply digit_val_range in Ha, Hb. change (digit_val "1") with 1 in *.
    change (digit_val "0") with 0 in *. change (digit_val "2") with 2 in *.
    eexists _, _. split; [|exact H]. lia.
  - apply char_if_inv in H as (a & s1 & _ & _ & H).
    apply char_if_inv in H as (b & s2 & _ & Hb & H).
    apply digit_val_range in Hb. change (digit_val "1") with 1 in *.
    change (digit_val "9") with 9 in *. eexists _, _. split; [|exact H]. lia.
  - apply char_if_inv in H as (b & s2 & _ & Hb & H).
    apply digit_val_range in Hb. change (digit_val "1") with 1 in *.
    change (digit_val "9") with 9 in *. eexists _, _. split; [|exact H]. lia.
Qed.

Lemma re_M_yields (k : Z -> string -> option R) s (r : R) :
  re_M k s = Some r -> exists v s', 0 <= v <= 59 /\ k v s' = Some r.
Proof.
  unfold re_M, is_digit. intros H. apply orelse_inv in H as [H|H].
  - apply char_if_inv in H as (a & s1 & _ & Ha & H).
    apply char_if_inv in H as (b & s2 & _ & Hb & H).
    apply digit_val_range in Ha, Hb. change (digit_val "0") with 0 in *.
    change (digit_val "5") with 5 in *. change (digit_val "9") with 9 in *.
    eexists _, _. split; [|exact H]. lia.
  - apply char_if_inv in H as (b & s2 & _ & Hb & H).
    apply digit_val_range in Hb. change (digit_val "0") with 0 in *.
    change (digit_val "9") with 9 in *. eexists _, _. split; [|exact H]. lia.
Qed.

Lemma re_d_passes (k : Z -> string -> option R) s (r : R) :
  re_d k s = Some r -> exists v s', k v s' = Some r.
Proof.
  unfold re_d. intros H.
  repeat (apply orelse_inv in H as [H|H]);
    repeat (apply char_if_inv in H as (? & ? & _ & _ & H)); eauto.
Qed.

Lemma re_Y_passes (k : Z -> string -> option R) s (r : R) :
  re_Y k s = Some r -> exists v s', k v s' = Some r.
Proof.
  unfold re_Y. intros H.
  repeat (apply char_if_inv in H as (? & ? & _ & _ & H)); eauto.
Qed.

End RegexFacts.

(** The groups of a match of the format: an hour of the 12-hour clock, a
    minute, and one of the two halves of the day. *)
Lemma match_format_fields (s : string) (f : fields) (rest : string) :
  match_format s = Some (f, rest) ->
  1 <= f_hour f <= 12 /\ 0 <= f_minute f <= 59 /\ (f_pm f = 0 \/ f_pm f = 1).
Proof.
  unfold match_format. intros H.
  apply names_yields in H as (wd & s1 & _ & H).
  apply word_passes in H as (s2 & H). apply spaces1_passes in H as (s3 & H).
  apply re_d_passes in H as (dd & s4 & H). apply spaces1_passes in H as (s5 & H).
  apply names_yields in H as (mo & s6 & _ & H). apply spaces1_passes in H as (s7 & H).
  apply re_Y_passes in H as (yy & s8 & H).
  apply word_passes in H as (s9 & H). apply spaces1_passes in H as (s10 & H).
  apply re_I_yields in H as (hh & s11 & Hh & H).
  apply word_passes in H as (s12 & H).
  apply re_M_yields in H as (mi & s13 & Hm & H).
  apply spaces1_passes in H as (s14 & H).
  apply names_yields in H as (pm & s15 & Hpm & H).
  injection H as <- _. cbn [f_hour f_minute f_pm].
  split; [exact Hh|]. split; [exact Hm|].
  simpl in Hpm. apply elem_of_cons in Hpm as [->|Hpm]; [left; reflexivity|].
  apply elem_of_cons in Hpm as [->|Hpm]; [right; reflexivity | inversion Hpm].
Qed.

Lemma strptime_real_date (s : string) (dt : datetime) :
  strptime s = Some dt ->
  1 <= year dt <= 9999 /\ 1 <= month dt <= 12 /\
  1 <= day dt <= days_in_month (year dt) (month dt) /\
  0 <= hour dt <= 23 /\ 0 <= minute dt <= 59 /\
  second dt = 0 /\ microsecond dt = 0.
Proof.
  unfold strptime. destruct (match_format s) as [[f rest]|] eqn:E; [|discriminate].
  destruct rest; [|discriminate].
  apply match_format_fields in E as (Hh & Hm & Hpm). unfold make_date.
  destruct ((1 <=? f_year f) && (f_year f <=? 9999) && (1 <=? f_month f)
            && (f_month f <=? 12) && (1 <=? f_day f)
            && (f_day f <=? days_in_month (f_year f) (f_month f))) eqn:Hc;
    [|discriminate].
  intros [= <-]. cbn [year month day hour minute second microsecond].
  repeat (apply andb_true_iff in Hc as [Hc ?]).
  repeat match goal with
         | H : (_ <=? _) = true |- _ => apply Z.leb_le in H
         end.
  repeat split; try lia;
    destruct Hpm as [-> | ->]; simpl; destruct (f_hour f =? 12) eqn:E12; lia.
Qed.

(** X25. [parse_due_date] returns what the optional [dateparser] module
    gives for the text without its label, when it is there and gives a
    date; otherwise what it returns is a date of the calendar, with a year
    between 1 and 9999, a day that the month has in that year, an hour
    below 24, a minute below 60, and no seconds. The empty string and the
    sentinel give nothing. *)
Theorem parse_due_date_gives_real_dates (dp : option (string -> option datetime))
    (raw : string) (dt : datetime) :
  parse_due_date dp raw = Some dt ->
  raw <> EmptyString /\ raw <> "No due date found" /\
  ((exists parse, dp = Some parse /\
      parse (PyStr.strip (PyStr.replace raw "Due:" EmptyString)) = Some dt)
   \/ (1 <= year dt <= 9999 /\ 1 <= month dt <= 12 /\
       1 <= day dt <= days_in_month (year dt) (month dt) /\
       0 <= hour dt <= 23 /\ 0 <= minute dt <= 59 /\
       second dt = 0 /\ microsecond dt = 0)).
Proof.
  unfold parse_due_date. intros H.
  destruct (negb (PyStr.truthy raw) || (raw =? "No due date found")%string) eqn:G;
    [discriminate|].
  apply orb_false_iff in G as [G1 G2]. apply negb_false_iff in G1.
  split; [intros ->; discriminate G1|].
  split; [intros ->; discriminate G2|]. cbv zeta in H.
  destruct dp as [parse|].
  - destruct (parse _) as [d0|] eqn:Ep.
    + injection H as <-. left. exists parse. auto.
    + right. apply (strptime_real_date (PyStr.strip (PyStr.replace raw "Due:" EmptyString))).
      destruct (strptime _) as [d1|]; [exact H | discriminate].
  - right. apply (strptime_real_date (PyStr.strip (PyStr.replace raw "Due:" EmptyString))).
    destruct (strptime _) as [d1|]; [exact H | discriminate].
Qed.

(** The due date of "Essay 1", parsed by the fixed format. *)
Lemma parse_due_date_gives_real_dates_witness :
  parse_due_date None Samples.essay_due_text = Some Samples.essay_due /\
  Samples.essay_due_text <> EmptyString.
Proof.
  assert (H : parse_due_date None Samples.essay_due_text = Some Samples.essay_due)
    by (vm_compute; reflexivity).
  split; [exact H|].
  exact (proj1 (parse_due_date_gives_real_dates None _ _ H)).
Defined.

End UrlAndDateExtras.

(** * Filling the login form, and marking *)
Section LoginExtras.
Import Storage Login.

Lemma typed_into_app (c1 c2 : list call) :
  typed_into (c1 ++ c2) = typed_into c1 ++ typed_into c2.
Proof. unfold typed_into. apply omap_app. Qed.

Lemma fill_first_spec (elems : list field) :
  fst (fill_first elems) = existsb accepts elems
  /\ typed_into (snd (fill_first elems))
     = match find accepts elems with Some f => [f] | None => [] end.
Proof.
  induction elems as [|e rest [IH1 IH2]]; [split; reflexivity|].
  cbn [fill_first existsb find]. unfold accepts at 1 3.
  destruct (clear_raises e) eqn:Ec; simpl.
  - destruct (fill_first rest) as [done calls]. simpl in *. auto.
  - destruct (send_keys_raises e) eqn:Es; simpl.
    + destruct (fill_first rest) as [done calls]. simpl in *. rewrite Es. auto.
    + rewrite Es. auto.
Qed.

Lemma find_app {A} (p : A -> bool) (l1 l2 : list A) :
  find p (l1 ++ l2) = match find p l1 with Some x => Some x | None => find p l2 end.
Proof.
  induction l1 as [|x l1 IH]; [reflexivity|]. simpl.
  destruct (p x); [reflexivity | exact IH].
Qed.

Lemma find_none_existsb {A} (p : A -> bool) (l : list A) :
  existsb p l = false -> find p l = None.
Proof.
  induction l as [|x l IH]; [reflexivity|]. simpl.
  destruct (p x); [discriminate | exact IH].
Qed.

Lemma existsb_find_none {A} (p : A -> bool) (l : list A) :
  find p l = None -> existsb p l = false.
Proof.
  induction l as [|x l IH]; [reflexivity|]. simpl.
  destruct (p x); [discriminate | exact IH].
Qed.

Lemma try_fill_spec (driver : string -> option (list field)) (selectors : list string) :
  fst (try_fill driver selectors) = existsb accepts (candidates driver selectors)
  /\ typed_into (snd (try_fill driver selectors))
     = match find accepts (candidates driver selectors) with
       | Some f => [f]
       | None => []
       end.
Proof.
  induction selectors as [|sel rest [IH1 IH2]]; [split; reflexivity|].
  unfold candidates in *. cbn [try_fill map concat].
  destruct (driver sel) as [elems|]; simpl; [|auto].
  destruct (fill_first_spec elems) as [H1 H2].
  rewrite existsb_app, find_app.
  destruct (fill_first elems) as [done calls]. simpl in H1, H2.
  destruct done.
  - simpl. rewrite <- H1. simpl. split; [reflexivity|].
    rewrite H2. destruct (find accepts elems) eqn:F; [reflexivity|].
    apply existsb_find_none in F. congruence.
  - destruct (try_fill driver rest) as [done' calls']. simpl in *.
    rewrite <- H1. simpl. split; [exact IH1|].
    rewrite typed_into_app, H2, IH2.
    rewrite (find_none_existsb accepts elems) by (symmetry; exact H1). reflexivity.
Qed.

(** X26. [try_fill] types the value into one field at most: the first
    field, in the order of the selectors and of their elements, whose
    [clear] and [send_keys] both return; it returns [True] exactly when
    there is such a field, and a selector whose query raises is passed
    over. *)
Theorem try_fill_types_into_first_taker (driver : string -> option (list field))
    (selectors : list string) :
  (fst (try_fill driver selectors) = true <->
   exists f, f ∈ candidates driver selectors /\ accepts f = true)
  /\ typed_into (snd (try_fill driver selectors))
     = match find accepts (candidates driver selectors) with
       | Some f => [f]
       | None => []
       end
  /\ (length (typed_into (snd (try_fill driver selectors))) <= 1)%nat.
Proof.
  destruct (try_fill_spec driver selectors) as [H1 H2].
  split; [|split; [exact H2|]].
  - rewrite H1, existsb_exists. split.
    + intros (f & Hin & Ha). exists f. split; [apply list_elem_of_In|]; auto.
    + intros (f & Hin & Ha). exists f. split; [apply list_elem_of_In|]; auto.
  - rewrite H2. destruct (find accepts _); simpl; lia.
Qed.

(** X27. Marking a key that is not stored does nothing: no row is made,
    no row is changed; and two marks can be made in either order. *)
Theorem mark_as_notified_absent_and_commutes (d : db) (url name url' name' : string) :
  ((url, name) ∉ keys d -> mark_as_notified d url name = d)
  /\ mark_as_notified (mark_as_notified d url name) url' name'
     = mark_as_notified (mark_as_notified d url' name') url name.
Proof.
  split.
  - intros Habs. destruct d as [rs li]. unfold mark_as_notified; simpl. f_equal.
    unfold keys in Habs; simpl in Habs.
    induction rs as [|r rs IH]; [reflexivity|]. simpl.
    rewrite IH by (intros H; apply Habs; right; exact H).
    destruct (matches url name r) eqn:E; [|reflexivity].
    exfalso. apply matches_key in E. apply Habs. simpl. rewrite E. left.
  - unfold mark_as_notified; simpl. f_equal. rewrite !map_map. apply map_ext.
    intros r.
    destruct (matches url name r) eqn:E1, (matches url' name' r) eqn:E2;
      rewrite ?matches_set_notified, ?E1, ?E2; reflexivity.
Qed.

End LoginExtras.
